(** * PC_Cleanup_Master: the temp-file / cache sweep engine

    A shallow embedding of the deletion paths of the repository:
    - [PCCleanupTool] of [PC_Cleanup_Tool/main.py] (the V1 temp sweep and
      the browser cleanup it starts),
    - [BrowserCacheCleaner] of [PC_Cleanup_Tool_V1/browser_cleaner.py],
    - [V2CleanupEngine] of [PC_Cleanup_Tool_V2/v2_core_engine.py] (the temp
      cleanup, the analysis that precedes it and the one-click run).

    The file system is a tree of regular files and directories.  What the
    operating system answers to each call (rename, stat, unlink, listing,
    rmdir) is carried by the nodes.

    The path tests.  [Path.exists], [Path.is_file] and [Path.is_dir] call
    [stat]; when [stat] is refused they raise [PermissionError], and
    [os.path.exists] answers [False].  Below, the tests are answered from
    the kind of the node and never raise, so a run of the functions below
    is a run of the Python code on the trees whose files can all be read by
    [stat] ([readable], [measurable], [entries_readable]); on a file with
    [f_stat_ok = false] the code stops at the test where the model goes on
    to the call of [stat] itself.  A property that depends on the
    difference is stated for the files, the entries or the trees that can be
    read, and says so in its hypotheses.

    What the model leaves out besides: entries that are neither a regular
    file nor a directory (links, devices); nothing else changes the tree
    while the code runs; paths are compared as written; the logger is kept
    only where a property reads it; figures computed in floating point
    (megabytes, rates, durations) are left as the integers they are computed
    from. *)

From Stdlib Require Import ZArith List Bool Ascii String Lia.
From stdpp Require Import base option list strings gmap.

Set Warnings "-register-all".
Local Open Scope string_scope.
Local Open Scope list_scope.
Local Open Scope Z_scope.

(** ** Exceptions *)

(** The exception classes the code can meet.  [PermissionError],
    [FileNotFoundError], [NotADirectoryError] and [DirectoryNotEmpty] are
    subclasses of Python's [OSError]; [AttributeError] is not. *)
Inductive exn : Type :=
| PermissionError
| FileNotFoundError
| NotADirectoryError
| DirectoryNotEmpty
| AttributeError.

(** [except (PermissionError, OSError)] *)
Definition is_OSError (e : exn) : bool :=
  match e with
  | AttributeError => false
  | _ => true
  end.

(** [except Exception] *)
Definition is_Exception (e : exn) : bool := true.

(** ** The file system *)

(** A path is the list of its components, the root directory first. *)
Definition path : Type := list string.

(** A regular file, with what the system calls on it answer:
    [f_locked]: [os.rename(p, p)] raises (the file is held open);
    [f_stat_ok]: [stat] succeeds; [f_unlink_ok]: [unlink] succeeds. *)
Record file : Type := mkFile {
  f_name : string;
  f_size : Z;
  f_locked : bool;
  f_stat_ok : bool;
  f_unlink_ok : bool
}.

(** A directory can be listed if [listable] and, once empty, removed if
    [removable]. *)
Inductive node : Type :=
| File (f : file)
| Dir (name : string) (listable removable : bool) (children : list node).

Definition node_name (n : node) : string :=
  match n with
  | File f => f_name f
  | Dir name _ _ _ => name
  end.

(** [Path.is_file()], [Path.is_dir()], answered from the kind of the node. *)
Definition is_file (n : node) : bool :=
  match n with File _ => true | Dir _ _ _ _ => false end.

Definition is_dir (n : node) : bool :=
  match n with File _ => false | Dir _ _ _ _ => true end.

(** An induction principle that reaches the children of a directory. *)
Section node_induction.
Variable P : node -> Prop.
Hypothesis P_File : forall f, P (File f).
Hypothesis P_Dir : forall name listable removable children,
    Forall P children -> P (Dir name listable removable children).

Fixpoint node_ind' (n : node) : P n :=
  match n with
  | File f => P_File f
  | Dir name listable removable children =>
      P_Dir name listable removable children
        ((fix all (l : list node) : Forall P l :=
            match l with
            | [] => @List.Forall_nil node P
            | x :: l' => @List.Forall_cons node P x l' (node_ind' x) (all l')
            end) children)
  end.
End node_induction.

(** Number of regular files below a node, and the bytes they hold. *)
Fixpoint count_files (n : node) : Z :=
  match n with
  | File _ => 1
  | Dir _ _ _ children =>
      (fix go (l : list node) : Z :=
         match l with
         | [] => 0
         | x :: l' => count_files x + go l'
         end) children
  end.

Fixpoint total_size (n : node) : Z :=
  match n with
  | File f => f_size f
  | Dir _ _ _ children =>
      (fix go (l : list node) : Z :=
         match l with
         | [] => 0
         | x :: l' => total_size x + go l'
         end) children
  end.

Definition count_files_list (l : list node) : Z :=
  fold_right (fun x acc => count_files x + acc) 0 l.

Definition total_size_list (l : list node) : Z :=
  fold_right (fun x acc => total_size x + acc) 0 l.

(** The system calls, as functions of the node they meet.  A path with no
    node behind it is [None]. *)

(** [os.rename(p, p)] *)
Definition os_rename_self (o : option file) : exn + unit :=
  match o with
  | None => inl FileNotFoundError
  | Some f => if f_locked f then inl PermissionError else inr tt
  end.

(** [p.stat().st_size] *)
Definition stat_size (o : option file) : exn + Z :=
  match o with
  | None => inl FileNotFoundError
  | Some f => if f_stat_ok f then inr (f_size f) else inl PermissionError
  end.

(** [p.unlink()] / [os.remove(p)]: the file is gone on success *)
Definition os_unlink (o : option file) : exn + unit :=
  match o with
  | None => inl FileNotFoundError
  | Some f => if f_unlink_ok f then inr tt else inl PermissionError
  end.

(** [p.iterdir()], a snapshot of the entries *)
Definition os_listdir (o : option node) : exn + list node :=
  match o with
  | None => inl FileNotFoundError
  | Some (File _) => inl NotADirectoryError
  | Some (Dir _ listable _ children) =>
      if listable then inr children else inl PermissionError
  end.

(** [p.rmdir()] *)
Definition os_rmdir (n : node) : exn + unit :=
  match n with
  | File _ => inl NotADirectoryError
  | Dir _ _ removable children =>
      match children with
      | [] => if removable then inr tt else inl PermissionError
      | _ :: _ => inl DirectoryNotEmpty
      end
  end.

(** Paths below a node: the entry called [name] of a listing, the node at a
    relative path, and the node with the entry at a relative path replaced
    (or dropped, for [None]). *)
Fixpoint find_child (name : string) (l : list node) : option node :=
  match l with
  | [] => None
  | x :: l' => if decide (node_name x = name) then Some x else find_child name l'
  end.

Fixpoint replace_child (name : string) (new : option node) (l : list node)
  : list node :=
  match l with
  | [] => []
  | x :: l' =>
      if decide (node_name x = name) then option_list new ++ l'
      else x :: replace_child name new l'
  end.

Fixpoint lookup_in (n : node) (rel : list string) : option node :=
  match rel with
  | [] => Some n
  | c :: rel' =>
      match n with
      | File _ => None
      | Dir _ _ _ children =>
          match find_child c children with
          | Some m => lookup_in m rel'
          | None => None
          end
      end
  end.

Fixpoint replace_in (n : node) (rel : list string) (new : option node)
  : option node :=
  match rel with
  | [] => new
  | c :: rel' =>
      match n with
      | File _ => Some n
      | Dir name listable removable children =>
          match find_child c children with
          | Some m =>
              Some (Dir name listable removable
                        (replace_child c (replace_in m rel' new) children))
          | None => Some n
          end
      end
  end.

(** The disk: the directories that are known by their full path. *)
Definition disk_lookup (d : gmap string node) (p : path) : option node :=
  match p with
  | [] => None
  | root :: rel =>
      match d !! root with
      | Some n => lookup_in n rel
      | None => None
      end
  end.

Definition disk_put (d : gmap string node) (p : path) (new : option node)
  : gmap string node :=
  match p with
  | [] => d
  | root :: rel =>
      match d !! root with
      | Some n =>
          match replace_in n rel new with
          | Some n' => <[root := n']> d
          | None => delete root d
          end
      | None => d
      end
  end.

(** The calls that reach the file system, in the order they are made. *)
Inductive op : Type :=
| OpExists (p : path)
| OpRename (p : path)
| OpStat (p : path)
| OpUnlink (p : path)
| OpListdir (p : path)
| OpRmdir (p : path).

Definition op_path (o : op) : path :=
  match o with
  | OpExists p | OpRename p | OpStat p | OpUnlink p | OpListdir p | OpRmdir p => p
  end.

(** ** A state and exception monad *)

Inductive outcome (A : Type) : Type :=
| Returned (a : A)
| Raised (e : exn).
Arguments Returned {A} a.
Arguments Raised {A} e.

Section monad.
Context {S : Type}.

Definition M (A : Type) : Type := S -> outcome A * S.

Definition ret {A} (a : A) : M A := fun s => (Returned a, s).

Definition raise {A} (e : exn) : M A := fun s => (Raised e, s).

Definition bind {A B} (m : M A) (k : A -> M B) : M B :=
  fun s =>
    match m s with
    | (Returned a, s') => k a s'
    | (Raised e, s') => (Raised e, s')
    end.

Definition modify (f : S -> S) : M unit := fun s => (Returned tt, f s).

Definition get : M S := fun s => (Returned s, s).

(** [try: body  except <classes>: handler]; what the body did to the state
    before it raised stays done. *)
Definition try_except {A} (body : M A) (classes : exn -> bool)
           (handler : exn -> M A) : M A :=
  fun s =>
    match body s with
    | (Returned a, s') => (Returned a, s')
    | (Raised e, s') => if classes e then handler e s' else (Raised e, s')
    end.

(** The result of a system call, raised when it is an error. *)
Definition lift {A} (r : exn + A) : M A :=
  match r with
  | inl e => raise e
  | inr a => ret a
  end.
End monad.
Arguments M : clear implicits.

Declare Scope monad_scope.
Delimit Scope monad_scope with monad.
Notation "x <- m ;; k" := (bind m (fun x => k))
  (at level 100, m at next level, right associativity) : monad_scope.
Notation "m ;;; k" := (bind m (fun _ => k))
  (at level 100, right associativity) : monad_scope.
Local Open Scope monad_scope.

(** ** The environment *)

(** What the environment gives: [%TEMP%], [%TMP%] and the home directory. *)
Record environment : Type := mkEnv {
  env_TEMP : option string;
  env_TMP : option string;
  home : string
}.

(** ** V1: [PCCleanupTool] ([PC_Cleanup_Tool/main.py]) *)

Module Main.

(** [self.cleanup_stats], the running totals of the tool. *)
Record cleanup_stats : Type := mkStats {
  temp_files_deleted : Z;
  temp_size_freed : Z;
  browser_caches_cleared : Z;
  errors_encountered : Z
}.

(** The tool and the machine it runs on: the running totals, the system
    calls made so far and the directories known by their path. *)
Record tool : Type := mkTool {
  stats : cleanup_stats;
  trace : list op;
  disk : gmap string node
}.

Definition log (o : op) : M tool unit :=
  modify (fun t => mkTool (stats t) (trace t ++ [o]) (disk t)).

Definition update_stats (f : cleanup_stats -> cleanup_stats) : M tool unit :=
  modify (fun t => mkTool (f (stats t)) (trace t) (disk t)).

(** [self.cleanup_stats['temp_files_deleted'] += 1] *)
Definition incr_temp_files_deleted : M tool unit :=
  update_stats (fun c =>
    mkStats (temp_files_deleted c + 1) (temp_size_freed c)
            (browser_caches_cleared c) (errors_encountered c)).

(** [self.cleanup_stats['temp_size_freed'] += file_size] *)
Definition add_temp_size_freed (file_size : Z) : M tool unit :=
  update_stats (fun c =>
    mkStats (temp_files_deleted c) (temp_size_freed c + file_size)
            (browser_caches_cleared c) (errors_encountered c)).

(** [self.cleanup_stats['errors_encountered'] += 1] *)
Definition incr_errors_encountered : M tool unit :=
  update_stats (fun c =>
    mkStats (temp_files_deleted c) (temp_size_freed c)
            (browser_caches_cleared c) (errors_encountered c + 1)).

(** [is_file_in_use]: rename the file to itself; any [OSError] means
    "in use". *)
Definition is_file_in_use (filepath : path) (o : option file) : M tool bool :=
  try_except
    (log (OpRename filepath);;;
     lift (os_rename_self o);;;
     ret false)
    is_OSError
    (fun _ => ret true).

(** [safe_delete_file]: the boolean the Python function returns, and what is
    left of the file.  [filepath.exists()] is answered by whether a file is
    there; for a file that [stat] cannot read the source raises at that
    test, inside the [try], and ends in the handler, where the model goes
    on to the probe and reaches the handler at the [stat] only if the file
    is not held. *)
Definition safe_delete_file (filepath : path) (o : option file)
  : M tool (bool * option file) :=
  try_except
    (log (OpExists filepath);;;
     if negb (bool_decide (is_Some o)) then ret (false, o)
     else
       in_use <- is_file_in_use filepath o;;
       if in_use then ret (false, o)
       else
         log (OpStat filepath);;;
         file_size <- lift (stat_size o);;
         log (OpUnlink filepath);;;
         lift (os_unlink o);;;
         incr_temp_files_deleted;;;
         add_temp_size_freed file_size;;;
         ret (true, None))
    is_OSError
    (fun _ => incr_errors_encountered;;; ret (false, o)).

(** The [try: if not any(item.iterdir()): item.rmdir()  except: pass] of
    [_clean_directory_recursive]; returns what is left of [item]. *)
Definition remove_if_empty (item_path : path) (item : node) : M tool (list node) :=
  try_except
    (log (OpListdir item_path);;;
     entries <- lift (os_listdir (Some item));;
     if negb (bool_decide (entries <> []))
     then
       log (OpRmdir item_path);;;
       lift (os_rmdir item);;;
       ret []
     else ret [item])
    is_OSError
    (fun _ => ret [item]).

(** [_clean_directory_recursive(directory, max_depth, current_depth)], on the
    node [dnode] found at [directory]; returns the node as the call leaves
    it.  The tests [item.is_file()] and [item.is_dir()] are answered from
    the kind of the entry (see the head of the file), so inside the outer
    [try] only the listing raises, before anything is changed, and the
    handler hands back [dnode]. *)
Fixpoint _clean_directory_recursive (directory : path) (dnode : node)
         (max_depth current_depth : Z) {struct dnode} : M tool node :=
  if current_depth >? max_depth then ret dnode
  else
    try_except
      (log (OpListdir directory);;;
       match dnode with
       | File _ => raise NotADirectoryError
       | Dir name listable removable children =>
           if negb listable then raise PermissionError
           else
             children' <-
               (fix for_item (items : list node) : M tool (list node) :=
                  match items with
                  | [] => ret []
                  | item :: rest =>
                      kept <-
                        match item with
                        | File f =>
                            r <- safe_delete_file (directory ++ [f_name f]) (Some f);;
                            ret (option_list (File <$> snd r))
                        | Dir n _ _ _ =>
                            if current_depth <? max_depth then
                              item' <- _clean_directory_recursive
                                         (directory ++ [n]) item max_depth
                                         (current_depth + 1);;
                              remove_if_empty (directory ++ [n]) item'
                            else ret [item]
                        end;;
                      rest' <- for_item rest;;
                      ret (kept ++ rest')
                  end) children;;
             ret (Dir name listable removable children')
       end)
      is_OSError
      (fun _ => incr_errors_encountered;;; ret dnode).

(** The loop [for item in directory.iterdir()] of
    [_clean_directory_recursive], by itself. *)
Fixpoint for_item (directory : path) (max_depth current_depth : Z)
         (items : list node) : M tool (list node) :=
  match items with
  | [] => ret []
  | item :: rest =>
      kept <-
        match item with
        | File f =>
            r <- safe_delete_file (directory ++ [f_name f]) (Some f);;
            ret (option_list (File <$> snd r))
        | Dir n _ _ _ =>
            if current_depth <? max_depth then
              item' <- _clean_directory_recursive
                         (directory ++ [n]) item max_depth (current_depth + 1);;
              remove_if_empty (directory ++ [n]) item'
            else ret [item]
        end;;
      rest' <- for_item directory max_depth current_depth rest;;
      ret (kept ++ rest')
  end.

(** The call [self._clean_directory_recursive(Path(root), max_depth,
    current_depth)] on a path of the disk.  When nothing is at [root] the
    listing raises [FileNotFoundError] inside the same [try]. *)
Definition clean_directory_at (root : string) (max_depth current_depth : Z)
  : M tool unit :=
  t <- get;;
  match disk t !! root with
  | Some dnode =>
      dnode' <- _clean_directory_recursive [root] dnode max_depth current_depth;;
      modify (fun t => mkTool (stats t) (trace t) (<[root := dnode']> (disk t)))
  | None =>
      if current_depth >? max_depth then ret tt
      else
        try_except
          (log (OpListdir [root]);;;
           raise FileNotFoundError)
          is_OSError
          (fun _ => incr_errors_encountered)
  end.

(** [Path(s)]; the empty string is the current directory.  Paths are
    compared as written. *)
Definition Path (s : string) : string :=
  if decide (s = "") then "." else s.

Definition temp_dir_candidates (env : environment) : list string :=
  [ Path (default "" (env_TEMP env));
    Path (default "" (env_TMP env));
    Path "C:/Windows/Temp";
    Path "C:/Windows/Prefetch";
    home env +:+ "/AppData/Local/Temp" ].

(** [d.exists() and d.is_dir()], answered from the kind of the node. *)
Definition exists_and_is_dir (d : gmap string node) (root : string) : bool :=
  match d !! root with
  | Some n => is_dir n
  | None => false
  end.

(** The dictionary [clean_temp_files] returns; [size_freed] is the byte
    count the source then divides by 1024 * 1024. *)
Record temp_cleanup : Type := mkTempCleanup {
  files_deleted : Z;
  size_freed : Z;
  directories_processed : Z
}.

(** [for temp_dir in temp_dirs: self._clean_directory_recursive(temp_dir)] *)
Fixpoint for_temp_dir (temp_dirs : list string) : M tool unit :=
  match temp_dirs with
  | [] => ret tt
  | temp_dir :: rest =>
      clean_directory_at temp_dir 3 0;;;
      for_temp_dir rest
  end.

(** [clean_temp_files]; [set(temp_dirs)] is the set of the candidates, walked
    in the order of its elements. *)
Definition clean_temp_files (env : environment) : M tool temp_cleanup :=
  t0 <- get;;
  let temp_dirs :=
    filter (fun d => Is_true (exists_and_is_dir (disk t0) d))
           (elements (list_to_set (temp_dir_candidates env) : gset string)) in
  let initial_stats := stats t0 in
  for_temp_dir temp_dirs;;;
  t1 <- get;;
  let files_deleted :=
    temp_files_deleted (stats t1) - temp_files_deleted initial_stats in
  let size_freed :=
    temp_size_freed (stats t1) - temp_size_freed initial_stats in
  ret (mkTempCleanup files_deleted size_freed (Z.of_nat (length temp_dirs))).

End Main.

(** ** V1: [BrowserCacheCleaner] ([PC_Cleanup_Tool_V1/browser_cleaner.py]) *)

Module Browser.

(** A running process as [psutil.process_iter(['name'])] shows it; the name
    is [None] when it could not be read. *)
Record process : Type := mkProcess {
  pid : Z;
  proc_name : option string
}.

(** What the cleaner writes to its logger. *)
Inductive log_entry : Type :=
| LogRunning (browser_name : string) (pid : Z)
| LogCouldNotRemove (item : path)
| LogCleaned (cache_path : path) (files_removed : Z) (size_freed : Z)
| LogErrorCleaning (cache_path : path).

(** The cleaner and the machine it runs on. *)
Record cleaner : Type := mkCleaner {
  browsers_cleaned : Z;
  cache_size_freed : Z;
  logged : list log_entry;
  disk : gmap string node;
  processes : list process;
  home : string
}.

Definition log (e : log_entry) : M cleaner unit :=
  modify (fun c => mkCleaner (browsers_cleaned c) (cache_size_freed c)
                             (logged c ++ [e]) (disk c) (processes c) (home c)).

Definition set_disk (d : gmap string node) : M cleaner unit :=
  modify (fun c => mkCleaner (browsers_cleaned c) (cache_size_freed c)
                             (logged c) d (processes c) (home c)).

(** One entry of [self.browser_configs]; the paths are relative to
    [Path.home()]. *)
Record config : Type := mkConfig {
  process_names : list string;
  cache_paths : list string;
  temp_paths : list string
}.

Definition browser_configs : list (string * config) :=
  [ ("Chrome",
     mkConfig ["chrome.exe"; "GoogleUpdate.exe"]
              [ "/AppData/Local/Google/Chrome/User Data/Default/Cache";
                "/AppData/Local/Google/Chrome/User Data/Default/Code Cache";
                "/AppData/Local/Google/Chrome/User Data/Default/GPUCache";
                "/AppData/Local/Google/Chrome/User Data/ShaderCache" ]
              [ "/AppData/Local/Google/Chrome/User Data/Default/Service Worker/CacheStorage" ]);
    ("Edge",
     mkConfig ["msedge.exe"; "MicrosoftEdgeUpdate.exe"]
              [ "/AppData/Local/Microsoft/Edge/User Data/Default/Cache";
                "/AppData/Local/Microsoft/Edge/User Data/Default/Code Cache";
                "/AppData/Local/Microsoft/Edge/User Data/Default/GPUCache" ]
              [ "/AppData/Local/Microsoft/Edge/User Data/Default/Service Worker/CacheStorage" ]);
    ("Firefox", mkConfig ["firefox.exe"] [] []);
    ("Opera",
     mkConfig ["opera.exe"]
              [ "/AppData/Local/Opera Software/Opera Stable/Cache";
                "/AppData/Local/Opera Software/Opera Stable/GPUCache" ]
              []);
    ("Brave",
     mkConfig ["brave.exe"]
              [ "/AppData/Local/BraveSoftware/Brave-Browser/User Data/Default/Cache";
                "/AppData/Local/BraveSoftware/Brave-Browser/User Data/Default/Code Cache";
                "/AppData/Local/BraveSoftware/Brave-Browser/User Data/Default/GPUCache" ]
              []) ].

(** [self.browser_configs[browser_name]] *)
Fixpoint config_of (configs : list (string * config)) (browser_name : string)
  : option config :=
  match configs with
  | [] => None
  | (name, c) :: rest =>
      if decide (name = browser_name) then Some c else config_of rest browser_name
  end.

(** [str.lower()], on ASCII letters. *)
Definition lower_ascii (c : ascii) : ascii :=
  let n := Ascii.nat_of_ascii c in
  if ((65 <=? n) && (n <=? 90))%nat then Ascii.ascii_of_nat (n + 32) else c.

Fixpoint lower (s : string) : string :=
  match s with
  | EmptyString => EmptyString
  | String c s' => String (lower_ascii c) (lower s')
  end.

(** The loop of [is_browser_running] over the processes.  [None.lower()]
    raises [AttributeError], which the loop does not catch. *)
Fixpoint for_proc (browser_name : string) (names : list string)
         (procs : list process) : M cleaner bool :=
  match procs with
  | [] => ret false
  | proc :: rest =>
      match proc_name proc with
      | None => raise AttributeError
      | Some name =>
          if bool_decide (lower name ∈ map lower names) then
            log (LogRunning browser_name (pid proc));;;
            ret true
          else for_proc browser_name names rest
      end
  end.

Definition is_browser_running (browser_name : string) : M cleaner bool :=
  match config_of browser_configs browser_name with
  | None => ret false
  | Some cfg =>
      c <- get;;
      for_proc browser_name (process_names cfg) (processes c)
  end.

(** [get_directory_size]: the sizes of the files [rglob('*')] reaches and
    [stat] can read.  A directory that cannot be listed is passed over, and
    so is a file whose [stat] raises; the source, whose [is_file] raises on
    such a file, stops the sum there.  The two agree where every file can
    be read ([measurable]) and where the file that cannot is the last one
    reached. *)
Fixpoint measured_size (n : node) : Z :=
  match n with
  | File f =>
      match stat_size (Some f) with
      | inr file_size => file_size
      | inl _ => 0
      end
  | Dir _ listable _ children =>
      if listable then
        (fix for_item (items : list node) : Z :=
           match items with
           | [] => 0
           | item :: rest => measured_size item + for_item rest
           end) children
      else 0
  end.

Definition get_directory_size (o : option node) : Z :=
  match o with
  | None => 0
  | Some (File _) => 0
  | Some (Dir name listable removable children) =>
      measured_size (Dir name listable removable children)
  end.

(** [shutil.rmtree(item, ignore_errors=True)]: what is left of [item]. *)
Fixpoint rmtree (n : node) : option node :=
  match n with
  | File f =>
      match os_unlink (Some f) with
      | inr _ => None
      | inl _ => Some n
      end
  | Dir name listable removable children =>
      let children' :=
        if listable then
          (fix for_entry (entries : list node) : list node :=
             match entries with
             | [] => []
             | entry :: rest => option_list (rmtree entry) ++ for_entry rest
             end) children
        else children in
      match os_rmdir (Dir name listable removable children') with
      | inr _ => None
      | inl _ => Some (Dir name listable removable children')
      end
  end.

(** The loop [for item in cache_path.iterdir()] of
    [safe_remove_cache_directory]: the entries left and [files_removed].
    [item.is_file()] is answered from the kind of the entry. *)
Fixpoint for_item (cache_path : path) (items : list node) (files_removed : Z)
  : M cleaner (list node * Z) :=
  match items with
  | [] => ret ([], files_removed)
  | item :: rest =>
      r <- try_except
             (match item with
              | File f =>
                  lift (os_unlink (Some f));;;
                  ret ([], files_removed + 1)
              | Dir _ _ _ _ =>
                  ret (option_list (rmtree item), files_removed + 1)
              end)
             is_OSError
             (fun _ =>
                log (LogCouldNotRemove (cache_path ++ [node_name item]));;;
                ret ([item], files_removed));;
      r' <- for_item cache_path rest (snd r);;
      ret (fst r ++ fst r', snd r')
  end.

(** [safe_remove_cache_directory(cache_path)] returns [(success, size_freed)];
    [cache_path.exists()] is answered by whether something is at the path. *)
Definition safe_remove_cache_directory (cache_path : path)
  : M cleaner (bool * Z) :=
  c <- get;;
  let cache := disk_lookup (disk c) cache_path in
  if negb (bool_decide (is_Some cache)) then ret (false, 0)
  else
    let initial_size := get_directory_size cache in
    try_except
      (items <- lift (os_listdir cache);;
       r <- for_item cache_path items 0;;
       let files_removed := snd r in
       match cache with
       | Some (Dir name listable removable _) =>
           c' <- get;;
           set_disk (disk_put (disk c') cache_path
                              (Some (Dir name listable removable (fst r))))
       | _ => ret tt
       end;;;
       c'' <- get;;
       let final_size := get_directory_size (disk_lookup (disk c'') cache_path) in
       let size_freed := initial_size - final_size in
       log (LogCleaned cache_path files_removed size_freed);;;
       ret (true, size_freed))
      is_Exception
      (fun _ => log (LogErrorCleaning cache_path);;; ret (false, 0)).

(** [get_firefox_profiles]: the [cache2] directories of the profiles. *)
Definition firefox_base (c : cleaner) : string :=
  home c +:+ "/AppData/Local/Mozilla/Firefox/Profiles".

Fixpoint for_profile_dir (base : string) (entries : list node) : list path :=
  match entries with
  | [] => []
  | profile_dir :: rest =>
      if is_dir profile_dir then
        if bool_decide (is_Some (lookup_in profile_dir ["cache2"])) then
          [base; node_name profile_dir; "cache2"] :: for_profile_dir base rest
        else for_profile_dir base rest
      else for_profile_dir base rest
  end.

Definition get_firefox_profiles : M cleaner (list path) :=
  c <- get;;
  let base := disk c !! firefox_base c in
  if bool_decide (is_Some base) then
    entries <- lift (os_listdir base);;
    ret (for_profile_dir (firefox_base c) entries)
  else ret [].

(** The dictionaries [clean_browser_cache] returns: for a browser that is
    not configured, for a browser that is running, and after cleaning.
    [size_freed_mb] is [size_freed / 1024 / 1024]. *)
Inductive clean_result : Type :=
| Unsupported (browser_name : string)
| StillRunning (browser_name : string) (size_freed : Z)
| Cleaned (success : bool) (browser : string) (paths_cleaned : list path)
          (size_freed : Z) (errors : list path).

(** [result['success']], [result.get('size_freed')] *)
Definition success (r : clean_result) : bool :=
  match r with
  | Unsupported _ => false
  | StillRunning _ _ => false
  | Cleaned success _ _ _ _ => success
  end.

Definition size_freed (r : clean_result) : option Z :=
  match r with
  | Unsupported _ => None
  | StillRunning _ size_freed => Some size_freed
  | Cleaned _ _ _ size_freed _ => Some size_freed
  end.

(** The two loops of [clean_browser_cache]; the accumulator holds
    [(total_size_freed, paths_cleaned, errors)].  For Firefox a failure is
    always recorded, for the others only when the path exists. *)
Fixpoint for_cache_path (firefox : bool) (paths : list path)
         (acc : Z * list path * list path) : M cleaner (Z * list path * list path) :=
  match paths with
  | [] => ret acc
  | cache_path :: rest =>
      let '(total_size_freed, paths_cleaned, errors) := acc in
      r <- safe_remove_cache_directory cache_path;;
      let '(ok, freed) := r in
      c <- get;;
      let acc' :=
        if ok then (total_size_freed + freed, paths_cleaned ++ [cache_path], errors)
        else if firefox || bool_decide (is_Some (disk_lookup (disk c) cache_path))
             then (total_size_freed, paths_cleaned, errors ++ [cache_path])
             else acc in
      for_cache_path firefox rest acc'
  end.

Definition clean_browser_cache (browser_name : string) (force : bool)
  : M cleaner clean_result :=
  match config_of browser_configs browser_name with
  | None => ret (Unsupported browser_name)
  | Some cfg =>
      running <- (if negb force then is_browser_running browser_name
                  else ret false);;
      if running then ret (StillRunning browser_name 0)
      else
        c <- get;;
        acc <-
          (if decide (browser_name = "Firefox") then
             firefox_profiles <- get_firefox_profiles;;
             for_cache_path true firefox_profiles (0, [], [])
           else
             for_cache_path false
               (map (fun p => [home c +:+ p]) (cache_paths cfg ++ temp_paths cfg))
               (0, [], []));;
        let '(total_size_freed, paths_cleaned, errors) := acc in
        (if bool_decide (paths_cleaned <> []) then
           modify (fun c => mkCleaner (browsers_cleaned c + 1)
                                      (cache_size_freed c + total_size_freed)
                                      (logged c) (disk c) (processes c) (home c))
         else ret tt);;;
        ret (Cleaned (bool_decide (0 < Z.of_nat (length paths_cleaned)))
                     browser_name paths_cleaned total_size_freed errors)
  end.

End Browser.

(** ** V2: [V2CleanupEngine] ([PC_Cleanup_Tool_V2/v2_core_engine.py]) *)

Module V2.

(** The lines of [details]. *)
Inductive detail : Type :=
| ErrorAccessing (temp_dir : string) (e : exn)
| Processed (files_processed files_deleted : Z)
| SpaceFreed (space_freed : Z).

(** [CleanupResult]; [time_taken] and [success_rate] are floating-point
    figures computed from the clock and from the counters below. *)
Record CleanupResult : Type := mkCleanupResult {
  operation_type : string;
  files_processed : Z;
  files_deleted : Z;
  space_freed : Z;
  errors_encountered : Z;
  details : list detail
}.

(** The local variables of [_cleanup_temp_files], and the disk. *)
Record frame : Type := mkFrame {
  l_files_processed : Z;
  l_files_deleted : Z;
  l_space_freed : Z;
  l_errors : Z;
  l_details : list detail;
  l_disk : gmap string node
}.

Definition incr_files_processed : M frame unit :=
  modify (fun l => mkFrame (l_files_processed l + 1) (l_files_deleted l)
                           (l_space_freed l) (l_errors l) (l_details l) (l_disk l)).

Definition incr_files_deleted : M frame unit :=
  modify (fun l => mkFrame (l_files_processed l) (l_files_deleted l + 1)
                           (l_space_freed l) (l_errors l) (l_details l) (l_disk l)).

Definition add_space_freed (file_size : Z) : M frame unit :=
  modify (fun l => mkFrame (l_files_processed l) (l_files_deleted l)
                           (l_space_freed l + file_size) (l_errors l)
                           (l_details l) (l_disk l)).

Definition incr_errors : M frame unit :=
  modify (fun l => mkFrame (l_files_processed l) (l_files_deleted l)
                           (l_space_freed l) (l_errors l + 1) (l_details l) (l_disk l)).

Definition details_append (d : detail) : M frame unit :=
  modify (fun l => mkFrame (l_files_processed l) (l_files_deleted l)
                           (l_space_freed l) (l_errors l) (l_details l ++ [d])
                           (l_disk l)).

Definition set_disk (d : gmap string node) : M frame unit :=
  modify (fun l => mkFrame (l_files_processed l) (l_files_deleted l)
                           (l_space_freed l) (l_errors l) (l_details l) d).

(** The body of [for file in files]; returns what is left of the file.
    [os.path.exists] is answered by whether a file is there; for a file
    that [stat] cannot read the source answers [False] and counts the file
    as processed only, where the model counts the failed [getsize] as an
    error. *)
Definition for_file (o : option file) : M frame (option file) :=
  incr_files_processed;;;
  try_except
    (if bool_decide (is_Some o) then
       file_size <- lift (stat_size o);;
       lift (os_unlink o);;;
       incr_files_deleted;;;
       add_space_freed file_size;;;
       ret None
     else ret o)
    is_Exception
    (fun _ => incr_errors;;; ret o).

(** The files of one directory, in the order of the listing; the result
    keeps one slot per entry. *)
Fixpoint for_files (items : list node) : M frame (list (list node)) :=
  match items with
  | [] => ret []
  | item :: rest =>
      kept <-
        match item with
        | File f =>
            o <- for_file (Some f);;
            ret (option_list (File <$> o))
        | Dir _ _ _ _ => ret [item]
        end;;
      lefts <- for_files rest;;
      ret (kept :: lefts)
  end.

(** [for root, dirs, files in os.walk(temp_dir)], top-down: the files of a
    directory, then its sub-directories one after the other.  [os.walk]
    passes over what it cannot list. *)
Fixpoint walk (n : node) {struct n} : M frame node :=
  match n with
  | File _ => ret n
  | Dir name listable removable children =>
      if negb listable then ret n
      else
        after_files <- for_files children;;
        children' <-
          (fix for_dirs (items : list node) (lefts : list (list node))
             : M frame (list node) :=
             match items, lefts with
             | item :: rest, kept :: lefts' =>
                 here <-
                   match item with
                   | Dir _ _ _ _ => item' <- walk item;; ret [item']
                   | File _ => ret kept
                   end;;
                 rest' <- for_dirs rest lefts';;
                 ret (here ++ rest')
             | _, _ => ret []
             end) children after_files;;
        ret (Dir name listable removable children')
  end.

(** [os.path.exists(temp_dir)]; the empty string never exists. *)
Definition os_path_exists (d : gmap string node) (temp_dir : string) : bool :=
  if decide (temp_dir = "") then false else bool_decide (is_Some (d !! temp_dir)).

Definition temp_dirs (env : environment) : list string :=
  [ default "" (env_TEMP env);
    default "" (env_TMP env);
    "C:\Windows\Temp";
    home env +:+ "\AppData\Local\Temp" ].

Fixpoint for_temp_dir (dirs : list string) : M frame unit :=
  match dirs with
  | [] => ret tt
  | temp_dir :: rest =>
      l <- get;;
      (if os_path_exists (l_disk l) temp_dir then
         try_except
           (match l_disk l !! temp_dir with
            | Some n =>
                n' <- walk n;;
                l' <- get;;
                set_disk (<[temp_dir := n']> (l_disk l'))
            | None => ret tt
            end)
           is_Exception
           (fun e => incr_errors;;; details_append (ErrorAccessing temp_dir e))
       else ret tt);;;
      for_temp_dir rest
  end.

(** [_cleanup_temp_files], as a computation on the disk. *)
Definition _cleanup_temp_files (env : environment)
  : M (gmap string node) CleanupResult :=
  fun d =>
    let body : M frame CleanupResult :=
      for_temp_dir (temp_dirs env);;;
      l <- get;;
      details_append (Processed (l_files_processed l) (l_files_deleted l));;;
      details_append (SpaceFreed (l_space_freed l));;;
      l' <- get;;
      ret (mkCleanupResult "Temporary Files" (l_files_processed l')
             (l_files_deleted l') (l_space_freed l') (l_errors l') (l_details l'))
    in
    let '(r, l) := body (mkFrame 0 0 0 0 [] d) in
    (r, l_disk l).

(** *** The one-click run and its progress notifications *)

Section one_click.
(** [SystemState] snapshots are taken from the running system: [system n]
    is what the [n]-th call of [capture_system_state] meets, a snapshot or
    the exception raised while taking it. *)
Variable SystemState : Type.
Variable system : nat -> exn + SystemState.

(** The results of the five operations after the temp sweep.  Each of them
    catches every exception and none of them reports progress. *)
Variables browser_result registry_result startup_result : CleanupResult.
Variables system_result memory_result : CleanupResult.

(** The engine: whether the two callbacks are set, the calls they have
    received, and the attributes the run assigns. *)
Record engine : Type := mkEngine {
  progress_callback : bool;
  status_callback : bool;
  progress_calls : list (Z * string);
  status_calls : list string;
  captures : nat;
  before_state : option SystemState;
  after_state : option SystemState;
  cleanup_results : list CleanupResult;
  e_disk : gmap string node
}.

Definition call_progress (percentage : Z) (message : string) : M engine unit :=
  modify (fun e =>
    mkEngine (progress_callback e) (status_callback e)
             (progress_calls e ++ [(percentage, message)]) (status_calls e)
             (captures e) (before_state e) (after_state e)
             (cleanup_results e) (e_disk e)).

Definition call_status (message : string) : M engine unit :=
  modify (fun e =>
    mkEngine (progress_callback e) (status_callback e)
             (progress_calls e) (status_calls e ++ [message])
             (captures e) (before_state e) (after_state e)
             (cleanup_results e) (e_disk e)).

(** [update_progress(percentage, message)] *)
Definition update_progress (percentage : Z) (message : string) : M engine unit :=
  e <- get;;
  (if progress_callback e then call_progress percentage message else ret tt);;;
  (if status_callback e then call_status message else ret tt).

(** [capture_system_state]: reports 0 percent, then takes the snapshot;
    an exception is logged and raised again. *)
Definition capture_system_state : M engine SystemState :=
  update_progress 0 "Analyzing system state...";;;
  e <- get;;
  modify (fun e =>
    mkEngine (progress_callback e) (status_callback e)
             (progress_calls e) (status_calls e)
             (Datatypes.S (captures e)) (before_state e) (after_state e)
             (cleanup_results e) (e_disk e));;;
  try_except (lift (system (captures e))) is_Exception (fun x => raise x).

Definition set_before_state (st : SystemState) : M engine unit :=
  modify (fun e =>
    mkEngine (progress_callback e) (status_callback e)
             (progress_calls e) (status_calls e)
             (captures e) (Some st) (after_state e)
             (cleanup_results e) (e_disk e)).

Definition set_after_state (st : SystemState) : M engine unit :=
  modify (fun e =>
    mkEngine (progress_callback e) (status_callback e)
             (progress_calls e) (status_calls e)
             (captures e) (before_state e) (Some st)
             (cleanup_results e) (e_disk e)).

Definition set_cleanup_results (f : list CleanupResult -> list CleanupResult)
  : M engine unit :=
  modify (fun e =>
    mkEngine (progress_callback e) (status_callback e)
             (progress_calls e) (status_calls e)
             (captures e) (before_state e) (after_state e)
             (f (cleanup_results e)) (e_disk e)).

(** A computation on the disk, run on the disk of the engine. *)
Definition on_disk {A} (m : M (gmap string node) A) : M engine A :=
  fun e =>
    let '(r, d) := m (e_disk e) in
    (r, mkEngine (progress_callback e) (status_callback e)
                 (progress_calls e) (status_calls e)
                 (captures e) (before_state e) (after_state e)
                 (cleanup_results e) d).

(** The dictionary [perform_one_click_cleanup] returns; the report is
    computed from the other entries. *)
Inductive one_click : Type :=
| Success (before after : SystemState) (results : list CleanupResult)
| Failure (error : exn) (before : option SystemState)
          (results : list CleanupResult).

Definition perform_one_click_cleanup (env : environment) : M engine one_click :=
  try_except
    (update_progress 5 "Capturing system state before cleanup...";;;
     before <- capture_system_state;;
     set_before_state before;;;
     set_cleanup_results (fun _ => []);;;
     let total_operations := 6 in
     let current_operation := 0 in
     (* 1. Temporary Files Cleanup *)
     let current_operation := current_operation + 1 in
     update_progress (15 + (current_operation * 10)) "Cleaning temporary files...";;;
     temp_result <- on_disk (_cleanup_temp_files env);;
     set_cleanup_results (fun l => l ++ [temp_result]);;;
     (* 2. Browser Cache Cleanup *)
     let current_operation := current_operation + 1 in
     update_progress (15 + (current_operation * 10)) "Cleaning browser caches...";;;
     set_cleanup_results (fun l => l ++ [browser_result]);;;
     (* 3. Registry Cleanup *)
     let current_operation := current_operation + 1 in
     update_progress (15 + (current_operation * 10)) "Optimizing registry...";;;
     set_cleanup_results (fun l => l ++ [registry_result]);;;
     (* 4. Startup Optimization *)
     let current_operation := current_operation + 1 in
     update_progress (15 + (current_operation * 10)) "Optimizing startup programs...";;;
     set_cleanup_results (fun l => l ++ [startup_result]);;;
     (* 5. System File Cleanup *)
     let current_operation := current_operation + 1 in
     update_progress (15 + (current_operation * 10)) "Cleaning system files...";;;
     set_cleanup_results (fun l => l ++ [system_result]);;;
     (* 6. Memory Optimization *)
     let current_operation := current_operation + 1 in
     update_progress (15 + (current_operation * 10)) "Optimizing memory...";;;
     set_cleanup_results (fun l => l ++ [memory_result]);;;
     update_progress 85 "Capturing system state after cleanup...";;;
     after <- capture_system_state;;
     set_after_state after;;;
     update_progress 95 "Generating cleanup report...";;;
     update_progress 100 "Cleanup completed successfully!";;;
     e <- get;;
     ret (Success before after (cleanup_results e)))
    is_Exception
    (fun x =>
       e <- get;;
       ret (Failure x (before_state e) (cleanup_results e))).

(** The percentages the progress callback has received, in order. *)
Definition percentages (e : engine) : list Z := map fst (progress_calls e).
End one_click.

Arguments mkEngine {SystemState}.
Arguments progress_callback {SystemState}.
Arguments status_callback {SystemState}.
Arguments progress_calls {SystemState}.
Arguments status_calls {SystemState}.
Arguments captures {SystemState}.
Arguments before_state {SystemState}.
Arguments after_state {SystemState}.
Arguments cleanup_results {SystemState}.
Arguments e_disk {SystemState}.
Arguments call_progress {SystemState}.
Arguments call_status {SystemState}.
Arguments update_progress {SystemState}.
Arguments capture_system_state {SystemState}.
Arguments set_before_state {SystemState}.
Arguments set_after_state {SystemState}.
Arguments set_cleanup_results {SystemState}.
Arguments on_disk {SystemState A}.
Arguments Success {SystemState}.
Arguments Failure {SystemState}.
Arguments perform_one_click_cleanup {SystemState}.
Arguments percentages {SystemState}.

End V2.

(** ** The whole browser cleanup ([browser_cleaner.py], [main.py]) *)

Module BrowserAll.
Import Browser.

(** The summary [clean_all_browsers] returns; [total_size_freed_mb] is
    [total_size_freed / 1024 / 1024].  [browser_results] holds the results
    in the order of [self.browser_configs], whose keys are distinct. *)
Record summary : Type := mkSummary {
  browsers_processed : Z;
  total_size_freed : Z;
  browser_results : list (string * clean_result)
}.

(** The loop [for browser_name in self.browser_configs.keys()]. *)
Fixpoint for_browser_name (force : bool) (names : list string) (acc : summary)
  : M cleaner summary :=
  match names with
  | [] => ret acc
  | browser_name :: rest =>
      result <- clean_browser_cache browser_name force;;
      let results := browser_results acc ++ [(browser_name, result)] in
      let acc' :=
        match result with
        | Cleaned true _ _ size_freed _ =>
            mkSummary (browsers_processed acc + 1)
                      (total_size_freed acc + size_freed) results
        | _ => mkSummary (browsers_processed acc) (total_size_freed acc) results
        end in
      for_browser_name force rest acc'
  end.

Definition clean_all_browsers (force : bool) : M cleaner summary :=
  for_browser_name force (map fst browser_configs) (mkSummary 0 0 []).

(** One entry of the dictionary [get_browser_info] returns; [cache_size_mb]
    is [cache_size / 1024 / 1024]. *)
Record info : Type := mkInfo {
  installed : bool;
  running : bool;
  cache_size : Z;
  info_cache_paths : list path
}.

(** [sum(self.get_directory_size(p) for p in paths)] *)
Definition sum_sizes (d : gmap string node) (paths : list path) : Z :=
  fold_right (fun p acc => get_directory_size (disk_lookup d p) + acc) 0 paths.

(** The loop [for browser_name, config in self.browser_configs.items()]. *)
Fixpoint for_config (configs : list (string * config))
         (browser_info : list (string * info))
  : M cleaner (list (string * info)) :=
  match configs with
  | [] => ret browser_info
  | (browser_name, cfg) :: rest =>
      c <- get;;
      found <-
        (if decide (browser_name = "Firefox") then get_firefox_profiles
         else
           ret (filter (fun p => is_Some (disk_lookup (disk c) p))
                       (map (fun p => [home c +:+ p]) (cache_paths cfg))));;
      is_running <- is_browser_running browser_name;;
      let info :=
        match found with
        | [] => mkInfo false is_running 0 []
        | _ :: _ => mkInfo true is_running (sum_sizes (disk c) found) found
        end in
      for_config rest (browser_info ++ [(browser_name, info)])
  end.

Definition get_browser_info : M cleaner (list (string * info)) :=
  for_config browser_configs [].

End BrowserAll.

Module MainBrowser.
Import Browser BrowserAll.





End MainBrowser.

(** ** The analysis of the temp files ([v2_core_engine.py]) *)

Module V2Analysis.
Import V2.

(** The locals [count] and [size] of [_analyze_temp_files]. *)
Record tally : Type := mkTally {
  count : Z;
  size : Z
}.

(** The body of [for file in files]; the bare [except] passes over any
    failure. *)
Definition for_file (o : option file) : M tally unit :=
  try_except
    (if bool_decide (is_Some o) then
       file_size <- lift (stat_size o);;
       modify (fun a => mkTally (count a) (size a + file_size));;;
       modify (fun a => mkTally (count a + 1) (size a))
     else ret tt)
    is_Exception
    (fun _ => ret tt).

Fixpoint for_files (items : list node) : M tally unit :=
  match items with
  | [] => ret tt
  | item :: rest =>
      match item with
      | File f => for_file (Some f)
      | Dir _ _ _ _ => ret tt
      end;;;
      for_files rest
  end.

(** [for root, dirs, files in os.walk(temp_dir)], reading only. *)
Fixpoint walk (n : node) {struct n} : M tally unit :=
  match n with
  | File _ => ret tt
  | Dir _ listable _ children =>
      if negb listable then ret tt
      else
        for_files children;;;
        (fix for_dirs (items : list node) : M tally unit :=
           match items with
           | [] => ret tt
           | item :: rest =>
               match item with
               | Dir _ _ _ _ => walk item
               | File _ => ret tt
               end;;;
               for_dirs rest
           end) children
  end.

Fixpoint for_temp_dir (d : gmap string node) (dirs : list string)
  : M tally unit :=
  match dirs with
  | [] => ret tt
  | temp_dir :: rest =>
      (if os_path_exists d temp_dir then
         try_except
           (match d !! temp_dir with
            | Some n => walk n
            | None => ret tt
            end)
           is_Exception
           (fun _ => ret tt)
       else ret tt);;;
      for_temp_dir d rest
  end.

(** [_analyze_temp_files] returns [(count, size)]. *)
Definition _analyze_temp_files (env : environment) (d : gmap string node)
  : Z * Z :=
  let '(_, a) := for_temp_dir d (temp_dirs env) (mkTally 0 0) in
  (count a, size a).

End V2Analysis.

(** * Vocabulary of the properties *)

(** [file_at f n rel]: the file [f] is in the tree [n], at the relative
    path [rel]. *)
Inductive file_at (f : file) : node -> list string -> Prop :=
| file_at_here : file_at f (File f) []
| file_at_below name listable removable children child rel :
    child ∈ children -> file_at f child rel ->
    file_at f (Dir name listable removable children) (node_name child :: rel).

(** The entries of every directory have distinct names. *)
Fixpoint distinct_names (n : node) : bool :=
  match n with
  | File _ => true
  | Dir _ _ _ children =>
      bool_decide (NoDup (map node_name children)) &&
      (fix all (l : list node) : bool :=
         match l with
         | [] => true
         | x :: l' => distinct_names x && all l'
         end) children
  end.

(** [q] is a path strictly below [p]. *)
Definition strictly_below (p q : path) : Prop :=
  exists name rest, q = p ++ name :: rest.

(** No call made after an [rmdir] of [p] reaches below [p]. *)
Fixpoint post_order (l : list op) : Prop :=
  match l with
  | [] => True
  | o :: l' =>
      match o with
      | OpRmdir p => Forall (fun o' => ~ strictly_below p (op_path o')) l'
      | _ => True
      end /\ post_order l'
  end.

(** [o] is a call on [p] or below. *)
Definition within (p : path) (o : op) : Prop := exists k, op_path o = p ++ k.

(** [o] is an [rmdir]. *)
Definition is_rmdir (o : op) : bool :=
  match o with OpRmdir _ => true | _ => false end.

(** [o] is a call on, or below, the entry of [directory] called by one of
    [names]. *)
Definition reaches (directory : path) (names : list string) (o : op) : Prop :=
  exists name k, name ∈ names /\ op_path o = (directory ++ [name]) ++ k.

(** A call on [directory] or on one of its entries. *)
Definition shallow (directory : path) (o : op) : Prop :=
  op_path o = directory \/ exists entry, op_path o = directory ++ [entry].

(** What stays in a directory swept at the depth limit: the
    sub-directories, and the files that are locked or whose deletion fails. *)
Definition stays_at_limit (n : node) : bool :=
  match n with
  | Dir _ _ _ _ => true
  | File f => f_locked f || negb (f_stat_ok f && f_unlink_ok f)
  end.

(** Every file below [n] can be read by [stat] and every directory listed. *)
Fixpoint measurable (n : node) : bool :=
  match n with
  | File f => f_stat_ok f
  | Dir _ listable _ children =>
      listable &&
      (fix all (l : list node) : bool :=
         match l with
         | [] => true
         | x :: l' => measurable x && all l'
         end) children
  end.

(** The size of every file below [n] can be read: on such a tree no path
    test of the source ([exists], [is_file], [is_dir]) raises. *)
Fixpoint readable (n : node) : bool :=
  match n with
  | File f => f_stat_ok f
  | Dir _ _ _ children =>
      (fix all (l : list node) : bool :=
         match l with
         | [] => true
         | x :: l' => readable x && all l'
         end) children
  end.

(** The same for the entries of one listing that are files. *)
Definition entries_readable (items : list node) : bool :=
  forallb (fun x => match x with
                    | File f => f_stat_ok f
                    | Dir _ _ _ _ => true
                    end) items.

(** A file the sweep deletes: it is not held, its size can be read and its
    removal succeeds. *)
Definition deletable (f : file) : bool :=
  negb (f_locked f) && (f_stat_ok f && f_unlink_ok f).

(** [o] is one of the calls made on a file: the existence test, the rename
    probe, [stat] or [unlink]. *)
Definition is_file_op (o : op) : bool :=
  match o with
  | OpExists _ | OpRename _ | OpStat _ | OpUnlink _ => true
  | OpListdir _ | OpRmdir _ => false
  end.

(** [o] is a call on a file among the entries [items] of [directory]. *)
Definition on_file_entry (directory : path) (items : list node) (o : op)
  : Prop :=
  is_file_op o = true /\
  exists f, File f ∈ items /\ op_path o = directory ++ [f_name f].

Module MainSpec.
Import Main.

(** The running totals after one more error, and after one more deleted
    file of [file_size] bytes. *)
Definition bump_errors (c : cleanup_stats) : cleanup_stats :=
  mkStats (temp_files_deleted c) (temp_size_freed c)
          (browser_caches_cleared c) (errors_encountered c + 1).

Definition bump_deleted (file_size : Z) (c : cleanup_stats) : cleanup_stats :=
  mkStats (temp_files_deleted c + 1) (temp_size_freed c + file_size)
          (browser_caches_cleared c) (errors_encountered c).

(** The tool after one more system call. *)
Definition logged (t : tool) (o : op) : tool :=
  mkTool (stats t) (trace t ++ [o]) (disk t).

(** One run of the sweep, from [t] to [t']: the disk map and the browser
    counter are not touched, the trace grows by [new], errors only grow and
    the two totals grow by [dn] files and [ds] bytes. *)
Record run (t t' : tool) (new : list op) (dn ds : Z) : Prop := mkRun {
  run_disk : disk t' = disk t;
  run_trace : trace t' = trace t ++ new;
  run_deleted :
    temp_files_deleted (stats t') = temp_files_deleted (stats t) + dn;
  run_freed : temp_size_freed (stats t') = temp_size_freed (stats t) + ds;
  run_browser :
    browser_caches_cleared (stats t') = browser_caches_cleared (stats t);
  run_errors : errors_encountered (stats t) <= errors_encountered (stats t')
}.

(** The sweep of a node always returns, and the totals grow by exactly what
    has gone from the tree. *)
Definition clean_returns (n : node) : Prop :=
  forall directory max_depth current_depth t,
  exists n' t' new,
    _clean_directory_recursive directory n max_depth current_depth t
      = (Returned n', t') /\
    run t t' new (count_files n - count_files n') (total_size n - total_size n').

(** The same for the loop over the entries of a directory. *)
Definition for_item_returns (items : list node) : Prop :=
  forall directory max_depth current_depth t,
  exists kept t' new,
    for_item directory max_depth current_depth items t = (Returned kept, t') /\
    run t t' new (count_files_list items - count_files_list kept)
        (total_size_list items - total_size_list kept).

(** The sweep keeps the name of the node and every locked file below it. *)
Definition keeps_locked (n : node) : Prop :=
  forall directory md cd t n' t',
    _clean_directory_recursive directory n md cd t = (Returned n', t') ->
    node_name n' = node_name n /\
    forall f rel, f_locked f = true -> file_at f n rel -> file_at f n' rel.

(** The calls of a sweep stay on or below its directory and are in
    post-order. *)
Definition tidy (n : node) : Prop :=
  forall directory md cd t n' t',
    distinct_names n = true ->
    _clean_directory_recursive directory n md cd t = (Returned n', t') ->
    exists new,
      trace t' = trace t ++ new /\
      Forall (within directory) new /\ post_order new.

End MainSpec.

Module BrowserSpec.
Import Browser.

(** Two cleaner states that differ in the log and the disk only. *)
Definition same_counters (c c' : cleaner) : Prop :=
  browsers_cleaned c' = browsers_cleaned c /\
  cache_size_freed c' = cache_size_freed c /\
  processes c' = processes c /\
  home c' = home c.

End BrowserSpec.

Module V2Spec.
Import V2.

(** From [l] to [l']: the disk map and the details are as before, and the
    deleted files are among the files processed on the way. *)
Record advance (l l' : frame) : Prop := mkAdvance {
  adv_disk : l_disk l' = l_disk l;
  adv_details : l_details l' = l_details l;
  adv_deleted : 0 <= l_files_deleted l' - l_files_deleted l;
  adv_processed :
    l_files_deleted l' - l_files_deleted l
    <= l_files_processed l' - l_files_processed l
}.

(** Walking a node always returns. *)
Definition walk_returns (n : node) : Prop :=
  forall l, exists n' l', walk n l = (Returned n', l') /\ advance l l'.

(** From [l] to [l'] over the whole loop on the temp directories: the
    deleted files stay among the processed ones. *)
Definition counted (l l' : frame) : Prop :=
  0 <= l_files_deleted l' - l_files_deleted l
  <= l_files_processed l' - l_files_processed l.

(** Whatever [m] does, the percentages delivered before it stay a prefix of
    the percentages delivered after it, and the callback stays set. *)
Definition grows {SystemState A : Type} (m : M (engine SystemState) A) : Prop :=
  forall e,
    percentages e `prefix_of` percentages (snd (m e)) /\
    progress_callback (snd (m e)) = progress_callback e.

End V2Spec.

(** ** Further vocabulary *)

(** The files, and the bytes, of all the directories of a disk. *)
Definition disk_sum (f : node -> Z) (d : gmap string node) : Z :=
  map_fold (fun _ n acc => f n + acc) 0 d.

(** The directories of a tree, without its files. *)
Fixpoint skeleton (n : node) : list node :=
  match n with
  | File _ => []
  | Dir name listable removable children =>
      [Dir name listable removable
           ((fix for_child (l : list node) : list node :=
               match l with
               | [] => []
               | x :: l' => skeleton x ++ for_child l'
               end) children)]
  end.

(** What the V2 walk leaves of a tree: the files it could measure and remove
    are gone from every directory it could list. *)
Fixpoint left_by_walk (n : node) : node :=
  match n with
  | File _ => n
  | Dir name listable removable children =>
      if listable then
        Dir name listable removable
          ((fix for_child (l : list node) : list node :=
              match l with
              | [] => []
              | x :: l' =>
                  match x with
                  | File f => if f_stat_ok f && f_unlink_ok f then [] else [x]
                  | Dir _ _ _ _ => [left_by_walk x]
                  end ++ for_child l'
              end) children)
      else n
  end.

Definition keep_entry (x : node) : list node :=
  match x with
  | File f => if f_stat_ok f && f_unlink_ok f then [] else [x]
  | Dir _ _ _ _ => [left_by_walk x]
  end.

Module SweepSpec.
Import Main MainSpec.

(** Every call of [new] is on [directory] or below it, at most [depth]
    components down. *)
Definition no_deeper (directory : path) (depth : nat) (new : list op) : Prop :=
  Forall (fun o => exists k, op_path o = directory ++ k /\
                             (length k <= depth)%nat) new.

(** The sweep of [n] makes no call deeper than the depth limit allows. *)
Definition bounded (n : node) : Prop :=
  forall directory md cd t n' t',
    _clean_directory_recursive directory n md cd t = (Returned n', t') ->
    exists new,
      trace t' = trace t ++ new /\
      no_deeper directory (Z.to_nat (md - cd + 1)) new.

(** From [t] to [t'] nothing more has been deleted. *)
Definition quiet (t t' : tool) : Prop :=
  temp_files_deleted (stats t') = temp_files_deleted (stats t) /\
  temp_size_freed (stats t') = temp_size_freed (stats t).

(** A second sweep over what the first one left deletes nothing more. *)
Definition settles (n : node) : Prop :=
  forall directory md cd t n' t',
    _clean_directory_recursive directory n md cd t = (Returned n', t') ->
    forall t2, exists t3,
      _clean_directory_recursive directory n' md cd t2 = (Returned n', t3) /\
      quiet t2 t3.

(** From [t] to [t']: what the totals gained is what the disk lost. *)
Definition balanced (t t' : tool) : Prop :=
  temp_files_deleted (stats t') - temp_files_deleted (stats t)
    = disk_sum count_files (disk t) - disk_sum count_files (disk t') /\
  temp_size_freed (stats t') - temp_size_freed (stats t)
    = disk_sum total_size (disk t) - disk_sum total_size (disk t') /\
  browser_caches_cleared (stats t') = browser_caches_cleared (stats t) /\
  dom (disk t') = dom (disk t).

End SweepSpec.

Module V2WalkSpec.
Import V2 V2Spec.

(** From [l] to [l'], [dn] files and [ds] bytes have been deleted; every
    file processed on the way was deleted or counted as an error. *)
Record stepped (l l' : frame) (dn ds : Z) : Prop := mkStepped {
  st_disk : l_disk l' = l_disk l;
  st_details : l_details l' = l_details l;
  st_deleted : l_files_deleted l' = l_files_deleted l + dn;
  st_freed : l_space_freed l' = l_space_freed l + ds;
  st_errors : l_errors l <= l_errors l';
  st_processed :
    l_files_processed l' - l_files_processed l
    = dn + (l_errors l' - l_errors l)
}.

(** What the first pass leaves in the slot of an entry. *)
Definition slot_of (item : node) (kept : list node) : Prop :=
  match item with
  | File f => kept = if f_stat_ok f && f_unlink_ok f then [] else [File f]
  | Dir _ _ _ _ => kept = [item]
  end.

(** The walk of [n] always returns, keeps the directories and counts what
    has gone. *)
Definition walk_accounts (n : node) : Prop :=
  forall l, exists n' l',
    walk n l = (Returned n', l') /\
    n' = left_by_walk n /\
    skeleton n' = skeleton n /\
    stepped l l' (count_files n - count_files n') (total_size n - total_size n').

(** From [l] to [l'] over the loop on [dirs]: what the counters gained is
    what the disk lost, every processed file was deleted or counted as an
    error, no directory has gone and nothing outside [dirs] has changed. *)
Record swept (dirs : list string) (l l' : frame) : Prop := mkSwept {
  sw_deleted :
    l_files_deleted l' - l_files_deleted l
    = disk_sum count_files (l_disk l) - disk_sum count_files (l_disk l');
  sw_freed :
    l_space_freed l' - l_space_freed l
    = disk_sum total_size (l_disk l) - disk_sum total_size (l_disk l');
  sw_processed :
    l_files_processed l' - l_files_processed l
    = (l_files_deleted l' - l_files_deleted l) + (l_errors l' - l_errors l);
  sw_errors : l_errors l <= l_errors l';
  sw_details : l_details l' = l_details l;
  sw_skeleton :
    forall k, (skeleton <$> l_disk l' !! k) = (skeleton <$> l_disk l !! k);
  sw_outside : forall k, k ∉ dirs -> l_disk l' !! k = l_disk l !! k
}.

End V2WalkSpec.

Module OneClickSpec.
Import V2.

(** The percentages of a whole run, by the outcome of the two snapshots. *)
Definition run_percentages {SystemState : Type} (first second : exn + SystemState)
  : list Z :=
  match first with
  | inl _ => [5; 0]
  | inr _ =>
      match second with
      | inl _ => [5; 0; 25; 35; 45; 55; 65; 75; 85; 0]
      | inr _ => [5; 0; 25; 35; 45; 55; 65; 75; 85; 0; 95; 100]
      end
  end.

(** The dictionary returned, by the outcome of the two snapshots. *)
Definition run_result {SystemState : Type} (first second : exn + SystemState)
           (stale_before : option SystemState)
           (stale_results results : list CleanupResult) : one_click SystemState :=
  match first with
  | inl x => Failure x stale_before stale_results
  | inr before =>
      match second with
      | inl x => Failure x (Some before) results
      | inr after => Success before after results
      end
  end.

End OneClickSpec.

(** ** Vocabulary of the browser properties *)

(** No file of the tree has a negative size. *)
Fixpoint sizes_nonneg (n : node) : bool :=
  match n with
  | File f => 0 <=? f_size f
  | Dir _ _ _ children => forallb sizes_nonneg children
  end.

Module BrowserAllSpec.
Import Browser BrowserSpec BrowserAll.

(** What the removal loop of [safe_remove_cache_directory] leaves of an
    entry of the cache directory. *)
Definition remains (item : node) : list node :=
  match item with
  | File f => if f_unlink_ok f then [] else [item]
  | Dir _ _ _ _ => option_list (rmtree item)
  end.

(** Where the caches of a browser lie, below the home directory, and the
    keys of the disk they are found under. *)
Definition own_paths (browser_name : string) : list string :=
  if decide (browser_name = "Firefox") then
    ["/AppData/Local/Mozilla/Firefox/Profiles"]
  else
    match config_of browser_configs browser_name with
    | Some cfg => cache_paths cfg ++ temp_paths cfg
    | None => []
    end.

Definition own_keys (home : string) (browser_name : string) : list string :=
  map (fun p => home +:+ p) (own_paths browser_name).

(** With no negative size, what [rmtree] leaves of a tree measures no more
    than the tree did. *)
Definition shrinks (n : node) : Prop :=
  sizes_nonneg n = true ->
  0 <= measured_size n /\
  match rmtree n with
  | Some n' => sizes_nonneg n' = true /\ measured_size n' <= measured_size n
  | None => True
  end.

(** A process whose name, in any case, is one of [names]. *)
Definition matches (names : list string) (proc : process) : Prop :=
  exists name, proc_name proc = Some name /\ lower name ∈ map lower names.

(** A configured browser one of whose processes is in the process table. *)
Definition found_running (browser_name : string) (procs : list process) : Prop :=
  exists cfg, config_of browser_configs browser_name = Some cfg /\
              Exists (matches (process_names cfg)) procs.

End BrowserAllSpec.

(** ** Vocabulary of the analysis *)

(** The files below a node that can be reached through directories that
    can be listed and whose size can be read. *)
Fixpoint measured_count (n : node) : Z :=
  match n with
  | File f => if f_stat_ok f then 1 else 0
  | Dir _ listable _ children =>
      if listable then
        (fix for_item (items : list node) : Z :=
           match items with
           | [] => 0
           | item :: rest => measured_count item + for_item rest
           end) children
      else 0
  end.

Module V2AnalysisSpec.
Import V2 V2Analysis.

(** What a walk started on [n] counts, and what it adds up; a walk started
    on a file sees nothing. *)
Definition seen_count (n : node) : Z :=
  match n with
  | File _ => 0
  | Dir _ _ _ _ => measured_count n
  end.

Definition seen_size (n : node) : Z :=
  match n with
  | File _ => 0
  | Dir _ _ _ _ => Browser.measured_size n
  end.

Definition seen_at (f : node -> Z) (d : gmap string node) (k : string) : Z :=
  if os_path_exists d k then
    match d !! k with
    | Some n => f n
    | None => 0
    end
  else 0.

(** The sum over the roots, each as often as it is named. *)
Definition announced (f : node -> Z) (d : gmap string node)
           (dirs : list string) : Z :=
  fold_right (fun k acc => seen_at f d k + acc) 0 dirs.

(** The analysis of [n] adds what it sees to the tally. *)
Definition tallies (n : node) : Prop :=
  forall a,
    walk n a
    = (Returned tt, mkTally (count a + seen_count n) (size a + seen_size n)).

(** What [left_by_walk] removes could be seen, and with no negative size
    what it leaves counts and measures no more than the tree did. *)
Definition walked_off (n : node) : Prop :=
  measured_count n - measured_count (left_by_walk n)
  = count_files n - count_files (left_by_walk n) /\
  Browser.measured_size n - Browser.measured_size (left_by_walk n)
  = total_size n - total_size (left_by_walk n) /\
  0 <= measured_count (left_by_walk n) <= measured_count n /\
  (sizes_nonneg n = true ->
   sizes_nonneg (left_by_walk n) = true /\
   0 <= Browser.measured_size (left_by_walk n) <= Browser.measured_size n).

(** From [l] to [l'] over the loop on [dirs] of the cleanup: no more has
    been deleted than the analysis of the disk of [l] announces, and the
    analysis of the disk of [l'] sees no more than before. *)
Record covered (dirs : list string) (l l' : frame) : Prop := mkCovered {
  co_deleted :
    l_files_deleted l' - l_files_deleted l
    <= announced seen_count (l_disk l) dirs;
  co_freed :
    l_space_freed l' - l_space_freed l
    <= announced seen_size (l_disk l) dirs;
  co_nonneg : map_Forall (fun _ n => sizes_nonneg n = true) (l_disk l');
  co_count : forall k,
    0 <= seen_at seen_count (l_disk l') k <= seen_at seen_count (l_disk l) k;
  co_size : forall k,
    0 <= seen_at seen_size (l_disk l') k <= seen_at seen_size (l_disk l) k
}.

End V2AnalysisSpec.

(** * Properties *)

(** ** Running the monad *)

Section run.
Context {S A B : Type}.

Lemma bind_Returned (m : M S A) (k : A -> M S B) s a s' :
  m s = (Returned a, s') -> bind m k s = k a s'.
Proof. intros H. unfold bind. rewrite H. reflexivity. Qed.

Lemma bind_Raised (m : M S A) (k : A -> M S B) s e s' :
  m s = (Raised e, s') -> bind m k s = (Raised e, s').
Proof. intros H. unfold bind. rewrite H. reflexivity. Qed.

Lemma try_except_Returned (m : M S A) classes handler s a s' :
  m s = (Returned a, s') -> try_except m classes handler s = (Returned a, s').
Proof. intros H. unfold try_except. rewrite H. reflexivity. Qed.

Lemma try_except_Raised (m : M S A) classes handler s e s' :
  m s = (Raised e, s') -> classes e = true ->
  try_except m classes handler s = handler e s'.
Proof. intros H Hc. unfold try_except. rewrite H, Hc. reflexivity. Qed.

Lemma bind_Returned_inv (m : M S A) (k : A -> M S B) s b s' :
  bind m k s = (Returned b, s') ->
  exists a s1, m s = (Returned a, s1) /\ k a s1 = (Returned b, s').
Proof.
  unfold bind. destruct (m s) as [[a|e] s1]; [eauto|discriminate].
Qed.
End run.

(** ** Sizes and counts of listings *)

Lemma count_files_Dir name listable removable children :
  count_files (Dir name listable removable children) = count_files_list children.
Proof.
  cbn [count_files]. induction children as [|x l IH]; [reflexivity|].
  unfold count_files_list in *. cbn [fold_right]. rewrite <- IH. reflexivity.
Qed.

Lemma total_size_Dir name listable removable children :
  total_size (Dir name listable removable children) = total_size_list children.
Proof.
  cbn [total_size]. induction children as [|x l IH]; [reflexivity|].
  unfold total_size_list in *. cbn [fold_right]. rewrite <- IH. reflexivity.
Qed.

Lemma count_files_list_app l1 l2 :
  count_files_list (l1 ++ l2) = count_files_list l1 + count_files_list l2.
Proof.
  induction l1 as [|x l IH]; [reflexivity|].
  unfold count_files_list in *. cbn [app fold_right]. lia.
Qed.

Lemma total_size_list_app l1 l2 :
  total_size_list (l1 ++ l2) = total_size_list l1 + total_size_list l2.
Proof.
  induction l1 as [|x l IH]; [reflexivity|].
  unfold total_size_list in *. cbn [app fold_right]. lia.
Qed.

Module MainFacts.
Import Main MainSpec.

(** The recursive call on a directory, with its loop named. *)
Lemma clean_Dir directory name listable removable children max_depth current_depth :
  _clean_directory_recursive directory (Dir name listable removable children)
                             max_depth current_depth =
  if current_depth >? max_depth then ret (Dir name listable removable children)
  else
    try_except
      (log (OpListdir directory);;;
       if negb listable then raise PermissionError
       else
         children' <- for_item directory max_depth current_depth children;;
         ret (Dir name listable removable children'))
      is_OSError
      (fun _ => incr_errors_encountered;;; ret (Dir name listable removable children)).
Proof.
  cbn [_clean_directory_recursive].
  destruct (current_depth >? max_depth); [reflexivity|].
  match goal with
  | |- context [bind (?F children) _] =>
      assert (H : forall l, F l = for_item directory max_depth current_depth l)
  end.
  { induction l as [|x l IH]; [reflexivity|].
    cbn [for_item]. rewrite <- IH. reflexivity. }
  rewrite H. reflexivity.
Qed.

Lemma safe_delete_file_locked p f t :
  f_locked f = true ->
  safe_delete_file p (Some f) t =
  (Returned (false, Some f),
   mkTool (stats t) (trace t ++ [OpExists p; OpRename p]) (disk t)).
Proof.
  intros H. unfold safe_delete_file, is_file_in_use, try_except, bind, log,
    modify, lift, os_rename_self, ret, raise. cbn. rewrite H. cbn.
  rewrite <- app_assoc. reflexivity.
Qed.

Lemma safe_delete_file_deleted p f t :
  f_locked f = false -> f_stat_ok f = true -> f_unlink_ok f = true ->
  safe_delete_file p (Some f) t =
  (Returned (true, None),
   mkTool (bump_deleted (f_size f) (stats t))
          (trace t ++ [OpExists p; OpRename p; OpStat p; OpUnlink p]) (disk t)).
Proof.
  intros H1 H2 H3. unfold safe_delete_file, is_file_in_use, try_except, bind, log,
    modify, lift, os_rename_self, stat_size, os_unlink, ret, raise,
    incr_temp_files_deleted, add_temp_size_freed, update_stats.
  cbn. rewrite H1. cbn. rewrite H2. cbn. rewrite H3. cbn.
  rewrite <- !app_assoc. reflexivity.
Qed.

Lemma safe_delete_file_failed p f t :
  f_locked f = false -> f_stat_ok f && f_unlink_ok f = false ->
  safe_delete_file p (Some f) t =
  (Returned (false, Some f),
   mkTool (bump_errors (stats t))
          (trace t ++ [OpExists p; OpRename p; OpStat p]
                 ++ (if f_stat_ok f then [OpUnlink p] else []))
          (disk t)).
Proof.
  intros H1 H2. unfold safe_delete_file, is_file_in_use, try_except, bind, log,
    modify, lift, os_rename_self, stat_size, os_unlink, ret, raise,
    incr_errors_encountered, update_stats.
  cbn. rewrite H1. cbn.
  destruct (f_stat_ok f); cbn in *.
  - rewrite H2. cbn. rewrite <- !app_assoc. reflexivity.
  - rewrite <- !app_assoc. reflexivity.
Qed.

(** The attempt to remove an emptied directory never raises and leaves the
    counters alone. *)
Lemma remove_if_empty_run p item t :
  exists kept new,
    remove_if_empty p item t =
      (Returned kept, mkTool (stats t) (trace t ++ new) (disk t)) /\
    ((kept = [item] /\ (new = [OpListdir p] \/ new = [OpListdir p; OpRmdir p])) \/
     (kept = [] /\ new = [OpListdir p; OpRmdir p] /\
      exists name listable, item = Dir name listable true [])).
Proof.
  unfold remove_if_empty, try_except, bind, log, modify, lift, ret, raise.
  destruct item as [f|name listable removable children]; cbn.
  - exists [File f], [OpListdir p]. split; [reflexivity|]. left. auto.
  - destruct listable; cbn.
    + destruct children as [|x l]; cbn.
      * destruct removable; cbn.
        -- exists [], [OpListdir p; OpRmdir p]. rewrite <- app_assoc.
           split; [reflexivity|]. right. eauto.
        -- eexists _, [OpListdir p; OpRmdir p]. rewrite <- app_assoc.
           split; [reflexivity|]. left. auto.
      * eexists _, [OpListdir p]. split; [reflexivity|]. left. auto.
    + eexists _, [OpListdir p]. split; [reflexivity|]. left. auto.
Qed.

Lemma run_refl t : run t t [] 0 0.
Proof. split; rewrite ?app_nil_r; lia || reflexivity. Qed.

Lemma run_trace_only t new :
  run t (mkTool (stats t) (trace t ++ new) (disk t)) new 0 0.
Proof. split; cbn; lia || reflexivity. Qed.

Lemma run_trans t1 t2 t3 new1 new2 dn1 dn2 ds1 ds2 :
  run t1 t2 new1 dn1 ds1 -> run t2 t3 new2 dn2 ds2 ->
  run t1 t3 (new1 ++ new2) (dn1 + dn2) (ds1 + ds2).
Proof.
  intros [] []. split; try lia; try congruence.
  rewrite app_assoc. congruence.
Qed.

Lemma run_weaken t t' new dn ds dn' ds' :
  run t t' new dn ds -> dn = dn' -> ds = ds' -> run t t' new dn' ds'.
Proof. intros H -> ->. exact H. Qed.

Lemma safe_delete_file_run p f t :
  exists r t' new,
    safe_delete_file p (Some f) t = (Returned r, t') /\
    run t t' new (1 - count_files_list (option_list (File <$> snd r)))
        (f_size f - total_size_list (option_list (File <$> snd r))).
Proof.
  destruct (f_locked f) eqn:Hl.
  - eexists _, _, _. split; [apply safe_delete_file_locked; exact Hl|].
    split; cbn; try reflexivity; lia.
  - destruct (f_stat_ok f && f_unlink_ok f) eqn:Hs.
    + apply andb_true_iff in Hs as [Hs Hu].
      eexists _, _, _. split; [apply safe_delete_file_deleted; assumption|].
      split; cbn; try reflexivity; lia.
    + eexists _, _, _. split; [apply safe_delete_file_failed; assumption|].
      split; cbn; try reflexivity; lia.
Qed.

Lemma for_item_run items :
  Forall clean_returns items -> for_item_returns items.
Proof.
  induction 1 as [|item rest Hitem _ IH]; intros directory md cd t.
  - exists [], t, []. split; [reflexivity|]. apply run_refl.
  - cbn [for_item].
    assert (exists kept t1 new1,
      match item with
      | File f =>
          r <- safe_delete_file (directory ++ [f_name f]) (Some f);;
          ret (option_list (File <$> snd r))
      | Dir n _ _ _ =>
          if cd <? md then
            item' <- _clean_directory_recursive (directory ++ [n]) item md (cd + 1);;
            remove_if_empty (directory ++ [n]) item'
          else ret [item]
      end t = (Returned kept, t1) /\
      run t t1 new1 (count_files item - count_files_list kept)
          (total_size item - total_size_list kept)) as (kept & t1 & new1 & E1 & R1).
    { destruct item as [f|n listable removable children].
      - destruct (safe_delete_file_run (directory ++ [f_name f]) f t)
          as (r & t1 & new1 & E & R).
        exists (option_list (File <$> snd r)), t1, new1.
        split; [erewrite bind_Returned by exact E; reflexivity|exact R].
      - destruct (cd <? md).
        + destruct (Hitem (directory ++ [n]) md (cd + 1) t)
            as (item' & t1 & new1 & E & R).
          destruct (remove_if_empty_run (directory ++ [n]) item' t1)
            as (kept & new2 & E2 & Hk).
          eexists kept, _, (new1 ++ new2).
          split; [erewrite bind_Returned by exact E; exact E2|].
          eapply run_weaken.
          * eapply run_trans; [exact R|apply run_trace_only].
          * destruct Hk as [[-> _]|(-> & _ & name & l & ->)];
              unfold count_files_list; cbn; lia.
          * destruct Hk as [[-> _]|(-> & _ & name & l & ->)];
              unfold total_size_list; cbn; lia.
        + exists [Dir n listable removable children], t, [].
          split; [reflexivity|].
          eapply run_weaken; [apply run_refl| |];
            unfold count_files_list, total_size_list; cbn [fold_right]; lia. }
    destruct (IH directory md cd t1) as (rest' & t2 & new2 & E2 & R2).
    exists (kept ++ rest'), t2, (new1 ++ new2).
    split.
    + erewrite bind_Returned by exact E1.
      erewrite bind_Returned by exact E2. reflexivity.
    + eapply run_weaken; [eapply run_trans; eassumption| |].
      * rewrite count_files_list_app. unfold count_files_list. cbn [fold_right]. lia.
      * rewrite total_size_list_app. unfold total_size_list. cbn [fold_right]. lia.
Qed.

Lemma clean_run n : clean_returns n.
Proof.
  induction n as [f|name listable removable children IH] using node_ind';
    intros directory md cd t.
  - cbn [_clean_directory_recursive].
    destruct (cd >? md).
    + exists (File f), t, []. split; [reflexivity|].
      eapply run_weaken; [apply run_refl| |]; lia.
    + eexists (File f), _, [OpListdir directory]. split; [reflexivity|].
      split; cbn; try reflexivity; lia.
  - rewrite clean_Dir.
    destruct (cd >? md).
    + eexists _, t, []. split; [reflexivity|].
      eapply run_weaken; [apply run_refl| |]; lia.
    + destruct listable.
      * destruct (for_item_run children IH directory md cd
                    (mkTool (stats t) (trace t ++ [OpListdir directory]) (disk t)))
          as (kept & t' & new & E & R).
        exists (Dir name true removable kept), t', (OpListdir directory :: new).
        split.
        -- apply try_except_Returned.
           erewrite bind_Returned by reflexivity. cbn [negb].
           erewrite bind_Returned by exact E. reflexivity.
        -- rewrite !count_files_Dir, !total_size_Dir.
           destruct R. split; cbn in *; try lia; try congruence.
           rewrite run_trace0, <- app_assoc. reflexivity.
      * eexists _, _, [OpListdir directory]. split; [reflexivity|].
        split; cbn; try reflexivity; lia.
Qed.

Lemma clean_Dir_inv directory name listable removable children md cd t n' t' :
  _clean_directory_recursive directory (Dir name listable removable children)
                             md cd t = (Returned n', t') ->
  ((cd >? md) = true /\ n' = Dir name listable removable children /\ t' = t) \/
  ((cd >? md) = false /\ listable = false /\
   n' = Dir name listable removable children /\
   t' = mkTool (bump_errors (stats t)) (trace t ++ [OpListdir directory]) (disk t)) \/
  ((cd >? md) = false /\ listable = true /\
   exists kept,
     for_item directory md cd children (logged t (OpListdir directory))
       = (Returned kept, t') /\
     n' = Dir name listable removable kept).
Proof.
  rewrite clean_Dir. destruct (cd >? md).
  - intros [= <- <-]. left. auto.
  - destruct listable.
    + destruct (for_item_run children
                  (proj2 (Forall_forall _ _) (fun x _ => clean_run x))
                  directory md cd (logged t (OpListdir directory)))
        as (kept & t2 & new & E & _).
      unfold try_except, bind at 1, log, modify. cbn [negb].
      fold (logged t (OpListdir directory)).
      erewrite bind_Returned by exact E. cbn.
      intros [= <- <-]. right. right. eauto.
    + cbn. intros [= <- <-]. right. left. auto.
Qed.

Lemma for_item_cons_inv directory md cd item rest t kept t' :
  for_item directory md cd (item :: rest) t = (Returned kept, t') ->
  exists k1 t1 k2,
    match item with
    | File f =>
        r <- safe_delete_file (directory ++ [f_name f]) (Some f);;
        ret (option_list (File <$> snd r))
    | Dir n _ _ _ =>
        if cd <? md then
          item' <- _clean_directory_recursive (directory ++ [n]) item md (cd + 1);;
          remove_if_empty (directory ++ [n]) item'
        else ret [item]
    end t = (Returned k1, t1) /\
    for_item directory md cd rest t1 = (Returned k2, t') /\
    kept = k1 ++ k2.
Proof.
  cbn [for_item]. intros H.
  apply bind_Returned_inv in H as (k1 & t1 & E1 & H).
  apply bind_Returned_inv in H as (k2 & t2 & E2 & H).
  injection H as <- <-. eauto 6.
Qed.

End MainFacts.

(** ** Files that stay *)

Module LockedFacts.
Import Main MainSpec MainFacts.

Lemma for_item_keeps_locked items :
  Forall keeps_locked items ->
  forall directory md cd t kept t',
    for_item directory md cd items t = (Returned kept, t') ->
    forall f rel child,
      f_locked f = true -> child ∈ items -> file_at f child rel ->
      exists child',
        child' ∈ kept /\ node_name child' = node_name child /\
        file_at f child' rel.
Proof.
  induction 1 as [|item rest Hitem _ IH];
    intros directory md cd t kept t' E f rel child Hf Hin Hat.
  - inversion Hin.
  - apply for_item_cons_inv in E as (k1 & t1 & k2 & E1 & E2 & ->).
    apply elem_of_cons in Hin as [->|Hin].
    + destruct item as [g|n listable removable children].
      * assert (Hg : g = f /\ rel = []) by (inversion Hat; auto).
        destruct Hg as [-> ->].
        rewrite (bind_Returned _ _ _ _ _
                   (safe_delete_file_locked (directory ++ [f_name f]) f t Hf)) in E1.
        injection E1 as <- _. exists (File f). cbn.
        split; [set_solver|]. auto.
      * destruct (cd <? md).
        -- apply bind_Returned_inv in E1 as (item' & t0 & E0 & E1).
           destruct (Hitem _ _ _ _ _ _ E0) as [Hname Hkeep].
           specialize (Hkeep f rel Hf Hat).
           destruct (remove_if_empty_run (directory ++ [n]) item' t0)
             as (kept & new & E & Hk).
           rewrite E in E1. injection E1 as <- _.
           destruct Hk as [[-> _]|(_ & _ & name & l & ->)].
           ++ exists item'. split; [set_solver|].
              auto.
           ++ inversion Hkeep; subst.
              match goal with H : _ ∈ [] |- _ => inversion H end.
        -- injection E1 as <- _.
           exists (Dir n listable removable children).
           split; [set_solver|]. auto.
    + destruct (IH _ _ _ _ _ _ E2 f rel child Hf Hin Hat)
        as (child' & Hin' & Hname & Hat').
      exists child'. split; [set_solver|]. auto.
Qed.

Lemma clean_keeps_locked n : keeps_locked n.
Proof.
  induction n as [g|name listable removable children IH] using node_ind';
    intros directory md cd t n' t' E.
  - cbn [_clean_directory_recursive] in E.
    destruct (cd >? md); cbn in E; injection E as <- _; auto.
  - apply clean_Dir_inv in E
      as [(_ & -> & _)|[(_ & _ & -> & _)|(_ & _ & kept & E & ->)]]; [auto|auto|].
    split; [reflexivity|]. intros f rel Hf Hat.
    inversion Hat as [|? ? ? ? child rel' Hin Hchild]; subst.
    destruct (for_item_keeps_locked children IH _ _ _ _ _ _ E f rel' child Hf Hin Hchild)
      as (child' & Hin' & Hname & Hat').
    rewrite <- Hname. econstructor; eassumption.
Qed.

End LockedFacts.

(** ** The order of the system calls *)

Module OrderFacts.
Import Main MainSpec MainFacts.

Lemma distinct_names_Dir name listable removable children :
  distinct_names (Dir name listable removable children) = true ->
  NoDup (map node_name children) /\
  Forall (fun x => distinct_names x = true) children.
Proof.
  cbn [distinct_names]. intros H. apply andb_true_iff in H as [H1 H2].
  split; [apply bool_decide_eq_true in H1; exact H1|].
  induction children as [|x l IH]; [constructor|].
  apply andb_true_iff in H2 as [Hx Hl].
  constructor; [exact Hx|].
  apply IH; [|exact Hl].
  apply bool_decide_eq_true in H1. cbn in H1. apply NoDup_cons in H1 as [_ H1].
  apply bool_decide_eq_true. exact H1.
Qed.

Lemma post_order_app a b :
  post_order a -> post_order b ->
  (forall p, OpRmdir p ∈ a ->
             Forall (fun o => ~ strictly_below p (op_path o)) b) ->
  post_order (a ++ b).
Proof.
  induction a as [|o a IH]; intros Ha Hb Hab; [exact Hb|].
  cbn [app post_order] in *. destruct Ha as [Ho Ha].
  split.
  - destruct o; try exact I.
    apply Forall_app. split; [exact Ho|]. apply Hab. set_solver.
  - apply IH; [exact Ha|exact Hb|]. intros p Hp. apply Hab. set_solver.
Qed.

(** The split form of [post_order]. *)
Lemma post_order_split l :
  post_order l ->
  forall l1 p l2, l = l1 ++ OpRmdir p :: l2 ->
                  Forall (fun o => ~ strictly_below p (op_path o)) l2.
Proof.
  intros H l1. revert l H.
  induction l1 as [|o l1 IH]; intros l H p l2 ->; cbn in H.
  - apply H.
  - eapply IH; [apply H|reflexivity].
Qed.

Lemma not_below_of_prefix (p k q : path) :
  ~ strictly_below (p ++ k) p.
Proof.
  intros (name & rest & E).
  apply (f_equal length) in E. rewrite !length_app in E. cbn in E. lia.
Qed.

Lemma not_below_sibling (d : path) a b k k' :
  a <> b -> ~ strictly_below ((d ++ [a]) ++ k) ((d ++ [b]) ++ k').
Proof.
  intros Hab (name & rest & E).
  rewrite <- !app_assoc in E. apply app_inv_head in E.
  cbn in E. congruence.
Qed.

Lemma post_order_no_rmdir l :
  Forall (fun o => is_rmdir o = false) l -> post_order l.
Proof.
  induction 1 as [|o l Ho _ IH]; [exact I|].
  cbn. split; [destruct o; try exact I; discriminate|exact IH].
Qed.

Lemma safe_delete_file_trace p f t r t' :
  safe_delete_file p (Some f) t = (Returned r, t') ->
  exists new,
    trace t' = trace t ++ new /\
    Forall (fun o => op_path o = p /\ is_rmdir o = false) new.
Proof.
  destruct (f_locked f) eqn:Hl.
  - rewrite safe_delete_file_locked by exact Hl. intros [= _ <-].
    eexists. split; [reflexivity|]. repeat constructor.
  - destruct (f_stat_ok f && f_unlink_ok f) eqn:Hs.
    + apply andb_true_iff in Hs as [Hs Hu].
      rewrite safe_delete_file_deleted by assumption. intros [= _ <-].
      eexists. split; [reflexivity|]. repeat constructor.
    + rewrite safe_delete_file_failed by assumption. intros [= _ <-].
      eexists. split; [reflexivity|].
      destruct (f_stat_ok f); repeat constructor.
Qed.

Lemma for_item_tidy items :
  Forall tidy items ->
  NoDup (map node_name items) ->
  Forall (fun x => distinct_names x = true) items ->
  forall directory md cd t kept t',
    for_item directory md cd items t = (Returned kept, t') ->
    exists new,
      trace t' = trace t ++ new /\
      Forall (reaches directory (map node_name items)) new /\ post_order new.
Proof.
  induction 1 as [|item rest Hitem _ IH];
    intros Hnd Hdn directory md cd t kept t' E.
  - injection E as _ <-. exists []. rewrite app_nil_r. repeat constructor.
  - apply for_item_cons_inv in E as (k1 & t1 & k2 & E1 & E2 & ->).
    cbn [map] in Hnd. apply NoDup_cons in Hnd as [Hfresh Hnd].
    apply Forall_cons in Hdn as [Hdi Hdn].
    assert (exists new1,
      trace t1 = trace t ++ new1 /\
      Forall (within (directory ++ [node_name item])) new1 /\
      post_order new1) as (new1 & T1 & S1 & O1).
    { destruct item as [f|n listable removable children].
      - apply bind_Returned_inv in E1 as (r & t0 & E0 & E1).
        injection E1 as _ <-.
        apply safe_delete_file_trace in E0 as (new1 & T & F).
        exists new1. split; [exact T|]. split.
        + eapply Forall_impl; [exact F|]. intros o [Ho _].
          exists []. rewrite app_nil_r. exact Ho.
        + apply post_order_no_rmdir.
          eapply Forall_impl; [exact F|]. intros o [_ Ho]. exact Ho.
      - destruct (cd <? md).
        + apply bind_Returned_inv in E1 as (item' & t0 & E0 & E1).
          destruct (Hitem _ _ _ _ _ _ Hdi E0) as (new0 & T0 & S0 & O0).
          destruct (remove_if_empty_run (directory ++ [n]) item' t0)
            as (kept & new & E & Hk).
          rewrite E in E1. injection E1 as _ <-.
          exists (new0 ++ new). cbn [trace node_name].
          split; [rewrite T0, app_assoc; reflexivity|].
          assert (Hnew : Forall (fun o => op_path o = directory ++ [n]) new /\
                         post_order new).
          { destruct Hk as [[_ [->| ->]]|(_ & -> & _)];
              repeat constructor. }
          destruct Hnew as [Hpath Hord].
          split.
          * apply Forall_app. split; [exact S0|].
            eapply Forall_impl; [exact Hpath|].
            intros o Ho. exists []. rewrite app_nil_r. exact Ho.
          * apply post_order_app; [exact O0|exact Hord|].
            intros p Hp.
            destruct (proj1 (Forall_forall _ _) S0 _ Hp) as [k Hk'].
            cbn in Hk'. subst p.
            eapply Forall_impl; [exact Hpath|].
            intros o ->. apply (not_below_of_prefix _ k (directory ++ [n])).
        + injection E1 as _ <-. exists []. rewrite app_nil_r. repeat constructor. }
    destruct (IH Hnd Hdn _ _ _ _ _ _ E2) as (new2 & T2 & S2 & O2).
    exists (new1 ++ new2).
    split; [rewrite T2, T1, app_assoc; reflexivity|].
    split.
    + apply Forall_app. split.
      * eapply Forall_impl; [exact S1|]. intros o [k Hk].
        exists (node_name item), k. split; [cbn [map]; left|exact Hk].
      * eapply Forall_impl; [exact S2|]. intros o (name & k & Hin & Hk).
        exists name, k. split; [cbn [map]; right; exact Hin|exact Hk].
    + apply post_order_app; [exact O1|exact O2|].
      intros p Hp.
      destruct (proj1 (Forall_forall _ _) S1 _ Hp) as [k Hk].
      cbn in Hk. subst p.
      eapply Forall_impl; [exact S2|].
      intros o (name & k' & Hin & ->).
      apply not_below_sibling. intros Heq. apply Hfresh.
      rewrite Heq. exact Hin.
Qed.

Lemma clean_tidy n : tidy n.
Proof.
  induction n as [f|name listable removable children IH] using node_ind';
    intros directory md cd t n' t' Hd E.
  - cbn [_clean_directory_recursive] in E.
    destruct (cd >? md); cbn in E; injection E as _ <-.
    + exists []. rewrite app_nil_r. repeat constructor.
    + exists [OpListdir directory]. split; [reflexivity|].
      split; [|repeat constructor].
      constructor; [|constructor]. exists []. rewrite app_nil_r. reflexivity.
  - apply distinct_names_Dir in Hd as [Hnd Hdn].
    apply clean_Dir_inv in E
      as [(_ & _ & ->)|[(_ & _ & _ & ->)|(_ & _ & kept & E & _)]].
    + exists []. rewrite app_nil_r. repeat constructor.
    + exists [OpListdir directory]. split; [reflexivity|].
      split; [|repeat constructor].
      constructor; [|constructor]. exists []. rewrite app_nil_r. reflexivity.
    + destruct (for_item_tidy children IH Hnd Hdn _ _ _ _ _ _ E)
        as (new2 & T2 & S2 & O2).
      exists (OpListdir directory :: new2).
      split; [rewrite T2; cbn; rewrite <- app_assoc; reflexivity|].
      split.
      * constructor; [exists []; rewrite app_nil_r; reflexivity|].
        eapply Forall_impl; [exact S2|].
        intros o (nm & k & _ & Ho). exists ([nm] ++ k).
        rewrite Ho, <- app_assoc. reflexivity.
      * cbn. split; [exact I|exact O2].
Qed.

End OrderFacts.

(** ** The browser cache cleaner *)

Module BrowserFacts.
Import Browser BrowserSpec.

Lemma same_counters_refl c : same_counters c c.
Proof. repeat split. Qed.

Lemma same_counters_trans c1 c2 c3 :
  same_counters c1 c2 -> same_counters c2 c3 -> same_counters c1 c3.
Proof. unfold same_counters. intros (-> & -> & -> & ->) (-> & -> & -> & ->). auto. Qed.

(** The removal loop always returns and works on the entries only. *)
Lemma remove_loop_returns cache_path items files_removed c :
  exists r c',
    for_item cache_path items files_removed c = (Returned r, c') /\
    disk c' = disk c /\ same_counters c c'.
Proof.
  revert files_removed c.
  induction items as [|item rest IH]; intros files_removed c.
  - exists ([], files_removed), c. split; [reflexivity|].
    split; [reflexivity|apply same_counters_refl].
  - cbn [for_item].
    assert (exists r1 c1,
      try_except
        (match item with
         | File f => lift (os_unlink (Some f));;; ret ([], files_removed + 1)
         | Dir _ _ _ _ => ret (option_list (rmtree item), files_removed + 1)
         end)
        is_OSError
        (fun _ =>
           log (LogCouldNotRemove (cache_path ++ [node_name item]));;;
           ret ([item], files_removed)) c = (Returned r1, c1) /\
      disk c1 = disk c /\ same_counters c c1) as (r1 & c1 & E1 & D1 & S1).
    { destruct item as [f|n listable removable children].
      - unfold try_except, bind, lift, os_unlink, log, modify, ret, raise.
        destruct (f_unlink_ok f); cbn; eexists _, _;
          (split; [reflexivity|]); split; try reflexivity; repeat split.
      - eexists _, _. split; [reflexivity|]. split; [reflexivity|].
        apply same_counters_refl. }
    destruct (IH (snd r1) c1) as (r2 & c2 & E2 & D2 & S2).
    eexists _, c2. split.
    + erewrite bind_Returned by exact E1.
      erewrite bind_Returned by exact E2. reflexivity.
    + split; [congruence|]. eapply same_counters_trans; eassumption.
Qed.

(** [safe_remove_cache_directory] always returns; the size it reports is the
    measured size of the directory before the loop minus the measured size
    after it. *)
Lemma safe_remove_cache_directory_returns cache_path c :
  exists ok size_freed c',
    safe_remove_cache_directory cache_path c = (Returned (ok, size_freed), c') /\
    same_counters c c' /\
    size_freed =
      (if ok then
         get_directory_size (disk_lookup (disk c) cache_path)
         - get_directory_size (disk_lookup (disk c') cache_path)
       else 0) /\
    (ok = false -> disk c' = disk c).
Proof.
  unfold safe_remove_cache_directory.
  erewrite bind_Returned by reflexivity.
  destruct (disk_lookup (disk c) cache_path) as [cache|] eqn:Hc.
  - cbn [negb bool_decide]. 
    replace (bool_decide (is_Some (Some cache))) with true
      by (symmetry; apply bool_decide_eq_true; eauto).
    cbn [negb].
    destruct cache as [f|name listable removable children].
    + exists false, 0. eexists. split; [reflexivity|]. cbn.
      split; [repeat split|]. auto.
    + destruct listable.
      * destruct (remove_loop_returns cache_path children 0 c)
          as (r & c1 & E & D & S1).
        exists true. eexists _, _. split.
        -- apply try_except_Returned.
           erewrite bind_Returned by reflexivity.
           erewrite bind_Returned by exact E.
           erewrite bind_Returned by reflexivity.
           erewrite bind_Returned by reflexivity.
           erewrite bind_Returned by reflexivity.
           reflexivity.
        -- cbn. split; [|split; [reflexivity|discriminate]].
           destruct S1 as (? & ? & ? & ?). repeat split; assumption.
      * exists false, 0. eexists. split; [reflexivity|]. cbn.
        split; [repeat split|]. auto.
  - exists false, 0, c. replace (bool_decide (is_Some None)) with false.
    + split; [reflexivity|]. split; [apply same_counters_refl|]. auto.
    + symmetry. apply bool_decide_eq_false. intros [x Hx]. discriminate.
Qed.

(** The scan of the process table touches the log only. *)
Lemma for_proc_log_only browser_name names procs c r c' :
  for_proc browser_name names procs c = (r, c') ->
  disk c' = disk c /\ same_counters c c'.
Proof.
  revert c. induction procs as [|proc rest IH]; intros c; cbn [for_proc].
  - intros [= _ <-]. split; [reflexivity|apply same_counters_refl].
  - destruct (proc_name proc) as [name|].
    + destruct (bool_decide (lower name ∈ map lower names)).
      * intros [= _ <-]. split; [reflexivity|repeat split].
      * apply IH.
    + intros [= _ <-]. split; [reflexivity|apply same_counters_refl].
Qed.

Lemma is_browser_running_log_only browser_name c r c' :
  is_browser_running browser_name c = (r, c') ->
  disk c' = disk c /\ same_counters c c'.
Proof.
  unfold is_browser_running.
  destruct (config_of browser_configs browser_name) as [cfg|].
  - unfold bind, get. apply for_proc_log_only.
  - intros [= _ <-]. split; [reflexivity|apply same_counters_refl].
Qed.

Lemma is_browser_running_configured browser_name c c' :
  is_browser_running browser_name c = (Returned true, c') ->
  exists cfg, config_of browser_configs browser_name = Some cfg.
Proof.
  unfold is_browser_running.
  destruct (config_of browser_configs browser_name) as [cfg|]; [eauto|].
  discriminate.
Qed.

Lemma measurable_Dir name listable removable children :
  measurable (Dir name listable removable children) = true <->
  listable = true /\ Forall (fun x => measurable x = true) children.
Proof.
  cbn [measurable]. rewrite andb_true_iff.
  assert (H : (fix all (l : list node) : bool :=
                 match l with
                 | [] => true
                 | x :: l' => measurable x && all l'
                 end) children = true <->
              Forall (fun x => measurable x = true) children).
  { induction children as [|x l IH].
    - split; [constructor|reflexivity].
    - rewrite andb_true_iff, IH, Forall_cons. reflexivity. }
  rewrite H. reflexivity.
Qed.

Lemma measured_size_Dir name removable children :
  measured_size (Dir name true removable children) =
  fold_right (fun x acc => measured_size x + acc) 0 children.
Proof.
  cbn [measured_size]. induction children as [|x l IH]; [reflexivity|].
  cbn [fold_right]. rewrite <- IH. reflexivity.
Qed.

(** Where every file can be measured, the measured size is the size. *)
Lemma measured_size_total n :
  measurable n = true -> measured_size n = total_size n.
Proof.
  induction n as [f|name listable removable children IH] using node_ind';
    intros Hm.
  - cbn in *. rewrite Hm. reflexivity.
  - apply measurable_Dir in Hm as [-> Hall].
    rewrite measured_size_Dir, total_size_Dir. unfold total_size_list.
    induction IH as [|x l Hx _ IHl]; [reflexivity|].
    apply Forall_cons in Hall as [Hmx Hml].
    cbn [fold_right]. rewrite (Hx Hmx), (IHl Hml). reflexivity.
Qed.

Lemma rmtree_Dir name listable removable children :
  rmtree (Dir name listable removable children) =
  let children' :=
    if listable then flat_map (fun x => option_list (rmtree x)) children
    else children in
  match os_rmdir (Dir name listable removable children') with
  | inr _ => None
  | inl _ => Some (Dir name listable removable children')
  end.
Proof.
  cbn [rmtree].
  assert (H : (fix for_entry (entries : list node) : list node :=
                 match entries with
                 | [] => []
                 | entry :: rest => option_list (rmtree entry) ++ for_entry rest
                 end) children
              = flat_map (fun x => option_list (rmtree x)) children).
  { induction children as [|x l IH]; [reflexivity|].
    cbn [flat_map]. rewrite <- IH. reflexivity. }
  rewrite H. reflexivity.
Qed.

(** What [rmtree] leaves can still be measured. *)
Lemma rmtree_measurable n :
  measurable n = true ->
  forall n', rmtree n = Some n' -> measurable n' = true.
Proof.
  induction n as [f|name listable removable children IH] using node_ind';
    intros Hm n' E.
  - cbn in E. destruct (f_unlink_ok f); [discriminate|].
    injection E as <-. exact Hm.
  - rewrite rmtree_Dir in E. cbv zeta in E.
    apply measurable_Dir in Hm as [-> Hall].
    destruct (os_rmdir _); [|discriminate]. injection E as <-.
    apply measurable_Dir. split; [reflexivity|].
    induction IH as [|x l Hx _ IHl]; [constructor|].
    apply Forall_cons in Hall as [Hmx Hml].
    cbn [flat_map]. apply Forall_app. split; [|exact (IHl Hml)].
    destruct (rmtree x) as [x'|] eqn:Ex; [|constructor].
    constructor; [|constructor]. exact (Hx Hmx x' eq_refl).
Qed.

Lemma remove_loop_measurable cache_path items files_removed c r c' :
  Forall (fun x => measurable x = true) items ->
  for_item cache_path items files_removed c = (Returned r, c') ->
  Forall (fun x => measurable x = true) (fst r).
Proof.
  revert files_removed c r c'.
  induction items as [|item rest IH]; intros files_removed c r c' Hall E.
  - injection E as <- _. constructor.
  - apply Forall_cons in Hall as [Hitem Hrest].
    cbn [for_item] in E.
    apply bind_Returned_inv in E as (r1 & c1 & E1 & E).
    apply bind_Returned_inv in E as (r2 & c2 & E2 & E).
    injection E as <- _. cbn [fst].
    apply Forall_app. split; [|exact (IH _ _ _ _ Hrest E2)].
    destruct item as [f|n listable removable children].
    + unfold try_except, bind, lift, os_unlink, log, modify, ret, raise in E1.
      destruct (f_unlink_ok f); cbn in E1; injection E1 as <- _;
        repeat constructor. exact Hitem.
    + assert (Hr1 : r1 = (option_list (rmtree (Dir n listable removable children)),
                          files_removed + 1)).
      { change (try_except
                  (ret (option_list (rmtree (Dir n listable removable children)),
                        files_removed + 1))
                  is_OSError
                  (fun _ =>
                     log (LogCouldNotRemove (cache_path ++ [n]));;;
                     ret ([Dir n listable removable children], files_removed))
                  c = (Returned r1, c1)) in E1.
        unfold try_except, ret in E1. congruence. }
      subst r1. cbn [fst].
      destruct (rmtree (Dir n listable removable children)) as [x'|] eqn:Ex;
        [|constructor].
      constructor; [|constructor].
      exact (rmtree_measurable _ Hitem _ Ex).
Qed.

(** On a cache directory known by its path and measurable throughout, the
    size reported is the size of what has gone from it. *)
Lemma safe_remove_cache_directory_total root c name removable children :
  disk c !! root = Some (Dir name true removable children) ->
  measurable (Dir name true removable children) = true ->
  exists size_freed c' kept,
    safe_remove_cache_directory [root] c = (Returned (true, size_freed), c') /\
    disk c' !! root = Some (Dir name true removable kept) /\
    size_freed = total_size (Dir name true removable children)
                 - total_size (Dir name true removable kept).
Proof.
  intros Hroot Hm.
  destruct (remove_loop_returns [root] children 0 c) as (r & c1 & E & D & _).
  pose proof (remove_loop_measurable _ _ _ _ _ _
                (proj2 (proj1 (measurable_Dir _ _ _ _) Hm)) E) as Hkept.
  exists (measured_size (Dir name true removable children)
          - measured_size (Dir name true removable (fst r))).
  eexists. exists (fst r). split; [|split].
  - unfold safe_remove_cache_directory.
    erewrite bind_Returned by reflexivity.
    cbn [disk_lookup]. rewrite Hroot. cbn [lookup_in].
    replace (bool_decide (is_Some (Some (Dir name true removable children))))
      with true by (symmetry; apply bool_decide_eq_true; eauto).
    cbn [negb]. apply try_except_Returned.
    erewrite bind_Returned by reflexivity.
    erewrite bind_Returned by exact E.
    erewrite bind_Returned by reflexivity.
    erewrite bind_Returned by reflexivity.
    erewrite bind_Returned by reflexivity.
    cbn [disk_put disk get_directory_size disk_lookup].
    rewrite D, Hroot. cbn [replace_in lookup_in].
    rewrite lookup_insert_eq. cbn [lookup_in].
    reflexivity.
  - cbn. rewrite lookup_insert_eq. reflexivity.
  - rewrite !measured_size_total; [reflexivity| |exact Hm].
    apply measurable_Dir. auto.
Qed.

End BrowserFacts.

(** ** The V2 engine *)

Module V2Facts.
Import V2 V2Spec.

Lemma advance_refl l : advance l l.
Proof. split; lia || reflexivity. Qed.

Lemma advance_trans l1 l2 l3 : advance l1 l2 -> advance l2 l3 -> advance l1 l3.
Proof. intros [] []. split; lia || congruence. Qed.

Lemma for_file_returns o l :
  exists o' l', for_file o l = (Returned o', l') /\ advance l l'.
Proof.
  unfold for_file, try_except, bind, lift, stat_size, os_unlink, ret, raise,
    incr_files_processed, incr_files_deleted, add_space_freed, incr_errors, modify.
  destruct o as [f|]; cbn.
  - destruct (f_stat_ok f); cbn; [destruct (f_unlink_ok f); cbn|];
      eexists _, _; (split; [reflexivity|]); split; cbn; lia || reflexivity.
  - eexists _, _. split; [reflexivity|]. split; cbn; lia || reflexivity.
Qed.

Lemma for_files_returns items l :
  exists lefts l', for_files items l = (Returned lefts, l') /\ advance l l'.
Proof.
  revert l. induction items as [|item rest IH]; intros l.
  - exists [], l. split; [reflexivity|apply advance_refl].
  - cbn [for_files].
    assert (exists kept l1,
      match item with
      | File f => o <- for_file (Some f);; ret (option_list (File <$> o))
      | Dir _ _ _ _ => ret [item]
      end l = (Returned kept, l1) /\ advance l l1) as (kept & l1 & E1 & A1).
    { destruct item as [f|n listable removable children].
      - destruct (for_file_returns (Some f) l) as (o' & l1 & E & A).
        eexists _, l1. split; [erewrite bind_Returned by exact E; reflexivity|exact A].
      - eexists _, l. split; [reflexivity|apply advance_refl]. }
    destruct (IH l1) as (lefts & l2 & E2 & A2).
    eexists _, l2. split.
    + erewrite bind_Returned by exact E1.
      erewrite bind_Returned by exact E2. reflexivity.
    + eapply advance_trans; eassumption.
Qed.

Lemma walk_run n : walk_returns n.
Proof.
  induction n as [f|name listable removable children IH] using node_ind';
    intros l.
  - exists (File f), l. split; [reflexivity|apply advance_refl].
  - cbn [walk]. destruct listable; cbn [negb].
    + destruct (for_files_returns children l) as (lefts & l1 & E1 & A1).
      erewrite bind_Returned by exact E1.
      match goal with
      | |- context [bind (?F children lefts) _] =>
          assert (H : forall lefts l, exists kept l',
                      F children lefts l = (Returned kept, l') /\ advance l l')
      end.
      { clear E1 A1 lefts l l1.
        induction IH as [|item rest Hitem _ IHrest]; intros lefts l.
        - exists [], l. split; [reflexivity|apply advance_refl].
        - destruct lefts as [|kept lefts].
          + exists [], l. split; [reflexivity|apply advance_refl].
          + assert (exists here l1,
              match item with
              | File _ => ret kept
              | Dir _ _ _ _ => item' <- walk item;; ret [item']
              end l = (Returned here, l1) /\ advance l l1)
              as (here & l1 & E1 & A1).
            { destruct item as [f|n li re ch].
              - exists kept, l. split; [reflexivity|apply advance_refl].
              - destruct (Hitem l) as (item' & l1 & E & A).
                eexists _, l1.
                split; [erewrite bind_Returned by exact E; reflexivity|exact A]. }
            destruct (IHrest lefts l1) as (rest' & l2 & E2 & A2).
            eexists _, l2. split.
            * erewrite bind_Returned by exact E1.
              erewrite bind_Returned by exact E2. reflexivity.
            * eapply advance_trans; eassumption. }
      destruct (H lefts l1) as (kept & l2 & E2 & A2).
      eexists _, l2. split.
      * erewrite bind_Returned by exact E2. reflexivity.
      * eapply advance_trans; eassumption.
    + eexists _, l. split; [reflexivity|apply advance_refl].
Qed.

Lemma for_temp_dir_returns dirs l :
  exists l', for_temp_dir dirs l = (Returned tt, l') /\ counted l l'.
Proof.
  revert l. induction dirs as [|temp_dir rest IH]; intros l.
  - exists l. split; [reflexivity|]. unfold counted. lia.
  - cbn [for_temp_dir].
    erewrite bind_Returned by reflexivity.
    assert (exists l1,
      (if os_path_exists (l_disk l) temp_dir then
         try_except
           (match l_disk l !! temp_dir with
            | Some n =>
                n' <- walk n;;
                l' <- get;;
                set_disk (<[temp_dir := n']> (l_disk l'))
            | None => ret tt
            end)
           is_Exception
           (fun e => incr_errors;;; details_append (ErrorAccessing temp_dir e))
       else ret tt) l = (Returned tt, l1) /\ counted l l1) as (l1 & E1 & C1).
    { destruct (os_path_exists (l_disk l) temp_dir).
      - destruct (l_disk l !! temp_dir) as [n|].
        + destruct (walk_run n l) as (n' & l1 & E & A).
          eexists. split.
          * apply try_except_Returned.
            erewrite bind_Returned by exact E. reflexivity.
          * destruct A. unfold counted. cbn. lia.
        + exists l. split; [reflexivity|]. unfold counted. lia.
      - exists l. split; [reflexivity|]. unfold counted. lia. }
    destruct (IH l1) as (l2 & E2 & C2).
    exists l2. split.
    + erewrite bind_Returned by exact E1. exact E2.
    + unfold counted in *. lia.
Qed.

End V2Facts.

(** *** Progress notifications only accumulate *)

Module ProgressFacts.
Import V2 V2Spec.

Section grows.
Context {SystemState : Type}.
Local Abbreviation engine := (engine SystemState).

Lemma grows_ret {A} (a : A) : grows (ret a : M engine A).
Proof. intros e. split; reflexivity. Qed.

Lemma grows_raise {A} x : grows (raise x : M engine A).
Proof. intros e. split; reflexivity. Qed.

Lemma grows_get : grows (get : M engine engine).
Proof. intros e. split; reflexivity. Qed.

Lemma grows_lift {A} (r : exn + A) : grows (lift r : M engine A).
Proof. destruct r; [apply grows_raise|apply grows_ret]. Qed.

Lemma grows_bind {A B} (m : M engine A) (k : A -> M engine B) :
  grows m -> (forall a, grows (k a)) -> grows (bind m k).
Proof.
  intros Hm Hk e. unfold bind.
  destruct (Hm e) as [P1 C1]. destruct (m e) as [[a|x] e1]; cbn in *.
  - destruct (Hk a e1) as [P2 C2]. split; [etrans; eassumption|congruence].
  - auto.
Qed.

Lemma grows_try_except {A} (m : M engine A) classes handler :
  grows m -> (forall x, grows (handler x)) -> grows (try_except m classes handler).
Proof.
  intros Hm Hh e. unfold try_except.
  destruct (Hm e) as [P1 C1]. destruct (m e) as [[a|x] e1]; cbn in *.
  - auto.
  - destruct (classes x); [|auto].
    destruct (Hh x e1) as [P2 C2]. split; [etrans; eassumption|congruence].
Qed.

Lemma grows_modify (f : engine -> engine) :
  (forall e, percentages e `prefix_of` percentages (f e) /\
             progress_callback (f e) = progress_callback e) ->
  grows (modify f).
Proof. intros H e. apply H. Qed.

Lemma grows_call_progress p m : grows (call_progress p m : M engine unit).
Proof.
  apply grows_modify. intros e. split; [|reflexivity].
  unfold percentages. cbn. rewrite map_app. apply prefix_app_r. reflexivity.
Qed.

Lemma grows_call_status m : grows (call_status m : M engine unit).
Proof. apply grows_modify. intros e. split; reflexivity. Qed.

Lemma grows_update_progress p m : grows (update_progress p m : M engine unit).
Proof.
  unfold update_progress.
  apply grows_bind; [apply grows_get|]. intros e.
  apply grows_bind.
  - destruct (progress_callback e); [apply grows_call_progress|apply grows_ret].
  - intros _. destruct (status_callback e); [apply grows_call_status|apply grows_ret].
Qed.

Lemma grows_set_before_state st : grows (set_before_state st : M engine unit).
Proof. apply grows_modify. intros e. split; reflexivity. Qed.

Lemma grows_set_after_state st : grows (set_after_state st : M engine unit).
Proof. apply grows_modify. intros e. split; reflexivity. Qed.

Lemma grows_set_cleanup_results f : grows (set_cleanup_results f : M engine unit).
Proof. apply grows_modify. intros e. split; reflexivity. Qed.

Lemma grows_on_disk {A} (m : M (gmap string node) A) :
  grows (on_disk m : M engine A).
Proof.
  intros e. unfold on_disk. destruct (m (e_disk e)) as [r d]. split; reflexivity.
Qed.
Lemma grows_capture_system_state system :
  grows (capture_system_state system : M engine SystemState).
Proof.
  unfold capture_system_state.
  apply grows_bind; [apply grows_update_progress|]. intros _.
  apply grows_bind; [apply grows_get|]. intros e.
  apply grows_bind; [apply grows_modify; intros; split; reflexivity|].
  intros _.
  apply grows_try_except; [apply grows_lift|intros; apply grows_raise].
Qed.

(** With the callback set, [update_progress] delivers its percentage. *)
Lemma update_progress_delivers p m (e : engine) :
  progress_callback e = true ->
  exists e',
    update_progress p m e = (Returned tt, e') /\
    progress_callback e' = true /\
    percentages e' = percentages e ++ [p].
Proof.
  intros Hcb. unfold update_progress, bind, get. rewrite Hcb.
  unfold call_progress, call_status, modify, ret. cbn.
  destruct (status_callback e); eexists; (split; [reflexivity|]);
    unfold percentages; cbn; rewrite map_app; auto.
Qed.

(** [capture_system_state] delivers 0 before anything else, whether the
    snapshot is taken or not. *)
Lemma capture_system_state_delivers_zero system (e : engine) :
  progress_callback e = true ->
  exists r e',
    capture_system_state system e = (r, e') /\
    progress_callback e' = true /\
    percentages e' = percentages e ++ [0].
Proof.
  intros Hcb. unfold capture_system_state.
  destruct (update_progress_delivers 0 "Analyzing system state..." e Hcb)
    as (e1 & E1 & Hcb1 & P1).
  erewrite bind_Returned by exact E1.
  unfold bind, get, modify, try_except, lift. cbn.
  destruct (system (captures e1)); cbn; eexists _, _;
    (split; [reflexivity|]); cbn; auto.
Qed.

(** A [try] whose handler returns and which catches everything returns;
    what its first two steps have delivered stays delivered. *)
Lemma try_two_steps {A B} (m1 : M engine unit) (m2 : M engine A)
      (k : A -> M engine B) (handler : exn -> M engine B) e e1 r2 e2 :
  m1 e = (Returned tt, e1) ->
  m2 e1 = (r2, e2) ->
  (forall a, grows (k a)) ->
  (forall x, grows (handler x)) ->
  (forall x e0, exists b e', handler x e0 = (Returned b, e')) ->
  exists r e',
    try_except (bind m1 (fun _ => bind m2 k)) is_Exception handler e
      = (Returned r, e') /\
    percentages e2 `prefix_of` percentages e'.
Proof.
  intros E1 E2 Hk Hh Hret. unfold try_except.
  erewrite bind_Returned by exact E1.
  unfold bind. rewrite E2.
  destruct r2 as [a|x].
  - destruct (Hk a e2) as [P _].
    destruct (k a e2) as [[b|x] e3]; cbn in *.
    + eauto.
    + destruct (Hh x e3) as [P' _].
      destruct (Hret x e3) as (b & e4 & E4). rewrite E4 in *. cbn in *.
      eexists _, _. split; [reflexivity|]. etrans; eassumption.
  - cbn. destruct (Hh x e2) as [P' _].
    destruct (Hret x e2) as (b & e4 & E4). rewrite E4 in *. cbn in *.
    eauto.
Qed.
End grows.

Create HintDb grows.
#[global] Hint Resolve grows_ret grows_raise grows_get grows_lift
  grows_call_progress grows_call_status grows_update_progress
  grows_set_before_state grows_set_after_state grows_set_cleanup_results
  grows_on_disk grows_capture_system_state : grows.

Ltac grows_step :=
  first [ solve [auto with grows]
        | apply grows_bind; [|intros ?]
        | apply grows_try_except; [|intros ?] ].

End ProgressFacts.

(** ** At the depth limit; roots that are not there *)

Module DepthFacts.
Import Main MainSpec MainFacts OrderFacts.

Lemma filter_is_dir_stays items :
  List.filter is_dir (List.filter stays_at_limit items) = List.filter is_dir items.
Proof.
  induction items as [|[f|n li re ch] rest IH]; [reflexivity| |].
  - cbn [List.filter stays_at_limit is_dir].
    destruct (f_locked f || negb (f_stat_ok f && f_unlink_ok f)); exact IH.
  - cbn [List.filter stays_at_limit is_dir]. rewrite IH. reflexivity.
Qed.

Lemma safe_delete_file_left p f t r t' :
  safe_delete_file p (Some f) t = (Returned r, t') ->
  option_list (File <$> snd r) = List.filter stays_at_limit [File f].
Proof.
  cbn [List.filter stays_at_limit].
  destruct (f_locked f) eqn:Hl.
  - rewrite safe_delete_file_locked by exact Hl. intros [= <- _]. reflexivity.
  - destruct (f_stat_ok f && f_unlink_ok f) eqn:Hs.
    + apply andb_true_iff in Hs as [Hs Hu].
      rewrite safe_delete_file_deleted by assumption. intros [= <- _].
      reflexivity.
    + rewrite safe_delete_file_failed by assumption. intros [= <- _].
      reflexivity.
Qed.

Lemma for_item_at_limit directory md items t kept t' :
  for_item directory md md items t = (Returned kept, t') ->
  kept = List.filter stays_at_limit items /\
  exists new, trace t' = trace t ++ new /\ Forall (shallow directory) new.
Proof.
  revert t kept t'. induction items as [|item rest IH]; intros t kept t' E.
  - injection E as <- <-. split; [reflexivity|].
    exists []. rewrite app_nil_r. auto.
  - apply for_item_cons_inv in E as (k1 & t1 & k2 & E1 & E2 & ->).
    rewrite Z.ltb_irrefl in E1.
    destruct (IH _ _ _ E2) as (-> & new2 & T2 & S2).
    destruct item as [f|n listable removable children].
    + apply bind_Returned_inv in E1 as (r & t0 & E0 & E1).
      injection E1 as <- <-.
      pose proof (safe_delete_file_left _ _ _ _ _ E0) as Hleft.
      apply safe_delete_file_trace in E0 as (new1 & T1 & F1).
      split.
      * rewrite Hleft. cbn [List.filter].
        destruct (stays_at_limit (File f)); reflexivity.
      * exists (new1 ++ new2). split; [rewrite T2, T1, app_assoc; reflexivity|].
        apply Forall_app. split; [|exact S2].
        eapply Forall_impl; [exact F1|]. intros o [Ho _]. right. eauto.
    + injection E1 as <- <-. split; [reflexivity|]. exists new2. auto.
Qed.

End DepthFacts.

Module RootFacts.




End RootFacts.

(** ** A failure among the entries; the calls at the depth limit *)

Module ContinueFacts.
Import Main MainSpec MainFacts OrderFacts DepthFacts.

Lemma stays_not_deletable f : stays_at_limit (File f) = negb (deletable f).
Proof.
  unfold stays_at_limit, deletable.
  destruct (f_locked f), (f_stat_ok f && f_unlink_ok f); reflexivity.
Qed.

(** The calls [safe_delete_file] makes are calls on its file. *)
Lemma safe_delete_file_file_ops p f t r t' :
  safe_delete_file p (Some f) t = (Returned r, t') ->
  exists new,
    trace t' = trace t ++ OpExists p :: new /\
    Forall (fun o => op_path o = p /\ is_file_op o = true) (OpExists p :: new).
Proof.
  destruct (f_locked f) eqn:Hl.
  - rewrite safe_delete_file_locked by exact Hl. intros [= _ <-].
    eexists. split; [reflexivity|]. repeat constructor.
  - destruct (f_stat_ok f && f_unlink_ok f) eqn:Hs.
    + apply andb_true_iff in Hs as [Hs Hu].
      rewrite safe_delete_file_deleted by assumption. intros [= _ <-].
      eexists. split; [reflexivity|]. repeat constructor.
    + rewrite safe_delete_file_failed by assumption. intros [= _ <-].
      eexists. split; [reflexivity|].
      destruct (f_stat_ok f); repeat constructor.
Qed.

(** At the depth limit every call of the loop is on a file among the
    entries. *)
Lemma for_item_at_limit_files directory md items t kept t' :
  for_item directory md md items t = (Returned kept, t') ->
  exists new,
    trace t' = trace t ++ new /\
    Forall (on_file_entry directory items) new.
Proof.
  revert t kept t'. induction items as [|item rest IH]; intros t kept t' E.
  - injection E as <- <-. exists []. rewrite app_nil_r. auto.
  - apply for_item_cons_inv in E as (k1 & t1 & k2 & E1 & E2 & ->).
    rewrite Z.ltb_irrefl in E1.
    destruct (IH _ _ _ E2) as (new2 & T2 & S2).
    assert (S2' : Forall (on_file_entry directory (item :: rest)) new2).
    { eapply Forall_impl; [exact S2|]. intros o (Ho & g & Hg & Hp).
      split; [exact Ho|]. exists g. split; [apply list_elem_of_further, Hg|exact Hp]. }
    destruct item as [f|n listable removable children].
    + apply bind_Returned_inv in E1 as (r & t0 & E0 & E1).
      injection E1 as _ <-.
      apply safe_delete_file_file_ops in E0 as (new1 & T1 & F1).
      exists ((OpExists (directory ++ [f_name f]) :: new1) ++ new2).
      split; [rewrite T2, T1, app_assoc; reflexivity|].
      apply Forall_app. split; [|exact S2'].
      eapply Forall_impl; [exact F1|]. intros o [Ho Hf].
      split; [exact Hf|]. exists f. split; [apply list_elem_of_here|exact Ho].
    + injection E1 as _ <-. exists new2. auto.
Qed.

(** The sweep of a directory gives a directory back. *)
Lemma clean_gives_Dir directory name listable removable children md cd t n' t' :
  _clean_directory_recursive directory (Dir name listable removable children)
                             md cd t = (Returned n', t') ->
  exists children', n' = Dir name listable removable children'.
Proof.
  intros E. apply clean_Dir_inv in E
    as [(_ & -> & _)|[(_ & _ & -> & _)|(_ & _ & kept & _ & ->)]]; eauto.
Qed.

(** One entry of the loop: the trace and the errors only grow, a file is
    probed first, and what is kept of a file is the file itself, kept
    exactly when it is not deletable. *)
Lemma entry_goes_on directory md cd item t k1 t1 :
  match item with
  | File f =>
      r <- safe_delete_file (directory ++ [f_name f]) (Some f);;
      ret (option_list (File <$> snd r))
  | Dir n _ _ _ =>
      if cd <? md then
        item' <- _clean_directory_recursive (directory ++ [n]) item md (cd + 1);;
        remove_if_empty (directory ++ [n]) item'
      else ret [item]
  end t = (Returned k1, t1) ->
  exists new,
    trace t1 = trace t ++ new /\
    errors_encountered (stats t) <= errors_encountered (stats t1) /\
    match item with
    | File f =>
        (exists rest, new = OpExists (directory ++ [f_name f]) :: rest) /\
        k1 = (if deletable f then [] else [File f]) /\
        (f_locked f = false -> deletable f = false ->
         errors_encountered (stats t) + 1 <= errors_encountered (stats t1)) /\
        (f_locked f = false -> f_stat_ok f = true ->
         OpUnlink (directory ++ [f_name f]) ∈ new)
    | Dir _ _ _ _ => forall g, File g ∉ k1
    end.
Proof.
  destruct item as [f|n listable removable children].
  - intros E. apply bind_Returned_inv in E as (r & t0 & E0 & E1).
    injection E1 as <- <-. revert E0. unfold deletable.
    destruct (f_locked f) eqn:Hl.
    + rewrite safe_delete_file_locked by exact Hl. intros [= <- <-].
      eexists. split; [reflexivity|]. cbn. split; [lia|].
      split; [eauto|]. split; [reflexivity|]. split; discriminate.
    + destruct (f_stat_ok f && f_unlink_ok f) eqn:Hs.
      * apply andb_true_iff in Hs as [Hs Hu].
        rewrite safe_delete_file_deleted by assumption. intros [= <- <-].
        eexists. split; [reflexivity|]. cbn. split; [lia|].
        split; [eauto|]. split; [reflexivity|]. split; [discriminate|].
        intros _ _. set_solver.
      * rewrite safe_delete_file_failed by assumption. intros [= <- <-].
        eexists. split; [reflexivity|]. cbn. split; [lia|].
        split; [eauto|]. split; [reflexivity|]. split; [intros; lia|].
        intros _ Hs'. rewrite Hs'. set_solver.
  - destruct (cd <? md).
    + intros E. apply bind_Returned_inv in E as (item' & t0 & E0 & E1).
      destruct (clean_run (Dir n listable removable children)
                  (directory ++ [n]) md (cd + 1) t)
        as (n' & t0' & new0 & E0' & R0).
      rewrite E0 in E0'. injection E0' as <- <-.
      destruct (clean_gives_Dir _ _ _ _ _ _ _ _ _ _ E0) as (ch' & ->).
      destruct (remove_if_empty_run (directory ++ [n])
                  (Dir n listable removable ch') t0)
        as (kept & new & E & Hk).
      rewrite E in E1. injection E1 as <- <-.
      destruct R0. exists (new0 ++ new). cbn.
      split; [rewrite run_trace0, app_assoc; reflexivity|].
      split; [exact run_errors0|].
      intros g Hg.
      destruct Hk as [[-> _]|(-> & _)].
      * apply list_elem_of_singleton in Hg. discriminate.
      * inversion Hg.
    + intros [= <- <-]. exists []. rewrite app_nil_r.
      split; [reflexivity|]. split; [lia|].
      intros g Hg. apply list_elem_of_singleton in Hg. discriminate.
Qed.

(** The loop over a listing: the errors only grow, every file among the
    entries is probed, and the files kept are the files that are not
    deletable. *)
Lemma for_item_goes_on items :
  forall directory md cd t kept t',
    for_item directory md cd items t = (Returned kept, t') ->
    exists new,
      trace t' = trace t ++ new /\
      errors_encountered (stats t) <= errors_encountered (stats t') /\
      (forall g, File g ∈ items -> OpExists (directory ++ [f_name g]) ∈ new) /\
      (forall g, File g ∈ kept <-> File g ∈ items /\ deletable g = false).
Proof.
  induction items as [|item rest IH]; intros directory md cd t kept t' E.
  - injection E as <- <-. exists []. rewrite app_nil_r.
    split; [reflexivity|]. split; [lia|].
    split; [intros g Hg; inversion Hg|].
    intros g. split; [intros Hg; inversion Hg|intros [Hg _]; inversion Hg].
  - apply for_item_cons_inv in E as (k1 & t1 & k2 & E1 & E2 & ->).
    destruct (entry_goes_on _ _ _ _ _ _ _ E1) as (new1 & T1 & R1 & H1).
    destruct (IH _ _ _ _ _ _ E2) as (new2 & T2 & R2 & V2 & K2).
    exists (new1 ++ new2).
    split; [rewrite T2, T1, app_assoc; reflexivity|].
    split; [lia|].
    destruct item as [f|n listable removable children].
    + destruct H1 as ((rest1 & ->) & -> & _).
      split.
      * intros g Hg. apply elem_of_cons in Hg as [[= <-]|Hg].
        -- apply elem_of_app. left. apply list_elem_of_here.
        -- apply elem_of_app. right. apply V2, Hg.
      * intros g. rewrite elem_of_app, K2, elem_of_cons.
        destruct (deletable f) eqn:Hd.
        -- split.
           ++ intros [Hg|[Hg Hn]]; [inversion Hg|auto].
           ++ intros [[[= ->]|Hg] Hn]; [congruence|auto].
        -- rewrite list_elem_of_singleton. split.
           ++ intros [[= ->]|[Hg Hn]]; auto.
           ++ intros [[[= ->]|Hg] Hn]; auto.
    + split.
      * intros g Hg. apply elem_of_cons in Hg as [Hg|Hg]; [discriminate|].
        apply elem_of_app. right. apply V2, Hg.
      * intros g. rewrite elem_of_app, K2, elem_of_cons. split.
        -- intros [Hg|[Hg Hn]]; [exfalso; exact (H1 g Hg)|auto].
        -- intros [[Hg|Hg] Hn]; [discriminate|auto].
Qed.

(** The loop over [before ++ item :: after] is the loop over [before], the
    entry [item] and the loop over [after], one after the other. *)
Lemma for_item_app_inv before :
  forall directory md cd rest t kept t',
    for_item directory md cd (before ++ rest) t = (Returned kept, t') ->
    exists k1 t1 k2,
      for_item directory md cd before t = (Returned k1, t1) /\
      for_item directory md cd rest t1 = (Returned k2, t') /\
      kept = k1 ++ k2.
Proof.
  induction before as [|item before IH]; intros directory md cd rest t kept t' E.
  - exists [], t, kept. auto.
  - cbn [app] in E.
    apply for_item_cons_inv in E as (k1 & t1 & k2 & E1 & E2 & ->).
    destruct (IH _ _ _ _ _ _ _ E2) as (k3 & t3 & k4 & E3 & E4 & ->).
    exists (k1 ++ k3), t3, k4. split; [|split; [exact E4|apply app_assoc]].
    cbn [for_item]. erewrite bind_Returned by exact E1.
    erewrite bind_Returned by exact E3. reflexivity.
Qed.

End ContinueFacts.

(** ** Small runs *)

(** An empty directory: nothing counted, one listing. *)
Example sweep_empty_directory :
  Main._clean_directory_recursive ["T"] (Dir "T" true true []) 3 0
    (Main.mkTool (Main.mkStats 0 0 0 0) [] ∅)
  = (Returned (Dir "T" true true []),
     Main.mkTool (Main.mkStats 0 0 0 0) [OpListdir ["T"]] ∅).
Proof. reflexivity. Qed.

(** One file of 100 bytes: one file deleted, 100 bytes freed, and the
    directory is still there. *)
Example sweep_one_file :
  fst (Main._clean_directory_recursive ["T"]
         (Dir "T" true true [File (mkFile "a.tmp" 100 false true true)]) 3 0
         (Main.mkTool (Main.mkStats 0 0 0 0) [] ∅))
    = Returned (Dir "T" true true []) /\
  Main.stats (snd (Main._clean_directory_recursive ["T"]
         (Dir "T" true true [File (mkFile "a.tmp" 100 false true true)]) 3 0
         (Main.mkTool (Main.mkStats 0 0 0 0) [] ∅)))
    = Main.mkStats 1 100 0 0.
Proof. split; vm_compute; reflexivity. Qed.

(** One file in a sub-directory: the file goes first, then the emptied
    sub-directory. *)
Example sweep_file_in_subdirectory :
  Main._clean_directory_recursive ["T"]
    (Dir "T" true true
         [Dir "sub" true true [File (mkFile "a.tmp" 100 false true true)]]) 3 0
    (Main.mkTool (Main.mkStats 0 0 0 0) [] ∅)
  = (Returned (Dir "T" true true []),
     Main.mkTool (Main.mkStats 1 100 0 0)
       [OpListdir ["T"]; OpListdir ["T"; "sub"];
        OpExists ["T"; "sub"; "a.tmp"]; OpRename ["T"; "sub"; "a.tmp"];
        OpStat ["T"; "sub"; "a.tmp"]; OpUnlink ["T"; "sub"; "a.tmp"];
        OpListdir ["T"; "sub"]; OpRmdir ["T"; "sub"]] ∅).
Proof. vm_compute. reflexivity. Qed.

(** The V2 walk takes the files of a directory before its sub-directories,
    and counts a file that cannot be removed as processed and as an error. *)
Example v2_walk_order :
  let held := mkFile "held.tmp" 7 false true false in
  let a := mkFile "a.tmp" 100 false true true in
  let d : gmap string node :=
    {[ "C:\T" := Dir "T" true true [Dir "sub" true true [File a]; File held] ]} in
  fst (V2._cleanup_temp_files (mkEnv (Some "C:\T") None "C:\Users\u") d) =
    Returned (V2.mkCleanupResult "Temporary Files" 2 1 100 1
                [V2.Processed 2 1; V2.SpaceFreed 100]).
Proof. vm_compute. reflexivity. Qed.

(** * The claims *)

(** C1, as stated, fails on the browser cache path.  The cache holds one
    directory with one file of 1000 bytes whose size cannot be read:
    [rmtree] removes the file and the directory, so 1000 bytes have gone,
    and the size reported is 0, the difference between the two measures of
    the cache, none of which saw the file. *)
Lemma C1_counterexample :
  let x := mkFile "x" 1000 false false true in
  let d := Dir "d" true true [File x] in
  let c := Browser.mkCleaner 0 0 [] {[ "cache" := Dir "cache" true true [d] ]}
             [] "C:/Users/u" in
  exists c',
    Browser.safe_remove_cache_directory ["cache"] c
      = (Returned (true, 0), c') /\
    Browser.disk c' !! "cache" = Some (Dir "cache" true true []) /\
    total_size (Dir "cache" true true [d])
    - total_size (Dir "cache" true true []) = 1000.
Proof.
  cbv zeta. eexists. split; [vm_compute; reflexivity|].
  split; reflexivity.
Qed.

(** C1, amended.  In the temp sweep every deleted file adds its size, read
    by [stat] before the [unlink], to [temp_size_freed], and over a whole
    sweep the freed bytes and the deleted count are exactly the bytes and the
    files that have gone from the tree.  [safe_remove_cache_directory]
    instead reports the measured size of the cache directory before its loop
    minus the measured size after it; where every file below the directory
    can be measured, that is the size of what has gone from the directory. *)
Theorem C1_freed_bytes :
  (forall p f t,
      f_locked f = false -> f_stat_ok f = true -> f_unlink_ok f = true ->
      exists t',
        Main.safe_delete_file p (Some f) t = (Returned (true, None), t') /\
        Main.trace t'
          = Main.trace t ++ [OpExists p; OpRename p; OpStat p; OpUnlink p] /\
        Main.temp_size_freed (Main.stats t')
          = Main.temp_size_freed (Main.stats t) + f_size f /\
        Main.temp_files_deleted (Main.stats t')
          = Main.temp_files_deleted (Main.stats t) + 1) /\
  (forall n directory max_depth current_depth t,
      exists n' t',
        Main._clean_directory_recursive directory n max_depth current_depth t
          = (Returned n', t') /\
        Main.temp_size_freed (Main.stats t') - Main.temp_size_freed (Main.stats t)
          = total_size n - total_size n' /\
        Main.temp_files_deleted (Main.stats t')
          - Main.temp_files_deleted (Main.stats t)
          = count_files n - count_files n') /\
  (forall root c name removable children,
      Browser.disk c !! root = Some (Dir name true removable children) ->
      measurable (Dir name true removable children) = true ->
      exists size_freed c' kept,
        Browser.safe_remove_cache_directory [root] c
          = (Returned (true, size_freed), c') /\
        Browser.disk c' !! root = Some (Dir name true removable kept) /\
        size_freed =
          Browser.get_directory_size (Some (Dir name true removable children))
          - Browser.get_directory_size (Some (Dir name true removable kept)) /\
        size_freed = total_size (Dir name true removable children)
                     - total_size (Dir name true removable kept)).
Proof.
  split; [|split].
  - intros p f t Hl Hs Hu. eexists.
    split; [apply MainFacts.safe_delete_file_deleted; assumption|].
    cbn. auto.
  - intros n directory md cd t.
    destruct (MainFacts.clean_run n directory md cd t) as (n' & t' & new & E & R).
    exists n', t'. split; [exact E|]. destruct R. lia.
  - intros root c name removable children Hroot Hm.
    destruct (BrowserFacts.safe_remove_cache_directory_total
                root c name removable children Hroot Hm)
      as (size_freed & c' & kept & E & D & Htotal).
    destruct (BrowserFacts.safe_remove_cache_directory_returns [root] c)
      as (ok & size_freed' & c2 & E2 & _ & Hsize & _).
    rewrite E in E2. injection E2 as <- <- <-.
    exists size_freed, c', kept.
    split; [exact E|]. split; [exact D|]. split; [|exact Htotal].
    rewrite Hsize. cbn [disk_lookup]. rewrite Hroot, D. reflexivity.
Qed.

(** A deletable file of 100 bytes, and a cache directory where everything
    can be measured and one file of 50 bytes cannot be removed. *)
Lemma C1_freed_bytes_witness :
  let f := mkFile "a.tmp" 100 false true true in
  let t := Main.mkTool (Main.mkStats 0 0 0 0) [] ∅ in
  let b := mkFile "b" 50 false true false in
  let d := Dir "d" true true [File f; File b] in
  let c := Browser.mkCleaner 0 0 [] {[ "cache" := Dir "cache" true true [d] ]}
             [] "C:/Users/u" in
  (exists t',
      Main.safe_delete_file ["T"; "a.tmp"] (Some f) t = (Returned (true, None), t') /\
      Main.trace t'
        = Main.trace t ++ [OpExists ["T"; "a.tmp"]; OpRename ["T"; "a.tmp"];
                           OpStat ["T"; "a.tmp"]; OpUnlink ["T"; "a.tmp"]] /\
      Main.temp_size_freed (Main.stats t')
        = Main.temp_size_freed (Main.stats t) + f_size f /\
      Main.temp_files_deleted (Main.stats t')
        = Main.temp_files_deleted (Main.stats t) + 1) /\
  (exists size_freed c' kept,
      Browser.safe_remove_cache_directory ["cache"] c
        = (Returned (true, size_freed), c') /\
      Browser.disk c' !! "cache" = Some (Dir "cache" true true kept) /\
      size_freed =
        Browser.get_directory_size (Some (Dir "cache" true true [d]))
        - Browser.get_directory_size (Some (Dir "cache" true true kept)) /\
      size_freed = total_size (Dir "cache" true true [d])
                   - total_size (Dir "cache" true true kept)).
Proof.
  cbv zeta. destruct C1_freed_bytes as (Hfile & _ & Hcache).
  split.
  - apply Hfile; reflexivity.
  - apply Hcache; reflexivity.
Defined.

(** C2, as stated, fails: a sweep over a directory holding one locked file
    does not count the file as an error. *)
Lemma C2_counterexample :
  let held := mkFile "held.tmp" 10 true true true in
  let t := Main.mkTool (Main.mkStats 0 0 0 0) [] ∅ in
  ~ (exists n' t',
        Main._clean_directory_recursive ["T"] (Dir "T" true true [File held]) 3 0 t
          = (Returned n', t') /\
        file_at held n' ["held.tmp"] /\
        Main.errors_encountered (Main.stats t')
          = Main.errors_encountered (Main.stats t) + 1 /\
        Main.temp_files_deleted (Main.stats t')
          = Main.temp_files_deleted (Main.stats t)).
Proof.
  cbv zeta. intros (n' & t' & E & _ & Herr & _).
  vm_compute in E. injection E as _ <-. discriminate Herr.
Qed.

(** C2, amended.  A file that can be read and that [is_file_in_use] reports
    as locked is skipped by [safe_delete_file] with no counter changed,
    neither the deleted files nor the errors, and after a sweep of any tree
    that holds it the file is still where it was. *)
Theorem C2_locked_file_skipped (f : file) :
  f_locked f = true ->
  f_stat_ok f = true ->
  (forall p t,
      exists t',
        Main.is_file_in_use p (Some f) t = (Returned true, t') /\
        Main.stats t' = Main.stats t) /\
  (forall p t,
      exists t',
        Main.safe_delete_file p (Some f) t = (Returned (false, Some f), t') /\
        Main.stats t' = Main.stats t) /\
  (forall n rel directory max_depth current_depth t,
      file_at f n rel ->
      exists n' t',
        Main._clean_directory_recursive directory n max_depth current_depth t
          = (Returned n', t') /\
        file_at f n' rel).
Proof.
  intros Hf _. split; [|split].
  - intros p t. eexists. split.
    + unfold Main.is_file_in_use, try_except, bind, Main.log, modify, lift,
        os_rename_self, raise. rewrite Hf. reflexivity.
    + reflexivity.
  - intros p t. eexists.
    split; [apply MainFacts.safe_delete_file_locked; exact Hf|reflexivity].
  - intros n rel directory md cd t Hat.
    destruct (MainFacts.clean_run n directory md cd t) as (n' & t' & _ & E & _).
    exists n', t'. split; [exact E|].
    apply (LockedFacts.clean_keeps_locked n _ _ _ _ _ _ E); assumption.
Qed.

(** A locked file one directory down. *)
Lemma C2_locked_file_skipped_witness :
  let held := mkFile "held.tmp" 10 true true true in
  let n := Dir "T" true true [Dir "sub" true true [File held]] in
  let t := Main.mkTool (Main.mkStats 0 0 0 0) [] ∅ in
  exists t1 n' t',
    Main.safe_delete_file ["T"; "sub"; "held.tmp"] (Some held) t
      = (Returned (false, Some held), t1) /\
    Main.stats t1 = Main.stats t /\
    Main._clean_directory_recursive ["T"] n 3 0 t = (Returned n', t') /\
    file_at held n' ["sub"; "held.tmp"].
Proof.
  cbv zeta.
  destruct (C2_locked_file_skipped (mkFile "held.tmp" 10 true true true)
              eq_refl eq_refl) as (_ & Hskip & Hkeep).
  destruct (Hskip ["T"; "sub"; "held.tmp"]
              (Main.mkTool (Main.mkStats 0 0 0 0) [] ∅)) as (t1 & E1 & S1).
  destruct (Hkeep (Dir "T" true true
                       [Dir "sub" true true
                            [File (mkFile "held.tmp" 10 true true true)]])
                  ["sub"; "held.tmp"] ["T"] 3 0
                  (Main.mkTool (Main.mkStats 0 0 0 0) [] ∅))
    as (n' & t' & E & Hat).
  - apply (file_at_below _ "T" true true _
             (Dir "sub" true true [File (mkFile "held.tmp" 10 true true true)])
             ["held.tmp"]); [apply list_elem_of_here|].
    apply (file_at_below _ "sub" true true _
             (File (mkFile "held.tmp" 10 true true true)) []);
      [apply list_elem_of_here|apply file_at_here].
  - exists t1, n', t'. auto.
Defined.

(** C3. After [_cleanup_temp_files], over any environment and any disk
    (any tree, any pattern of per-file successes and failures), the run
    returns and its [files_deleted] is at most its [files_processed]. *)
Theorem C3_deleted_at_most_processed (env : environment) (d : gmap string node) :
  exists r d',
    V2._cleanup_temp_files env d = (Returned r, d') /\
    0 <= V2.files_deleted r <= V2.files_processed r.
Proof.
  destruct (V2Facts.for_temp_dir_returns (V2.temp_dirs env)
              (V2.mkFrame 0 0 0 0 [] d)) as (l & E & C).
  unfold V2._cleanup_temp_files.
  erewrite bind_Returned by exact E.
  cbn. eexists _, _. split; [reflexivity|].
  unfold V2Spec.counted in C. cbn in *. lia.
Qed.




(** C5, on the V2 engine.  [%TEMP%] and [%TMP%] name the same directory,
    which holds one file that cannot be removed: the directory is walked
    twice and the file is processed twice, where one target processes it
    once. *)
Lemma C5_identical_roots_walked_twice :
  let held := mkFile "held.tmp" 10 false true false in
  let d : gmap string node := {[ "C:\T" := Dir "T" true true [File held] ]} in
  let twice := mkEnv (Some "C:\T") (Some "C:\T") "C:\Users\u" in
  let once := mkEnv (Some "C:\T") None "C:\Users\u" in
  fst (V2._cleanup_temp_files twice d) =
    Returned (V2.mkCleanupResult "Temporary Files" 2 0 0 2
                [V2.Processed 2 0; V2.SpaceFreed 0]) /\
  fst (V2._cleanup_temp_files once d) =
    Returned (V2.mkCleanupResult "Temporary Files" 1 0 0 1
                [V2.Processed 1 0; V2.SpaceFreed 0]).
Proof. split; vm_compute; reflexivity. Qed.

(** The V1 tool sweeps each directory once: the roots it walks are
    distinct. *)
Lemma clean_temp_files_roots_distinct (env : environment) (d : gmap string node) :
  NoDup (filter (fun r => Is_true (Main.exists_and_is_dir d r))
                (elements (list_to_set (Main.temp_dir_candidates env) : gset string))).
Proof. apply NoDup_filter, NoDup_elements. Qed.

(** C6.  In every run of [perform_one_click_cleanup] with a progress
    callback set, the callback receives 5 and then 0: the percentage goes
    down, whatever the snapshots and the cleanup operations return. *)
Theorem C6_progress_goes_down
        {SystemState : Type} (system : nat -> exn + SystemState)
        (browser_result registry_result startup_result : V2.CleanupResult)
        (system_result memory_result : V2.CleanupResult)
        (env : environment) (e : V2.engine SystemState) :
  V2.progress_callback e = true ->
  exists r e' rest,
    V2.perform_one_click_cleanup system browser_result registry_result
      startup_result system_result memory_result env e = (Returned r, e') /\
    V2.percentages e' = V2.percentages e ++ 5 :: 0 :: rest.
Proof.
  intros Hcb.
  destruct (ProgressFacts.update_progress_delivers
              5 "Capturing system state before cleanup..." e Hcb)
    as (e1 & E1 & Hcb1 & P1).
  destruct (ProgressFacts.capture_system_state_delivers_zero system e1 Hcb1)
    as (r2 & e2 & E2 & _ & P2).
  unfold V2.perform_one_click_cleanup.
  match goal with
  | |- exists r e' rest, try_except (bind _ (fun _ => bind _ ?k)) _ ?h _ = _ /\ _ =>
      destruct (ProgressFacts.try_two_steps _ _ k h e e1 r2 e2 E1 E2)
        as (r & e' & E & [rest Hrest])
  end.
  - intros before. cbv zeta. repeat ProgressFacts.grows_step.
  - intros x. repeat ProgressFacts.grows_step.
  - intros x e0. eexists _, _. reflexivity.
  - exists r, e', rest. split; [exact E|].
    rewrite Hrest, P2, P1, <- !app_assoc. reflexivity.
Qed.

(** The percentages of a run with both snapshots taken, and of a run whose
    first snapshot fails. *)
Lemma one_click_percentages :
  let r := V2.mkCleanupResult "" 0 0 0 0 [] in
  let e : V2.engine unit := V2.mkEngine true false [] [] 0 None None [] ∅ in
  let env := mkEnv None None "C:\Users\u" in
  V2.percentages (snd (V2.perform_one_click_cleanup (fun _ => inr tt)
                         r r r r r env e))
    = [5; 0; 25; 35; 45; 55; 65; 75; 85; 0; 95; 100] /\
  V2.percentages (snd (V2.perform_one_click_cleanup
                         (fun _ => inl PermissionError) r r r r r env e))
    = [5; 0].
Proof. split; vm_compute; reflexivity. Qed.

(** A run with both snapshots taken. *)
Lemma C6_progress_goes_down_witness :
  let r := V2.mkCleanupResult "" 0 0 0 0 [] in
  let e := V2.mkEngine true false [] [] 0 None None [] ∅ in
  V2.progress_callback e = true /\
  exists (r' : V2.one_click unit) e' rest,
    V2.perform_one_click_cleanup (fun _ => inr tt) r r r r r
      (mkEnv None None "C:\Users\u") e = (Returned r', e') /\
    V2.percentages e' = V2.percentages e ++ 5 :: 0 :: rest.
Proof.
  split; [reflexivity|].
  apply (C6_progress_goes_down (fun _ => inr tt)). reflexivity.
Defined.

(** C7.  A call at the depth limit ([current_depth = max_depth], which for
    [max_depth = 0] is the call on the root), on a directory whose file
    entries can all be read, handles the direct entries only: of a directory
    that can be listed it keeps every sub-directory as it was, contents
    included, together with the files that are locked or cannot be deleted,
    and apart from the listing of the directory itself every system call it
    makes is a call on one of the file entries of the directory. *)
Theorem C7_depth_limit_not_descended
        (directory : path) (name : string) (listable removable : bool)
        (children : list node) (max_depth : Z) (t : Main.tool) :
  entries_readable children = true ->
  exists children' t' new,
    Main._clean_directory_recursive
      directory (Dir name listable removable children) max_depth max_depth t
      = (Returned (Dir name listable removable children'), t') /\
    children' =
      (if listable then List.filter stays_at_limit children else children) /\
    List.filter is_dir children' = List.filter is_dir children /\
    Main.trace t' = Main.trace t ++ new /\
    Forall (fun o => o = OpListdir directory \/
                     on_file_entry directory children o) new.
Proof.
  intros _.
  destruct (MainFacts.clean_run (Dir name listable removable children)
              directory max_depth max_depth t) as (n' & t' & _ & E & _).
  pose proof E as E'.
  apply MainFacts.clean_Dir_inv in E'
    as [(Hgt & _)|[(_ & -> & -> & ->)|(_ & -> & kept & E' & ->)]].
  - rewrite Z.gtb_ltb, Z.ltb_irrefl in Hgt. discriminate.
  - exists children. eexists _, [OpListdir directory].
    split; [exact E|]. split; [reflexivity|]. split; [reflexivity|].
    split; [reflexivity|].
    constructor; [left; reflexivity|constructor].
  - destruct (DepthFacts.for_item_at_limit _ _ _ _ _ _ E') as (-> & _).
    destruct (ContinueFacts.for_item_at_limit_files _ _ _ _ _ _ E')
      as (new & T & S).
    eexists _, t', (OpListdir directory :: new).
    split; [exact E|]. split; [reflexivity|].
    split; [apply DepthFacts.filter_is_dir_stays|].
    split; [rewrite T; cbn; rewrite <- app_assoc; reflexivity|].
    constructor; [left; reflexivity|].
    eapply Forall_impl; [exact S|]. intros o Ho. right. exact Ho.
Qed.

(** A root with a file that goes, a file held open and a sub-directory that
    holds a file, swept with [max_depth = 0]. *)
Lemma C7_depth_limit_not_descended_witness :
  let a := mkFile "a.tmp" 10 false true true in
  let held := mkFile "held.tmp" 20 true true true in
  let sub := Dir "sub" true true [File (mkFile "x.tmp" 30 false true true)] in
  let children := [File a; File held; sub] in
  let t := Main.mkTool (Main.mkStats 0 0 0 0) [] ∅ in
  exists children' t' new,
    Main._clean_directory_recursive ["T"] (Dir "T" true true children) 0 0 t
      = (Returned (Dir "T" true true children'), t') /\
    children' = (if true then List.filter stays_at_limit children else children) /\
    List.filter is_dir children' = List.filter is_dir children /\
    Main.trace t' = Main.trace t ++ new /\
    Forall (fun o => o = OpListdir ["T"] \/ on_file_entry ["T"] children o) new.
Proof.
  cbv zeta. apply C7_depth_limit_not_descended. reflexivity.
Defined.

(** C8.  In a directory that can be listed and whose file entries can all
    be read, a file whose [unlink] raises does not stop the sweep: the
    sweep returns, the error is counted, the file is still there, and the
    entries that come after it are handled after the failed [unlink]: every
    file among them is probed, and those that can be deleted are gone.  No
    sweep, of any tree, ends with an exception. *)
Theorem C8_file_failure_absorbed
        (directory : path) (name : string) (removable : bool)
        (before after : list node) (f : file)
        (max_depth current_depth : Z) (t : Main.tool) :
  current_depth <= max_depth ->
  f_locked f = false -> f_stat_ok f = true -> f_unlink_ok f = false ->
  entries_readable (before ++ after) = true ->
  (exists children' t' pre post,
      Main._clean_directory_recursive directory
        (Dir name true removable (before ++ File f :: after))
        max_depth current_depth t
      = (Returned (Dir name true removable children'), t') /\
      Main.trace t'
      = Main.trace t ++ pre ++ OpUnlink (directory ++ [f_name f]) :: post /\
      Main.errors_encountered (Main.stats t) + 1
      <= Main.errors_encountered (Main.stats t') /\
      File f ∈ children' /\
      forall g, File g ∈ after ->
                OpExists (directory ++ [f_name g]) ∈ post /\
                (deletable g = true -> File g ∉ children')) /\
  (forall n d md cd t0,
      exists n' t0',
        Main._clean_directory_recursive d n md cd t0 = (Returned n', t0')).
Proof.
  intros Hcd Hl Hs Hu _. split.
  - assert (Hdel : deletable f = false).
    { unfold deletable. rewrite Hu, andb_false_r, andb_false_r. reflexivity. }
    destruct (MainFacts.clean_run
                (Dir name true removable (before ++ File f :: after))
                directory max_depth current_depth t) as (n' & t' & _ & E & _).
    pose proof E as E'.
    apply MainFacts.clean_Dir_inv in E'
      as [(Hgt & _)|[(_ & Hfalse & _)|(_ & _ & kept & E' & ->)]].
    + rewrite Z.gtb_ltb in Hgt. apply Z.ltb_lt in Hgt. lia.
    + discriminate Hfalse.
    + apply ContinueFacts.for_item_app_inv in E'
        as (k1 & t1 & k2 & Eb & E2 & ->).
      apply MainFacts.for_item_cons_inv in E2
        as (kf & t2 & k3 & Ef & Ea & ->).
      destruct (ContinueFacts.for_item_goes_on _ _ _ _ _ _ _ Eb)
        as (newb & Tb & Rb & _ & Kb).
      destruct (ContinueFacts.entry_goes_on directory max_depth current_depth
                  (File f) t1 kf t2 Ef)
        as (newf & Tf & _ & _ & -> & Rf & Uf).
      destruct (ContinueFacts.for_item_goes_on _ _ _ _ _ _ _ Ea)
        as (newa & Ta & Ra & Va & Ka).
      rewrite Hdel in *.
      specialize (Rf Hl eq_refl). specialize (Uf Hl Hs).
      apply list_elem_of_split in Uf as (l1 & l2 & ->).
      exists (k1 ++ [File f] ++ k3), t',
        (OpListdir directory :: newb ++ l1), (l2 ++ newa).
      split; [exact E|]. split; [|split; [|split]].
      * rewrite Ta, Tf, Tb. cbn. rewrite <- ?app_assoc. cbn.
        rewrite <- ?app_assoc. reflexivity.
      * cbn in Rb. lia.
      * apply elem_of_app. right. apply list_elem_of_here.
      * intros g Hg. split.
        -- apply elem_of_app. right. apply Va, Hg.
        -- intros Hd Hin.
           apply elem_of_app in Hin as [Hin|Hin].
           ++ apply Kb in Hin as [_ Hn]. congruence.
           ++ apply elem_of_cons in Hin as [[= ->]|Hin]; [congruence|].
              apply Ka in Hin as [_ Hn]. congruence.
  - intros n d md cd t0.
    destruct (MainFacts.clean_run n d md cd t0) as (n' & t0' & _ & E & _).
    eauto.
Qed.

(** A file whose [unlink] is denied, between two files that go. *)
Lemma C8_file_failure_absorbed_witness :
  let first := mkFile "first.tmp" 4 false true true in
  let denied := mkFile "denied.tmp" 64 false true false in
  let other := mkFile "other.tmp" 8 false true true in
  let t := Main.mkTool (Main.mkStats 0 0 0 0) [] ∅ in
  (exists children' t' pre post,
      Main._clean_directory_recursive ["T"]
        (Dir "T" true true ([File first] ++ File denied :: [File other])) 3 0 t
      = (Returned (Dir "T" true true children'), t') /\
      Main.trace t'
      = Main.trace t ++ pre ++ OpUnlink (["T"] ++ [f_name denied]) :: post /\
      Main.errors_encountered (Main.stats t) + 1
      <= Main.errors_encountered (Main.stats t') /\
      File denied ∈ children' /\
      forall g, File g ∈ [File other] ->
                OpExists (["T"] ++ [f_name g]) ∈ post /\
                (deletable g = true -> File g ∉ children')) /\
  (forall n d md cd t0,
      exists n' t0',
        Main._clean_directory_recursive d n md cd t0 = (Returned n', t0')).
Proof.
  cbv zeta.
  apply (C8_file_failure_absorbed ["T"] "T" true
           [File (mkFile "first.tmp" 4 false true true)]
           [File (mkFile "other.tmp" 8 false true true)]
           (mkFile "denied.tmp" 64 false true false) 3 0);
    solve [reflexivity | lia].
Defined.

(** C9.  In a tree whose entries have distinct names, once the sweep has
    called [rmdir] on a directory it makes no further call below that
    directory: the children are done before the parent goes.  The removal
    attempt itself always returns and leaves every counter as it was. *)
Theorem C9_rmdir_after_children
        (n : node) (directory : path) (max_depth current_depth : Z)
        (t : Main.tool) :
  distinct_names n = true ->
  exists n' t' new,
    Main._clean_directory_recursive directory n max_depth current_depth t
      = (Returned n', t') /\
    Main.trace t' = Main.trace t ++ new /\
    (forall before p after,
        new = before ++ OpRmdir p :: after ->
        Forall (fun o => ~ strictly_below p (op_path o)) after) /\
    (forall p item t0,
        exists left_over t1,
          Main.remove_if_empty p item t0 = (Returned left_over, t1) /\
          Main.stats t1 = Main.stats t0).
Proof.
  intros Hd.
  destruct (MainFacts.clean_run n directory max_depth current_depth t)
    as (n' & t' & _ & E & _).
  destruct (OrderFacts.clean_tidy n _ _ _ _ _ _ Hd E) as (new & T & _ & O).
  exists n', t', new. split; [exact E|]. split; [exact T|]. split.
  - intros before p after Hsplit.
    exact (OrderFacts.post_order_split new O before p after Hsplit).
  - intros p item t0.
    destruct (MainFacts.remove_if_empty_run p item t0) as (k & ops & E0 & _).
    eexists _, _. split; [exact E0|reflexivity].
Qed.

(** Two levels of sub-directories and a file next to them. *)
Lemma C9_rmdir_after_children_witness :
  let n := Dir "T" true true
             [ Dir "a" true true
                   [ File (mkFile "x.tmp" 1 false true true);
                     Dir "b" true true [] ];
               File (mkFile "y.tmp" 2 false true true) ] in
  let t := Main.mkTool (Main.mkStats 0 0 0 0) [] ∅ in
  distinct_names n = true /\
  exists n' t' new,
    Main._clean_directory_recursive ["T"] n 3 0 t = (Returned n', t') /\
    Main.trace t' = Main.trace t ++ new /\
    (forall before p after,
        new = before ++ OpRmdir p :: after ->
        Forall (fun o => ~ strictly_below p (op_path o)) after) /\
    (forall p item t0,
        exists left_over t1,
          Main.remove_if_empty p item t0 = (Returned left_over, t1) /\
          Main.stats t1 = Main.stats t0).
Proof.
  cbv zeta. split; [reflexivity|].
  apply C9_rmdir_after_children. reflexivity.
Defined.

(** C10.  When [is_browser_running] finds the browser running,
    [clean_browser_cache] with [force = False] returns a failure with
    [size_freed] 0, and the disk and the running totals are as before: no
    cache path has been touched. *)
Theorem C10_running_browser_left_alone
        (browser_name : string) (c c1 : Browser.cleaner) :
  Browser.is_browser_running browser_name c = (Returned true, c1) ->
  exists r c',
    Browser.clean_browser_cache browser_name false c = (Returned r, c') /\
    Browser.success r = false /\
    Browser.size_freed r = Some 0 /\
    Browser.disk c' = Browser.disk c /\
    Browser.browsers_cleaned c' = Browser.browsers_cleaned c /\
    Browser.cache_size_freed c' = Browser.cache_size_freed c.
Proof.
  intros H.
  destruct (BrowserFacts.is_browser_running_configured _ _ _ H) as [cfg Hcfg].
  destruct (BrowserFacts.is_browser_running_log_only _ _ _ _ H)
    as (Hd & Hb & Hs & _).
  exists (Browser.StillRunning browser_name 0), c1.
  unfold Browser.clean_browser_cache. rewrite Hcfg. cbn [negb].
  erewrite bind_Returned by exact H.
  repeat split; assumption.
Qed.

(** Chrome is running and its cache holds a file. *)
Lemma C10_running_browser_left_alone_witness :
  let cache := "C:/Users/u/AppData/Local/Google/Chrome/User Data/Default/Cache" in
  let c := Browser.mkCleaner 0 0 []
             {[ cache := Dir "Cache" true true
                           [File (mkFile "data_0" 4096 false true true)] ]}
             [Browser.mkProcess 4 (Some "System");
              Browser.mkProcess 812 (Some "Chrome.exe")]
             "C:/Users/u" in
  exists r c',
    Browser.clean_browser_cache "Chrome" false c = (Returned r, c') /\
    Browser.success r = false /\
    Browser.size_freed r = Some 0 /\
    Browser.disk c' = Browser.disk c /\
    Browser.browsers_cleaned c' = Browser.browsers_cleaned c /\
    Browser.cache_size_freed c' = Browser.cache_size_freed c.
Proof.
  cbv zeta.
  eapply C10_running_browser_left_alone. vm_compute. reflexivity.
Defined.

(** * Further lemmas *)

(** ** The V1 sweep: depth, repetition, accounting *)

Module DepthBound.
Import Main MainSpec SweepSpec MainFacts OrderFacts.

Lemma no_deeper_weaken directory b b' new :
  (b <= b')%nat -> no_deeper directory b new -> no_deeper directory b' new.
Proof.
  intros Hb H. eapply Forall_impl; [exact H|]. cbn.
  intros o (k & Ho & Hk). exists k. split; [exact Ho|lia].
Qed.

Lemma no_deeper_entry directory name b b' new :
  (b + 1 <= b')%nat ->
  no_deeper (directory ++ [name]) b new -> no_deeper directory b' new.
Proof.
  intros Hb H. eapply Forall_impl; [exact H|]. cbn.
  intros o (k & Ho & Hk). exists (name :: k).
  split; [rewrite Ho, <- app_assoc; reflexivity|cbn; lia].
Qed.

Lemma no_deeper_on_entry directory name b new :
  (1 <= b)%nat ->
  Forall (fun o => op_path o = directory ++ [name]) new ->
  no_deeper directory b new.
Proof.
  intros Hb H. eapply Forall_impl; [exact H|]. cbn.
  intros o Ho. exists [name]. split; [exact Ho|cbn; lia].
Qed.

Lemma for_item_bounded items :
  Forall bounded items ->
  forall directory md cd t kept t',
    cd <= md ->
    for_item directory md cd items t = (Returned kept, t') ->
    exists new,
      trace t' = trace t ++ new /\
      no_deeper directory (Z.to_nat (md - cd + 1)) new.
Proof.
  induction 1 as [|item rest Hitem _ IH]; intros directory md cd t kept t' Hcd E.
  - injection E as _ <-. exists []. rewrite app_nil_r. split; [reflexivity|constructor].
  - apply for_item_cons_inv in E as (k1 & t1 & k2 & E1 & E2 & ->).
    destruct (IH _ _ _ _ _ _ Hcd E2) as (new2 & T2 & B2).
    assert (exists new1,
      trace t1 = trace t ++ new1 /\
      no_deeper directory (Z.to_nat (md - cd + 1)) new1)
      as (new1 & T1 & B1).
    { destruct item as [f|n listable removable children].
      - apply bind_Returned_inv in E1 as (r & t0 & E0 & E1).
        injection E1 as _ <-.
        apply safe_delete_file_trace in E0 as (new1 & T & F).
        exists new1. split; [exact T|].
        apply (no_deeper_on_entry directory (f_name f)); [lia|].
        eapply Forall_impl; [exact F|]. intros o [Ho _]. exact Ho.
      - destruct (cd <? md) eqn:Hlt.
        + apply Z.ltb_lt in Hlt.
          apply bind_Returned_inv in E1 as (item' & t0 & E0 & E1).
          destruct (Hitem _ _ _ _ _ _ E0) as (new0 & T0 & B0).
          destruct (remove_if_empty_run (directory ++ [n]) item' t0)
            as (kept & new & E & Hk).
          rewrite E in E1. injection E1 as _ <-.
          exists (new0 ++ new). cbn [trace].
          split; [rewrite T0, app_assoc; reflexivity|].
          apply Forall_app. split.
          * eapply no_deeper_entry; [|exact B0]. lia.
          * apply (no_deeper_on_entry directory n); [lia|].
            destruct Hk as [[_ [->| ->]]|(_ & -> & _)]; repeat constructor.
        + injection E1 as _ <-. exists []. rewrite app_nil_r.
          split; [reflexivity|constructor]. }
    exists (new1 ++ new2). split; [rewrite T2, T1, app_assoc; reflexivity|].
    apply Forall_app. split; assumption.
Qed.

Lemma clean_bounded n : bounded n.
Proof.
  assert (Hlist : forall directory b,
             no_deeper directory b [OpListdir directory]).
  { intros directory b. constructor; [|constructor].
    exists []. rewrite app_nil_r. split; [reflexivity|cbn; lia]. }
  induction n as [f|name listable removable children IH] using node_ind';
    intros directory md cd t n' t' E.
  - cbn [_clean_directory_recursive] in E.
    destruct (cd >? md) eqn:Hgt; cbn in E; injection E as _ <-.
    + exists []. rewrite app_nil_r. split; [reflexivity|constructor].
    + exists [OpListdir directory]. split; [reflexivity|apply Hlist].
  - apply clean_Dir_inv in E
      as [(_ & _ & ->)|[(_ & _ & _ & ->)|(Hgt & _ & kept & E & _)]].
    + exists []. rewrite app_nil_r. split; [reflexivity|constructor].
    + exists [OpListdir directory]. split; [reflexivity|apply Hlist].
    + assert (Hcd : cd <= md).
      { rewrite Z.gtb_ltb in Hgt. apply Z.ltb_ge in Hgt. exact Hgt. }
      destruct (for_item_bounded children IH _ _ _ _ _ _ Hcd E)
        as (new & T & B).
      exists (OpListdir directory :: new).
      split; [rewrite T; cbn; rewrite <- app_assoc; reflexivity|].
      apply Forall_cons. split; [|exact B].
      exists []. rewrite app_nil_r. split; [reflexivity|cbn; lia].
Qed.

End DepthBound.

Module Settled.
Import Main MainSpec SweepSpec MainFacts OrderFacts DepthFacts.

Lemma quiet_refl t : quiet t t.
Proof. split; reflexivity. Qed.

Lemma quiet_trans t1 t2 t3 : quiet t1 t2 -> quiet t2 t3 -> quiet t1 t3.
Proof. intros [] []. split; congruence. Qed.

(** What the removal attempt leaves does not depend on the tool. *)
Lemma remove_if_empty_again p item t k t1 :
  remove_if_empty p item t = (Returned k, t1) ->
  forall t2, exists t3,
    remove_if_empty p item t2 = (Returned k, t3) /\ quiet t2 t3.
Proof.
  unfold remove_if_empty, try_except, bind, log, modify, lift, ret, raise.
  destruct item as [f|name listable removable children]; cbn.
  - intros [= <- _] t2. eexists. split; [reflexivity|split; reflexivity].
  - destruct listable; cbn.
    + destruct children as [|x l]; cbn.
      * destruct removable; cbn; intros [= <- _] t2; eexists;
          (split; [reflexivity|split; reflexivity]).
      * intros [= <- _] t2. eexists. split; [reflexivity|split; reflexivity].
    + intros [= <- _] t2. eexists. split; [reflexivity|split; reflexivity].
Qed.

(** A file that stayed stays again, and nothing is counted as deleted. *)
Lemma safe_delete_file_again p f t2 :
  stays_at_limit (File f) = true ->
  exists t3,
    safe_delete_file p (Some f) t2 = (Returned (false, Some f), t3) /\
    quiet t2 t3.
Proof.
  cbn [stays_at_limit]. intros Hs.
  destruct (f_locked f) eqn:Hl.
  - eexists. split; [apply safe_delete_file_locked; exact Hl|split; reflexivity].
  - cbn in Hs. apply negb_true_iff in Hs.
    eexists. split; [apply safe_delete_file_failed; assumption|split; reflexivity].
Qed.

Lemma for_item_settles items :
  Forall settles items ->
  forall directory md cd t kept t',
    for_item directory md cd items t = (Returned kept, t') ->
    forall t2, exists t3,
      for_item directory md cd kept t2 = (Returned kept, t3) /\ quiet t2 t3.
Proof.
  induction 1 as [|item rest Hitem _ IH]; intros directory md cd t kept t' E t2.
  - injection E as <- _. exists t2. split; [reflexivity|apply quiet_refl].
  - apply for_item_cons_inv in E as (k1 & t1 & k2 & E1 & E2 & ->).
    destruct item as [f|n listable removable children].
    + apply bind_Returned_inv in E1 as (r & t0 & E0 & E1).
      injection E1 as <- <-.
      rewrite (safe_delete_file_left _ _ _ _ _ E0). cbn [List.filter].
      destruct (stays_at_limit (File f)) eqn:Hs; cbn [app].
      * destruct (safe_delete_file_again (directory ++ [f_name f]) f t2 Hs)
          as (t3 & E3 & Q3).
        destruct (IH _ _ _ _ _ _ E2 t3) as (t4 & E4 & Q4).
        exists t4. split; [|eapply quiet_trans; eassumption].
        cbn [for_item].
        erewrite bind_Returned
          by (erewrite bind_Returned by exact E3; reflexivity).
        erewrite bind_Returned by exact E4. reflexivity.
      * exact (IH _ _ _ _ _ _ E2 t2).
    + destruct (cd <? md) eqn:Hlt.
      * apply bind_Returned_inv in E1 as (item' & t0 & E0 & E1).
        assert (Hdir : exists ch', item' = Dir n listable removable ch').
        { pose proof E0 as E0'.
          apply clean_Dir_inv in E0'
            as [(_ & -> & _)|[(_ & _ & -> & _)|(_ & _ & kept' & _ & ->)]];
            eauto. }
        destruct Hdir as [ch' ->].
        destruct (remove_if_empty_run (directory ++ [n])
                    (Dir n listable removable ch') t0)
          as (kept & new & E & Hk).
        rewrite E in E1. injection E1 as <- <-.
        destruct Hk as [[-> _]|(-> & _)]; cbn [app].
        -- destruct (Hitem _ _ _ _ _ _ E0 t2) as (t3 & E3 & Q3).
           destruct (remove_if_empty_again _ _ _ _ _ E t3) as (t4 & E4 & Q4).
           destruct (IH _ _ _ _ _ _ E2 t4) as (t5 & E5 & Q5).
           exists t5. split; [|eapply quiet_trans; [eapply quiet_trans|]; eassumption].
           cbn [for_item]. rewrite Hlt.
           erewrite bind_Returned
             by (erewrite bind_Returned by exact E3; exact E4).
           erewrite bind_Returned by exact E5. reflexivity.
        -- exact (IH _ _ _ _ _ _ E2 t2).
      * injection E1 as <- <-.
        destruct (IH _ _ _ _ _ _ E2 t2) as (t3 & E3 & Q3).
        exists t3. split; [|exact Q3].
        cbn [for_item app]. rewrite Hlt.
        erewrite bind_Returned by reflexivity.
        erewrite bind_Returned by exact E3. reflexivity.
Qed.

Lemma clean_settles n : settles n.
Proof.
  induction n as [f|name listable removable children IH] using node_ind';
    intros directory md cd t n' t' E t2.
  - cbn [_clean_directory_recursive] in E.
    destruct (cd >? md) eqn:Hgt; cbn in E; injection E as <- _;
      cbn [_clean_directory_recursive]; rewrite Hgt;
      eexists; (split; [reflexivity|split; reflexivity]).
  - apply clean_Dir_inv in E
      as [(Hgt & -> & _)|[(Hgt & -> & -> & _)|(Hgt & -> & kept & E & ->)]].
    + rewrite clean_Dir, Hgt. exists t2. split; [reflexivity|apply quiet_refl].
    + rewrite clean_Dir, Hgt. eexists. split; [reflexivity|split; reflexivity].
    + destruct (for_item_settles children IH _ _ _ _ _ _ E
                  (logged t2 (OpListdir directory))) as (t3 & E3 & Q3).
      exists t3. split; [|exact Q3].
      rewrite clean_Dir, Hgt.
      apply try_except_Returned.
      erewrite bind_Returned by reflexivity. cbn [negb].
      erewrite bind_Returned by exact E3. reflexivity.
Qed.

End Settled.

Module DiskFacts.

Lemma disk_sum_delete f (d : gmap string node) k n :
  d !! k = Some n -> disk_sum f d = f n + disk_sum f (delete k d).
Proof.
  intros H. unfold disk_sum.
  apply (map_fold_delete_L (fun _ n acc => f n + acc)); [|exact H].
  intros. lia.
Qed.

Lemma disk_sum_insert f (d : gmap string node) k n n' :
  d !! k = Some n ->
  disk_sum f (<[k := n']> d) = disk_sum f d - f n + f n'.
Proof.
  intros H.
  rewrite (disk_sum_delete f (<[k := n']> d) k n') by apply lookup_insert_eq.
  rewrite (disk_sum_delete f d k n H).
  rewrite delete_insert_eq. lia.
Qed.

End DiskFacts.

Module TempFacts.
Import Main MainSpec SweepSpec MainFacts DiskFacts.

Lemma balanced_refl t : balanced t t.
Proof. repeat split; lia. Qed.

Lemma balanced_trans t1 t2 t3 : balanced t1 t2 -> balanced t2 t3 -> balanced t1 t3.
Proof.
  intros (A1 & B1 & C1 & D1) (A2 & B2 & C2 & D2).
  repeat split; try lia; congruence.
Qed.

Lemma clean_directory_at_balanced root md cd t :
  exists t', clean_directory_at root md cd t = (Returned tt, t') /\ balanced t t'.
Proof.
  unfold clean_directory_at. erewrite bind_Returned by reflexivity.
  destruct (disk t !! root) as [dnode|] eqn:Hroot.
  - destruct (clean_run dnode [root] md cd t) as (n' & t1 & new & E & R).
    eexists. split; [erewrite bind_Returned by exact E; reflexivity|].
    destruct R. unfold balanced. cbn.
    rewrite run_disk0, !(disk_sum_insert _ _ _ _ _ Hroot).
    repeat split; try lia.
    apply dom_insert_lookup_L. eauto.
  - destruct (cd >? md).
    + exists t. split; [reflexivity|apply balanced_refl].
    + eexists. split; [reflexivity|]. unfold balanced. cbn. repeat split; lia.
Qed.

Lemma for_temp_dir_balanced dirs t :
  exists t', for_temp_dir dirs t = (Returned tt, t') /\ balanced t t'.
Proof.
  revert t. induction dirs as [|temp_dir rest IH]; intros t.
  - exists t. split; [reflexivity|apply balanced_refl].
  - destruct (clean_directory_at_balanced temp_dir 3 0 t) as (t1 & E1 & B1).
    destruct (IH t1) as (t2 & E2 & B2).
    exists t2. split; [|eapply balanced_trans; eassumption].
    cbn [for_temp_dir]. erewrite bind_Returned by exact E1. exact E2.
Qed.

Lemma length_elements_list_to_set (l : list string) :
  (length (elements (list_to_set l : gset string)) <= length l)%nat.
Proof.
  apply submseteq_length, NoDup_submseteq; [apply NoDup_elements|].
  intros x Hx. apply elem_of_elements, elem_of_list_to_set in Hx. exact Hx.
Qed.

End TempFacts.

(** ** The V2 walk and the loop over its roots *)

Module V2Walk.
Import V2 V2Spec V2WalkSpec V2Facts.

Lemma skeleton_Dir name listable removable children :
  skeleton (Dir name listable removable children) =
  [Dir name listable removable (flat_map skeleton children)].
Proof.
  reflexivity.
Qed.

Lemma left_by_walk_Dir name removable children :
  left_by_walk (Dir name true removable children) =
  Dir name true removable (flat_map keep_entry children).
Proof.
  reflexivity.
Qed.

Lemma stepped_refl l : stepped l l 0 0.
Proof. split; lia || reflexivity. Qed.

Lemma stepped_trans l1 l2 l3 dn1 dn2 ds1 ds2 :
  stepped l1 l2 dn1 ds1 -> stepped l2 l3 dn2 ds2 ->
  stepped l1 l3 (dn1 + dn2) (ds1 + ds2).
Proof. intros [] []. split; lia || congruence. Qed.

Lemma stepped_eq l l' dn ds dn' ds' :
  stepped l l' dn ds -> dn = dn' -> ds = ds' -> stepped l l' dn' ds'.
Proof. intros H -> ->. exact H. Qed.

Lemma for_file_stepped f l :
  exists o' l',
    for_file (Some f) l = (Returned o', l') /\
    o' = (if f_stat_ok f && f_unlink_ok f then None else Some f) /\
    stepped l l' (1 - count_files_list (option_list (File <$> o')))
            (f_size f - total_size_list (option_list (File <$> o'))).
Proof.
  unfold for_file, try_except, bind, lift, stat_size, os_unlink, ret, raise,
    incr_files_processed, incr_files_deleted, add_space_freed, incr_errors, modify.
  cbn. destruct (f_stat_ok f); cbn; [destruct (f_unlink_ok f); cbn|];
    eexists _, _; (split; [reflexivity|]); (split; [auto|]);
    split; cbn; lia || reflexivity.
Qed.

Lemma for_files_stepped items l :
  exists lefts l',
    for_files items l = (Returned lefts, l') /\
    Forall2 slot_of items lefts /\
    stepped l l' (count_files_list items - count_files_list (concat lefts))
            (total_size_list items - total_size_list (concat lefts)).
Proof.
  revert l. induction items as [|item rest IH]; intros l.
  - exists [], l. split; [reflexivity|]. split; [constructor|].
    eapply stepped_eq; [apply stepped_refl| |]; reflexivity.
  - cbn [for_files].
    assert (exists kept l1,
      match item with
      | File f => o <- for_file (Some f);; ret (option_list (File <$> o))
      | Dir _ _ _ _ => ret [item]
      end l = (Returned kept, l1) /\ slot_of item kept /\
      stepped l l1 (count_files item - count_files_list kept)
              (total_size item - total_size_list kept))
      as (kept & l1 & E1 & S1 & A1).
    { destruct item as [f|n listable removable children].
      - destruct (for_file_stepped f l) as (o' & l1 & E & Ho & A).
        eexists _, l1. split; [erewrite bind_Returned by exact E; reflexivity|].
        split; [|exact A].
        rewrite Ho. cbn. destruct (f_stat_ok f && f_unlink_ok f); reflexivity.
      - eexists _, l. split; [reflexivity|]. split; [reflexivity|].
        eapply stepped_eq; [apply stepped_refl| |];
          unfold count_files_list, total_size_list; cbn [fold_right]; lia. }
    destruct (IH l1) as (lefts & l2 & E2 & S2 & A2).
    eexists _, l2. split; [|split].
    + erewrite bind_Returned by exact E1.
      erewrite bind_Returned by exact E2. reflexivity.
    + constructor; assumption.
    + eapply stepped_eq; [eapply stepped_trans; eassumption| |];
        cbn [concat]; rewrite ?count_files_list_app, ?total_size_list_app;
        unfold count_files_list, total_size_list; cbn [fold_right]; lia.
Qed.

Lemma walk_stepped n : walk_accounts n.
Proof.
  induction n as [f|name listable removable children IH] using node_ind';
    intros l.
  - exists (File f), l. split; [reflexivity|]. split; [reflexivity|].
    split; [reflexivity|].
    eapply stepped_eq; [apply stepped_refl| |]; lia.
  - cbn [walk]. destruct listable; cbn [negb].
    + destruct (for_files_stepped children l) as (lefts & l1 & E1 & S1 & A1).
      erewrite bind_Returned by exact E1.
      match goal with
      | |- context [bind (?F children lefts) _] =>
          assert (H : forall items lefts l,
                     Forall walk_accounts items ->
                     Forall2 slot_of items lefts ->
                     exists kept l',
                       F items lefts l = (Returned kept, l') /\
                       kept = flat_map keep_entry items /\
                       flat_map skeleton kept = flat_map skeleton items /\
                       stepped l l'
                         (count_files_list (concat lefts) - count_files_list kept)
                         (total_size_list (concat lefts) - total_size_list kept))
      end.
      { clear. intros items lefts l Hall Hslots. revert l.
        induction Hslots as [|item kept rest lefts Hslot _ IHrest]; intros l.
        - exists [], l. split; [reflexivity|]. split; [reflexivity|].
          split; [reflexivity|].
          eapply stepped_eq; [apply stepped_refl| |]; reflexivity.
        - apply Forall_cons in Hall as [Hitem Hrest].
          assert (exists here l1,
            match item with
            | File _ => ret kept
            | Dir _ _ _ _ => item' <- walk item;; ret [item']
            end l = (Returned here, l1) /\
            here = keep_entry item /\
            flat_map skeleton here = skeleton item /\
            stepped l l1 (count_files_list kept - count_files_list here)
                    (total_size_list kept - total_size_list here))
            as (here & l1 & E1 & Q1 & K1 & A1).
          { destruct item as [f|n li re ch].
            - exists kept, l. split; [reflexivity|].
              split; [exact Hslot|]. split.
              + cbn in Hslot. rewrite Hslot.
                destruct (f_stat_ok f && f_unlink_ok f); reflexivity.
              + eapply stepped_eq; [apply stepped_refl| |]; lia.
            - cbn in Hslot. subst kept.
              destruct (Hitem l) as (item' & l1 & E & Q & K & A).
              eexists _, l1.
              split; [erewrite bind_Returned by exact E; reflexivity|].
              split; [rewrite Q; reflexivity|].
              split; [cbn [flat_map]; rewrite app_nil_r; exact K|].
              eapply stepped_eq; [exact A| |];
                unfold count_files_list, total_size_list; cbn [fold_right]; lia. }
          destruct (IHrest Hrest l1) as (rest' & l2 & E2 & Q2 & K2 & A2).
          eexists _, l2. split; [|split; [|split]].
          + erewrite bind_Returned by exact E1.
            erewrite bind_Returned by exact E2. reflexivity.
          + rewrite Q1, Q2. reflexivity.
          + rewrite flat_map_app, K1, K2. reflexivity.
          + eapply stepped_eq; [eapply stepped_trans; eassumption| |];
              cbn [concat]; rewrite ?count_files_list_app, ?total_size_list_app;
              lia. }
      destruct (H children lefts l1 IH S1) as (kept & l2 & E2 & Q2 & K2 & A2).
      eexists _, l2. split; [|split; [|split]].
      * erewrite bind_Returned by exact E2. reflexivity.
      * rewrite left_by_walk_Dir, Q2. reflexivity.
      * rewrite !skeleton_Dir, K2. reflexivity.
      * rewrite !count_files_Dir, !total_size_Dir.
        eapply stepped_eq; [eapply stepped_trans; eassumption| |]; lia.
    + eexists _, l. split; [reflexivity|]. split; [reflexivity|].
      split; [reflexivity|].
      eapply stepped_eq; [apply stepped_refl| |]; lia.
Qed.

End V2Walk.

Module V2Top.
Import V2 V2Spec V2WalkSpec V2Facts V2Walk DiskFacts.

Lemma swept_refl dirs l : swept dirs l l.
Proof. split; intros; lia || reflexivity. Qed.

Lemma swept_trans dirs l1 l2 l3 :
  swept dirs l1 l2 -> swept dirs l2 l3 -> swept dirs l1 l3.
Proof.
  intros [] []. split; intros;
    first [ lia
          | congruence
          | etrans; [apply sw_skeleton1|apply sw_skeleton0]
          | etrans; [apply sw_outside1|apply sw_outside0]; assumption ].
Qed.

Lemma swept_more dirs dirs' l l' :
  (forall k, k ∈ dirs -> k ∈ dirs') -> swept dirs l l' -> swept dirs' l l'.
Proof.
  intros Hsub []. split; try assumption.
  intros k Hk. apply sw_outside0. intros Hin. apply Hk, Hsub, Hin.
Qed.

Lemma for_temp_dir_swept dirs l :
  exists l', for_temp_dir dirs l = (Returned tt, l') /\ swept dirs l l'.
Proof.
  revert l. induction dirs as [|temp_dir rest IH]; intros l.
  - exists l. split; [reflexivity|apply swept_refl].
  - cbn [for_temp_dir].
    erewrite bind_Returned by reflexivity.
    assert (exists l1,
      (if os_path_exists (l_disk l) temp_dir then
         try_except
           (match l_disk l !! temp_dir with
            | Some n =>
                n' <- walk n;;
                l' <- get;;
                set_disk (<[temp_dir := n']> (l_disk l'))
            | None => ret tt
            end)
           is_Exception
           (fun e => incr_errors;;; details_append (ErrorAccessing temp_dir e))
       else ret tt) l = (Returned tt, l1) /\ swept [temp_dir] l l1)
      as (l1 & E1 & S1).
    { destruct (os_path_exists (l_disk l) temp_dir);
        [|exists l; split; [reflexivity|apply swept_refl]].
      destruct (l_disk l !! temp_dir) as [n|] eqn:Hn;
        [|exists l; split; [reflexivity|apply swept_refl]].
      destruct (walk_stepped n l) as (n' & l1 & E & _ & K & A).
      eexists. split.
      - apply try_except_Returned.
        erewrite bind_Returned by exact E. reflexivity.
      - destruct A. split; cbn; try lia; try assumption.
        + rewrite st_disk0, (disk_sum_insert _ _ _ _ _ Hn). lia.
        + rewrite st_disk0, (disk_sum_insert _ _ _ _ _ Hn). lia.
        + intros k. rewrite st_disk0.
          destruct (decide (temp_dir = k)) as [<-|Hk].
          * rewrite lookup_insert_eq, Hn. cbn. rewrite K. reflexivity.
          * rewrite lookup_insert_ne by exact Hk. reflexivity.
        + intros k Hk. rewrite st_disk0.
          apply lookup_insert_ne. intros ->. apply Hk, list_elem_of_here. }
    destruct (IH l1) as (l2 & E2 & S2).
    exists l2. split.
    + erewrite bind_Returned by exact E1. exact E2.
    + eapply swept_trans.
      * eapply swept_more; [|exact S1].
        intros k Hk. apply list_elem_of_singleton in Hk as ->.
        apply list_elem_of_here.
      * eapply swept_more; [|exact S2].
        intros k Hk. apply list_elem_of_further, Hk.
Qed.

(** [_cleanup_temp_files], from the disk [d]. *)
Lemma cleanup_temp_files_swept env d :
  exists l',
    _cleanup_temp_files env d =
      (Returned (mkCleanupResult "Temporary Files" (l_files_processed l')
                   (l_files_deleted l') (l_space_freed l') (l_errors l')
                   [Processed (l_files_processed l') (l_files_deleted l');
                    SpaceFreed (l_space_freed l')]),
       l_disk l') /\
    swept (temp_dirs env) (mkFrame 0 0 0 0 [] d) l'.
Proof.
  destruct (for_temp_dir_swept (temp_dirs env) (mkFrame 0 0 0 0 [] d))
    as (l' & E & S).
  exists l'. split; [|exact S].
  unfold _cleanup_temp_files.
  erewrite bind_Returned by exact E.
  destruct S. cbn in *. destruct l'; cbn in *. subst. reflexivity.
Qed.

End V2Top.

(** ** The outcomes of the one-click run *)

Module OneClickFacts.
Import V2 V2Spec OneClickSpec.

Lemma one_click_run
      {SystemState : Type} (system : nat -> exn + SystemState)
      (browser_result registry_result startup_result : CleanupResult)
      (system_result memory_result : CleanupResult)
      (env : environment) (e : engine SystemState) :
  exists temp_result d' e',
    _cleanup_temp_files env (e_disk e) = (Returned temp_result, d') /\
    perform_one_click_cleanup system browser_result registry_result
      startup_result system_result memory_result env e
    = (Returned
         (run_result (system (captures e)) (system (Datatypes.S (captures e)))
            (before_state e) (cleanup_results e)
            [temp_result; browser_result; registry_result; startup_result;
             system_result; memory_result]),
       e') /\
    percentages e' =
      percentages e ++
      (if progress_callback e
       then run_percentages (system (captures e))
                            (system (Datatypes.S (captures e)))
       else []) /\
    e_disk e' = match system (captures e) with inl _ => e_disk e | inr _ => d' end.
Proof.
  destruct (V2Facts.for_temp_dir_returns (temp_dirs env)
              (mkFrame 0 0 0 0 [] (e_disk e))) as (l & El & _).
  assert (Hc : exists temp_result d',
             _cleanup_temp_files env (e_disk e) = (Returned temp_result, d')).
  { unfold _cleanup_temp_files. erewrite bind_Returned by exact El.
    cbn. eauto. }
  destruct Hc as (temp_result & d' & Hc).
  exists temp_result, d'.
  cut (exists e',
    perform_one_click_cleanup system browser_result registry_result
      startup_result system_result memory_result env e
    = (Returned
         (run_result (system (captures e)) (system (Datatypes.S (captures e)))
            (before_state e) (cleanup_results e)
            [temp_result; browser_result; registry_result; startup_result;
             system_result; memory_result]),
       e') /\
    percentages e' =
      percentages e ++
      (if progress_callback e
       then run_percentages (system (captures e))
                            (system (Datatypes.S (captures e)))
       else []) /\
    e_disk e' = match system (captures e) with inl _ => e_disk e | inr _ => d' end).
  { intros (e' & A & B & C). exists e'. auto. }
  unfold perform_one_click_cleanup.
  set (cleanup := _cleanup_temp_files env) in *. clearbody cleanup.
  destruct e as [pc sc calls sts cap before after results disk].
  cbn [e_disk captures before_state cleanup_results progress_callback
       percentages progress_calls] in *.
  unfold try_except, bind, update_progress, capture_system_state, get, modify,
    call_progress, call_status, ret, raise, lift, on_disk,
    set_before_state, set_after_state, set_cleanup_results, run_result,
    run_percentages, percentages.
  destruct pc, sc; cbn;
    destruct (system cap) as [x1|b]; cbn; rewrite ?Hc; cbn;
    try (destruct (system (Datatypes.S cap)) as [x2|a]; cbn);
    (eexists; split; [reflexivity|]); cbn;
    rewrite ?app_nil_r, ?map_app, <- ?app_assoc; split; reflexivity.
Qed.

End OneClickFacts.

(** ** The browser cleaner, call by call *)

Module BrowserAllFacts.
Import Browser BrowserSpec BrowserFacts BrowserAll BrowserAllSpec.

(** *** Paths *)

Lemma find_child_name c l x : find_child c l = Some x -> node_name x = c.
Proof.
  induction l as [|y l IH]; cbn; [discriminate|].
  destruct (decide (node_name y = c)); [intros [= <-]; assumption|exact IH].
Qed.

Lemma find_replace_child c l x x' :
  find_child c l = Some x -> node_name x' = c ->
  find_child c (replace_child c (Some x') l) = Some x'.
Proof.
  intros Hf Hn. induction l as [|y l IH]; cbn in *; [discriminate|].
  destruct (decide (node_name y = c)) as [e|ne].
  - cbn. rewrite decide_True by exact Hn. reflexivity.
  - cbn. rewrite decide_False by exact ne. auto.
Qed.

Lemma lookup_replace rel :
  forall n m new,
    lookup_in n rel = Some m -> node_name new = node_name m ->
    exists n', replace_in n rel (Some new) = Some n' /\
               node_name n' = node_name n /\
               lookup_in n' rel = Some new.
Proof.
  induction rel as [|c rel IH]; intros n m new Hl Hn.
  - cbn in Hl. injection Hl as <-. exists new. auto.
  - destruct n as [f|name listable removable children]; [discriminate|].
    cbn in Hl |- *.
    destruct (find_child c children) as [x|] eqn:Hx; [|discriminate].
    destruct (IH x m new Hl Hn) as (x' & R & N & L).
    rewrite R. eexists. split; [reflexivity|]. split; [reflexivity|].
    cbn. erewrite find_replace_child; [exact L|exact Hx|].
    rewrite N. eapply find_child_name, Hx.
Qed.

Lemma disk_put_lookup d p m new :
  disk_lookup d p = Some m -> node_name new = node_name m ->
  disk_lookup (disk_put d p (Some new)) p = Some new.
Proof.
  destruct p as [|root rel]; [discriminate|]. cbn.
  destruct (d !! root) as [n|] eqn:Hr; [|discriminate].
  intros Hl Hn. destruct (lookup_replace rel n m new Hl Hn) as (n' & R & _ & L).
  rewrite R, lookup_insert_eq. exact L.
Qed.

Lemma disk_put_other d p new k :
  head p <> Some k -> disk_put d p new !! k = d !! k.
Proof.
  destruct p as [|root rel]; [reflexivity|]. cbn. intros Hk.
  destruct (d !! root) as [n|]; [|reflexivity].
  destruct (replace_in n rel new).
  - apply lookup_insert_ne. congruence.
  - apply lookup_delete_ne. congruence.
Qed.

(** *** The removal loop *)

Lemma remove_loop_remains cache_path items files_removed c :
  exists k c',
    for_item cache_path items files_removed c
    = (Returned (flat_map remains items, k), c') /\
    disk c' = disk c /\ same_counters c c'.
Proof.
  revert files_removed c.
  induction items as [|item rest IH]; intros files_removed c.
  - exists files_removed, c. split; [reflexivity|].
    split; [reflexivity|apply same_counters_refl].
  - cbn [for_item].
    assert (exists k1 c1,
      try_except
        (match item with
         | File f => lift (os_unlink (Some f));;; ret ([], files_removed + 1)
         | Dir _ _ _ _ => ret (option_list (rmtree item), files_removed + 1)
         end)
        is_OSError
        (fun _ =>
           log (LogCouldNotRemove (cache_path ++ [node_name item]));;;
           ret ([item], files_removed)) c = (Returned (remains item, k1), c1) /\
      disk c1 = disk c /\ same_counters c c1) as (k1 & c1 & E1 & D1 & S1).
    { destruct item as [f|n listable removable children].
      - unfold try_except, bind, lift, os_unlink, log, modify, ret, raise, remains.
        destruct (f_unlink_ok f); cbn; eexists _, _;
          (split; [reflexivity|]); split; try reflexivity; repeat split.
      - eexists _, _. split; [reflexivity|]. split; [reflexivity|].
        apply same_counters_refl. }
    destruct (IH k1 c1) as (k2 & c2 & E2 & D2 & S2).
    eexists k2, c2. split.
    + erewrite bind_Returned by exact E1.
      erewrite bind_Returned by exact E2. reflexivity.
    + split; [congruence|]. eapply same_counters_trans; eassumption.
Qed.

(** [safe_remove_cache_directory] on a directory that can be listed. *)
Lemma safe_remove_cache_directory_listed cache_path c name removable children :
  disk_lookup (disk c) cache_path = Some (Dir name true removable children) ->
  exists c',
    safe_remove_cache_directory cache_path c
    = (Returned (true,
                 measured_size (Dir name true removable children)
                 - measured_size
                     (Dir name true removable (flat_map remains children))),
       c') /\
    same_counters c c' /\
    disk c' = disk_put (disk c) cache_path
                (Some (Dir name true removable (flat_map remains children))).
Proof.
  intros Hc. unfold safe_remove_cache_directory.
  erewrite bind_Returned by reflexivity. rewrite Hc.
  replace (bool_decide (is_Some (Some (Dir name true removable children))))
    with true by (symmetry; apply bool_decide_eq_true; eauto).
  cbn [negb].
  destruct (remove_loop_remains cache_path children 0 c)
    as (k & c1 & E & D & S1).
  eexists. split.
  - apply try_except_Returned.
    erewrite bind_Returned by reflexivity.
    erewrite bind_Returned by exact E.
    erewrite bind_Returned by reflexivity.
    erewrite bind_Returned by reflexivity.
    erewrite bind_Returned by reflexivity.
    cbn [fst snd]. unfold set_disk, bind, log, modify, ret. cbn.
    erewrite disk_put_lookup by (first [rewrite D; exact Hc|reflexivity]).
    reflexivity.
  - cbn. rewrite D. split; [|reflexivity].
    destruct S1 as (? & ? & ? & ?). repeat split; assumption.
Qed.

(** [safe_remove_cache_directory] on anything else. *)
Lemma safe_remove_cache_directory_refused cache_path c :
  (forall name removable children,
      disk_lookup (disk c) cache_path <> Some (Dir name true removable children)) ->
  exists c',
    safe_remove_cache_directory cache_path c = (Returned (false, 0), c') /\
    same_counters c c' /\ disk c' = disk c.
Proof.
  intros Hc. unfold safe_remove_cache_directory.
  erewrite bind_Returned by reflexivity.
  destruct (disk_lookup (disk c) cache_path) as [cache|] eqn:Hl.
  - replace (bool_decide (is_Some (Some cache))) with true
      by (symmetry; apply bool_decide_eq_true; eauto).
    cbn [negb].
    destruct cache as [f|name listable removable children].
    + eexists. split; [reflexivity|]. cbn. split; [repeat split|reflexivity].
    + destruct listable; [exfalso; eapply Hc; reflexivity|].
      eexists. split; [reflexivity|]. cbn. split; [repeat split|reflexivity].
  - exists c. replace (bool_decide (is_Some None)) with false.
    + split; [reflexivity|]. split; [apply same_counters_refl|reflexivity].
    + symmetry. apply bool_decide_eq_false. intros [x Hx]. discriminate.
Qed.

(** In every case the call returns, and only the key of the path can have
    changed. *)
Lemma safe_remove_cache_directory_frame cache_path c :
  exists ok size_freed c',
    safe_remove_cache_directory cache_path c = (Returned (ok, size_freed), c') /\
    same_counters c c' /\
    (forall k, head cache_path <> Some k -> disk c' !! k = disk c !! k) /\
    (ok = false -> size_freed = 0 /\ disk c' = disk c).
Proof.
  destruct (disk_lookup (disk c) cache_path) as [[f|name [|] removable children]|]
    eqn:Hl.
  2: { destruct (safe_remove_cache_directory_listed _ _ _ _ _ Hl)
         as (c' & E & S1 & D).
       eexists _, _, c'. split; [exact E|]. split; [exact S1|].
       split; [|discriminate].
       intros k Hk. rewrite D. apply disk_put_other, Hk. }
  all: destruct (safe_remove_cache_directory_refused cache_path c)
         as (c' & E & S1 & D); [intros ? ? ?; rewrite Hl; discriminate|];
       exists false, 0, c'; split; [exact E|]; split; [exact S1|];
       split; [intros; rewrite D; reflexivity|auto].
Qed.

(** *** Sizes *)

Lemma sizes_nonneg_Dir name listable removable children :
  sizes_nonneg (Dir name listable removable children) = true <->
  Forall (fun x => sizes_nonneg x = true) children.
Proof.
  cbn. rewrite forallb_forall, Forall_forall.
  split; intros H x Hx; apply H; [apply list_elem_of_In|apply list_elem_of_In in Hx];
    exact Hx.
Qed.

Lemma measured_list_app l1 l2 :
  fold_right (fun x acc => measured_size x + acc) 0 (l1 ++ l2) =
  fold_right (fun x acc => measured_size x + acc) 0 l1 +
  fold_right (fun x acc => measured_size x + acc) 0 l2.
Proof. induction l1 as [|x l1 IH]; cbn; [reflexivity|]. rewrite IH. lia. Qed.

Lemma rmtree_list_shrinks children :
  Forall shrinks children ->
  Forall (fun x => sizes_nonneg x = true) children ->
  let kept := flat_map (fun x => option_list (rmtree x)) children in
  Forall (fun x => sizes_nonneg x = true) kept /\
  0 <= fold_right (fun x acc => measured_size x + acc) 0 children /\
  fold_right (fun x acc => measured_size x + acc) 0 kept
  <= fold_right (fun x acc => measured_size x + acc) 0 children.
Proof.
  cbn zeta. induction 1 as [|x l Hx _ IH]; intros Hn.
  - cbn. split; [constructor|lia].
  - apply Forall_cons in Hn as [Hn1 Hn2].
    destruct (IH Hn2) as (K & P & L). destruct (Hx Hn1) as (P1 & R).
    cbn [flat_map fold_right]. rewrite measured_list_app.
    destruct (rmtree x) as [x'|]; cbn [option_list].
    + destruct R as (N' & L'). split; [constructor; assumption|].
      simpl. lia.
    + split; [exact K|]. simpl. lia.
Qed.

Lemma rmtree_shrinks n : shrinks n.
Proof.
  induction n as [f|name listable removable children IH] using node_ind';
    intros Hn.
  - cbn in Hn. pose proof Hn as Hn'. apply Z.leb_le in Hn'.
    cbn [measured_size rmtree]. unfold stat_size, os_unlink.
    destruct (f_stat_ok f) eqn:Hs, (f_unlink_ok f) eqn:Hu; cbn;
      unfold stat_size; rewrite ?Hs;
      repeat split; solve [lia|assumption].
  - apply sizes_nonneg_Dir in Hn.
    destruct (rmtree_list_shrinks children IH Hn) as (K & P & L).
    rewrite rmtree_Dir. cbn zeta.
    destruct listable.
    + rewrite measured_size_Dir. split; [exact P|].
      destruct (os_rmdir _); [|exact I].
      rewrite measured_size_Dir. split; [apply sizes_nonneg_Dir, K|exact L].
    + split; [cbn; lia|].
      destruct (os_rmdir _); [|exact I].
      split; [apply sizes_nonneg_Dir, Hn|cbn; lia].
Qed.

Lemma remains_shrinks children :
  Forall (fun x => sizes_nonneg x = true) children ->
  Forall (fun x => sizes_nonneg x = true) (flat_map remains children) /\
  0 <= fold_right (fun x acc => measured_size x + acc) 0 (flat_map remains children)
    <= fold_right (fun x acc => measured_size x + acc) 0 children.
Proof.
  induction 1 as [|x l Hx _ IH].
  - cbn. split; [constructor|lia].
  - destruct IH as (K & P).
    cbn [flat_map fold_right]. rewrite measured_list_app.
    pose proof (rmtree_shrinks x Hx) as (P1 & R).
    destruct x as [f|name listable removable ch].
    + change (remains (File f)) with (if f_unlink_ok f then [] else [File f]).
      destruct (f_unlink_ok f); cbn [app fold_right].
      * split; [exact K|]. lia.
      * split; [constructor; assumption|]. lia.
    + change (remains (Dir name listable removable ch))
        with (option_list (rmtree (Dir name listable removable ch))).
      destruct (rmtree (Dir name listable removable ch)) as [x'|];
        unfold option_list; cbn [option_rect app fold_right].
      * destruct R as (N' & L').
        pose proof (rmtree_shrinks x' N') as (P1' & _).
        split; [constructor; assumption|]. lia.
      * split; [exact K|]. lia.
Qed.

End BrowserAllFacts.

Module BrowserRunFacts.
Import Browser BrowserSpec BrowserFacts BrowserAll BrowserAllSpec BrowserAllFacts.

(** *** The process table *)

(** With every name readable, the scan returns, and says "running" exactly
    when a process matches. *)
Lemma for_proc_readable browser_name names procs c :
  Forall (fun p => is_Some (proc_name p)) procs ->
  exists b c',
    for_proc browser_name names procs c = (Returned b, c') /\
    (b = true <-> Exists (matches names) procs).
Proof.
  induction 1 as [|proc rest [name Hname] _ IH]; cbn [for_proc].
  - exists false, c. split; [reflexivity|]. split; [discriminate|].
    intros H; inversion H.
  - rewrite Hname.
    destruct (bool_decide (lower name ∈ map lower names)) eqn:Hm.
    + eexists true, _. split; [reflexivity|]. split; [|reflexivity].
      intros _. left. exists name. split; [exact Hname|].
      apply bool_decide_eq_true in Hm. exact Hm.
    + destruct IH as (b & c' & E & Hb). exists b, c'. split; [exact E|].
      rewrite Hb. split; [intros; right; assumption|].
      intros He. apply Exists_cons in He as [(name' & Hn' & Hin)|He]; [|exact He].
      apply bool_decide_eq_false in Hm. congruence.
Qed.

(** When a process matches, the scan never answers "not running". *)
Lemma for_proc_running browser_name names procs c c' :
  Exists (matches names) procs ->
  for_proc browser_name names procs c <> (Returned false, c').
Proof.
  induction 1 as [proc rest (name & Hname & Hin)|proc rest _ IH];
    cbn [for_proc].
  - rewrite Hname. rewrite bool_decide_eq_true_2 by exact Hin. discriminate.
  - destruct (proc_name proc) as [name|]; [|discriminate].
    destruct (bool_decide (lower name ∈ map lower names)); [discriminate|].
    exact IH.
Qed.

(** A process whose name cannot be read, met before any match, ends the
    scan with an [AttributeError]. *)
Lemma for_proc_unreadable browser_name names before proc after c :
  Forall (fun p => exists name, proc_name p = Some name /\
                                lower name ∉ map lower names) before ->
  proc_name proc = None ->
  for_proc browser_name names (before ++ proc :: after) c
  = (Raised AttributeError, c).
Proof.
  intros Hb Hp. induction Hb as [|q rest (name & Hq & Hn) _ IH]; cbn [for_proc app].
  - rewrite Hp. reflexivity.
  - rewrite Hq. rewrite bool_decide_eq_false_2 by exact Hn. exact IH.
Qed.

(** *** The loop over the cache paths *)

Lemma for_cache_path_cases firefox paths :
  forall total cleaned errors c,
  exists total' extra errors' c',
    for_cache_path firefox paths (total, cleaned, errors) c
    = (Returned (total', cleaned ++ extra, errors'), c') /\
    same_counters c c' /\
    (forall k, Forall (fun p => head p <> Some k) paths ->
               disk c' !! k = disk c !! k) /\
    (extra = [] -> total' = total /\ disk c' = disk c).
Proof.
  induction paths as [|cache_path rest IH]; intros total cleaned errors c.
  - exists total, [], errors, c. rewrite app_nil_r.
    split; [reflexivity|]. split; [apply same_counters_refl|]. auto.
  - cbn [for_cache_path].
    destruct (safe_remove_cache_directory_frame cache_path c)
      as (ok & freed & c1 & E1 & S1 & F1 & N1).
    erewrite bind_Returned by exact E1. cbn iota.
    erewrite bind_Returned by reflexivity.
    destruct ok.
    + destruct (IH (total + freed) (cleaned ++ [cache_path]) errors c1)
        as (total' & extra & errors' & c' & E & S2 & F2 & _).
      exists total', (cache_path :: extra), errors', c'.
      split; [rewrite E, <- app_assoc; reflexivity|].
      split; [eapply same_counters_trans; eassumption|].
      split; [|discriminate].
      intros k Hk. apply Forall_cons in Hk as [Hk1 Hk2].
      rewrite F2 by exact Hk2. apply F1, Hk1.
    + destruct (N1 eq_refl) as (-> & D1).
      destruct (firefox || bool_decide (is_Some (disk_lookup (disk c1) cache_path))).
      * destruct (IH total cleaned (errors ++ [cache_path]) c1)
          as (total' & extra & errors' & c' & E & S2 & F2 & N2).
        exists total', extra, errors', c'.
        split; [exact E|].
        split; [eapply same_counters_trans; eassumption|].
        split.
        -- intros k Hk. apply Forall_cons in Hk as [Hk1 Hk2].
           rewrite F2 by exact Hk2. apply F1, Hk1.
        -- intros He. destruct (N2 He) as (-> & ->). auto.
      * destruct (IH total cleaned errors c1)
          as (total' & extra & errors' & c' & E & S2 & F2 & N2).
        exists total', extra, errors', c'.
        split; [exact E|].
        split; [eapply same_counters_trans; eassumption|].
        split.
        -- intros k Hk. apply Forall_cons in Hk as [Hk1 Hk2].
           rewrite F2 by exact Hk2. apply F1, Hk1.
        -- intros He. destruct (N2 He) as (-> & ->). auto.
Qed.

(** *** The Firefox profiles *)

Lemma for_profile_dir_heads base entries :
  Forall (fun p => head p = Some base) (for_profile_dir base entries).
Proof.
  induction entries as [|x l IH]; cbn [for_profile_dir]; [constructor|].
  destruct (is_dir x); [|exact IH].
  destruct (bool_decide _); [constructor; [reflexivity|exact IH]|exact IH].
Qed.

Lemma get_firefox_profiles_cases c :
  (exists x, get_firefox_profiles c = (Raised x, c)) \/
  (exists paths, get_firefox_profiles c = (Returned paths, c) /\
                 Forall (fun p => head p = Some (firefox_base c)) paths).
Proof.
  unfold get_firefox_profiles, bind, get.
  destruct (bool_decide (is_Some (disk c !! firefox_base c))).
  - destruct (os_listdir (disk c !! firefox_base c)) as [x|entries]; cbn.
    + left. eauto.
    + right. eexists. split; [reflexivity|apply for_profile_dir_heads].
  - right. exists []. split; [reflexivity|constructor].
Qed.

End BrowserRunFacts.

Module BrowserCacheFacts.
Import Browser BrowserSpec BrowserFacts BrowserAll BrowserAllSpec.
Import BrowserAllFacts BrowserRunFacts.

Lemma own_keys_Firefox home :
  own_keys home "Firefox" = [home +:+ "/AppData/Local/Mozilla/Firefox/Profiles"].
Proof. reflexivity. Qed.

Lemma own_keys_other home browser_name cfg :
  browser_name <> "Firefox" ->
  config_of browser_configs browser_name = Some cfg ->
  own_keys home browser_name
  = map (fun p => home +:+ p) (cache_paths cfg ++ temp_paths cfg).
Proof.
  intros Hn Hc. unfold own_keys, own_paths.
  rewrite decide_False by exact Hn. rewrite Hc. reflexivity.
Qed.

(** The cleaning part of [clean_browser_cache], once the browser is known
    and not found running. *)
Lemma cleaning_cases browser_name cfg c :
  config_of browser_configs browser_name = Some cfg ->
  exists o c',
    (c0 <- get;;
     acc <-
       (if decide (browser_name = "Firefox") then
          firefox_profiles <- get_firefox_profiles;;
          for_cache_path true firefox_profiles (0, [], [])
        else
          for_cache_path false
            (map (fun p => [home c0 +:+ p]) (cache_paths cfg ++ temp_paths cfg))
            (0, [], []));;
     let '(total_size_freed, paths_cleaned, errors) := acc in
     (if bool_decide (paths_cleaned <> []) then
        modify (fun c => mkCleaner (browsers_cleaned c + 1)
                                   (cache_size_freed c + total_size_freed)
                                   (logged c) (disk c) (processes c) (home c))
      else ret tt);;;
     ret (Cleaned (bool_decide (0 < Z.of_nat (length paths_cleaned)))
                  browser_name paths_cleaned total_size_freed errors)) c
    = (o, c') /\
    processes c' = processes c /\ home c' = home c /\
    (forall k, k ∉ own_keys (home c) browser_name -> disk c' !! k = disk c !! k) /\
    match o with
    | Returned r =>
        browsers_cleaned c'
        = browsers_cleaned c + (if success r then 1 else 0) /\
        cache_size_freed c'
        = cache_size_freed c
          + (if success r then default 0 (size_freed r) else 0) /\
        (success r = false -> disk c' = disk c /\ size_freed r = Some 0)
    | Raised _ =>
        disk c' = disk c /\
        browsers_cleaned c' = browsers_cleaned c /\
        cache_size_freed c' = cache_size_freed c
    end.
Proof.
  intros Hcfg.
  erewrite bind_Returned by reflexivity.
  assert (Hacc :
    (exists x,
        (if decide (browser_name = "Firefox") then
           firefox_profiles <- get_firefox_profiles;;
           for_cache_path true firefox_profiles (0, [], [])
         else
           for_cache_path false
             (map (fun p => [home c +:+ p]) (cache_paths cfg ++ temp_paths cfg))
             (0, [], [])) c = (Raised x, c)) \/
    (exists total' extra errors' c1,
        (if decide (browser_name = "Firefox") then
           firefox_profiles <- get_firefox_profiles;;
           for_cache_path true firefox_profiles (0, [], [])
         else
           for_cache_path false
             (map (fun p => [home c +:+ p]) (cache_paths cfg ++ temp_paths cfg))
             (0, [], [])) c = (Returned (total', extra, errors'), c1) /\
        same_counters c c1 /\
        (forall k, k ∉ own_keys (home c) browser_name ->
                   disk c1 !! k = disk c !! k) /\
        (extra = [] -> total' = 0 /\ disk c1 = disk c))).
  { destruct (decide (browser_name = "Firefox")) as [->|Hn].
    - destruct (get_firefox_profiles_cases c) as [(x & E)|(paths & E & Hp)].
      + left. exists x. erewrite bind_Raised by exact E. reflexivity.
      + right.
        destruct (for_cache_path_cases true paths 0 [] [] c)
          as (total' & extra & errors' & c1 & E1 & S1 & F1 & N1).
        exists total', extra, errors', c1.
        split; [erewrite bind_Returned by exact E; exact E1|].
        split; [exact S1|]. split; [|exact N1].
        intros k Hk. apply F1.
        eapply Forall_impl; [exact Hp|]. cbn. intros p Hh Hk'.
        apply Hk. rewrite own_keys_Firefox. 
        rewrite Hh in Hk'. injection Hk' as <-. apply list_elem_of_here.
    - right.
      destruct (for_cache_path_cases false
                  (map (fun p => [home c +:+ p])
                       (cache_paths cfg ++ temp_paths cfg)) 0 [] [] c)
        as (total' & extra & errors' & c1 & E1 & S1 & F1 & N1).
      exists total', extra, errors', c1.
      split; [exact E1|]. split; [exact S1|]. split; [|exact N1].
      intros k Hk. apply F1.
      rewrite (own_keys_other _ _ cfg Hn Hcfg) in Hk.
      apply Forall_map. apply Forall_forall. intros p Hp. cbn. intros [= <-].
      apply Hk. apply list_elem_of_fmap. exists p. auto. }
  destruct Hacc as [(x & E)|(total' & extra & errors' & c1 & E & S1 & F1 & N1)].
  - exists (Raised x), c. split; [erewrite bind_Raised by exact E; reflexivity|].
    auto 10.
  - erewrite bind_Returned by exact E. cbn iota.
    destruct S1 as (B1 & C1 & P1 & H1).
    destruct extra as [|p extra].
    + destruct (N1 eq_refl) as (-> & D1).
      eexists _, _. split; [reflexivity|]. cbn.
      repeat split; try assumption;
        repeat case_bool_decide; cbn [length] in *; lia.
    + eexists _, _. split; [reflexivity|]. cbn.
      repeat split; try assumption; try discriminate;
        repeat case_bool_decide; cbn [length] in *; try lia; try discriminate.
Qed.

(** Every run of [clean_browser_cache]: what it can touch, how the two
    counters of the cleaner move, and what a failure or an exception leaves
    behind. *)
Lemma clean_browser_cache_cases browser_name force c :
  exists o c',
    clean_browser_cache browser_name force c = (o, c') /\
    processes c' = processes c /\ home c' = home c /\
    (forall k, k ∉ own_keys (home c) browser_name -> disk c' !! k = disk c !! k) /\
    match o with
    | Returned r =>
        browsers_cleaned c'
        = browsers_cleaned c + (if success r then 1 else 0) /\
        cache_size_freed c'
        = cache_size_freed c
          + (if success r then default 0 (size_freed r) else 0) /\
        (success r = false ->
         disk c' = disk c /\ (size_freed r = None \/ size_freed r = Some 0))
    | Raised _ =>
        disk c' = disk c /\
        browsers_cleaned c' = browsers_cleaned c /\
        cache_size_freed c' = cache_size_freed c
    end.
Proof.
  unfold clean_browser_cache.
  destruct (config_of browser_configs browser_name) as [cfg|] eqn:Hcfg.
  - assert (Hrun :
      exists o1 c1,
        (if negb force then is_browser_running browser_name else ret false) c
        = (o1, c1) /\ disk c1 = disk c /\ same_counters c c1 /\
        (force = true -> o1 = Returned false)).
    { destruct force; cbn [negb].
      - exists (Returned false), c. split; [reflexivity|].
        split; [reflexivity|]. split; [apply same_counters_refl|auto].
      - destruct (is_browser_running browser_name c) as [o1 c1] eqn:Er.
        destruct (is_browser_running_log_only _ _ _ _ Er) as (D & S1).
        exists o1, c1. split; [reflexivity|]. split; [exact D|].
        split; [exact S1|discriminate]. }
    destruct Hrun as (o1 & c1 & Er & D1 & (B1 & C1 & P1 & H1) & _).
    destruct o1 as [[|]|x].
    + eexists _, c1. split; [erewrite bind_Returned by exact Er; reflexivity|].
      cbn. split; [exact P1|]. split; [exact H1|].
      split; [intros; rewrite D1; reflexivity|].
      split; [lia|]. split; [lia|]. auto.
    + destruct (cleaning_cases browser_name cfg c1 Hcfg)
        as (o & c' & E & P2 & H2 & F2 & R2).
      exists o, c'. split; [erewrite bind_Returned by exact Er; exact E|].
      split; [congruence|]. split; [congruence|].
      split; [intros k Hk; rewrite F2 by (rewrite H1; exact Hk);
              rewrite D1; reflexivity|].
      destruct o as [r|x].
      * destruct R2 as (R21 & R22 & R23).
        split; [congruence|]. split; [congruence|].
        intros Hs. destruct (R23 Hs) as (-> & ->). auto.
      * destruct R2 as (-> & -> & ->). auto.
    + exists (Raised x), c1.
      split; [erewrite bind_Raised by exact Er; reflexivity|].
      repeat split; try assumption. intros; rewrite D1; reflexivity.
  - exists (Returned (Unsupported browser_name)), c. split; [reflexivity|].
    cbn. repeat split; auto; lia.
Qed.

End BrowserCacheFacts.

Module BrowserLoopFacts.
Import Browser BrowserSpec BrowserFacts BrowserAll BrowserAllSpec.
Import BrowserAllFacts BrowserRunFacts BrowserCacheFacts.

(** A browser found running is left alone, whether the scan of the process
    table ends normally or not. *)
Lemma clean_browser_cache_running browser_name c o c' :
  found_running browser_name (processes c) ->
  clean_browser_cache browser_name false c = (o, c') ->
  disk c' = disk c /\ same_counters c c' /\
  match o with
  | Returned r => r = StillRunning browser_name 0
  | Raised _ => True
  end.
Proof.
  intros (cfg & Hcfg & Hex). unfold clean_browser_cache. rewrite Hcfg.
  cbn [negb].
  destruct (is_browser_running browser_name c) as [o1 c1] eqn:Er.
  destruct (is_browser_running_log_only _ _ _ _ Er) as (D & S1).
  destruct o1 as [[|]|x].
  - erewrite bind_Returned by exact Er. intros [= <- <-]. auto.
  - exfalso. revert Er. unfold is_browser_running. rewrite Hcfg.
    unfold bind, get. apply for_proc_running. exact Hex.
  - erewrite bind_Raised by exact Er. intros [= <- <-]. auto.
Qed.

Lemma append_inj_r (s s1 s2 : string) : s +:+ s1 = s +:+ s2 -> s1 = s2.
Proof.
  induction s as [|a s IH]; cbn; [auto|]. intros [= H]. auto.
Qed.

(** No cache path belongs to two browsers. *)
Lemma own_paths_apart n1 n2 p :
  n1 ∈ map fst browser_configs -> n2 ∈ map fst browser_configs ->
  p ∈ own_paths n1 -> p ∈ own_paths n2 -> n1 = n2.
Proof.
  assert (H : Forall (fun n1 =>
                Forall (fun n2 =>
                  n1 = n2 \/ Forall (fun p => p ∉ own_paths n2) (own_paths n1))
                  (map fst browser_configs))
                (map fst browser_configs)).
  { apply (bool_decide_unpack _). vm_compute. exact I. }
  intros H1 H2 P1 P2.
  rewrite Forall_forall in H. specialize (H n1 H1).
  rewrite Forall_forall in H. destruct (H n2 H2) as [E|F]; [exact E|].
  rewrite Forall_forall in F. exfalso. exact (F p P1 P2).
Qed.

Lemma own_keys_apart home n1 n2 k :
  n1 ∈ map fst browser_configs -> n2 ∈ map fst browser_configs ->
  k ∈ own_keys home n1 -> k ∈ own_keys home n2 -> n1 = n2.
Proof.
  unfold own_keys. intros H1 H2 K1 K2.
  apply list_elem_of_fmap in K1 as (p1 & -> & P1).
  apply list_elem_of_fmap in K2 as (p2 & E & P2).
  apply append_inj_r in E as ->.
  eapply own_paths_apart; eassumption.
Qed.

(** The loop of [clean_all_browsers]. *)
Lemma for_browser_name_cases force names :
  forall acc c,
  exists o c',
    for_browser_name force names acc c = (o, c') /\
    processes c' = processes c /\ home c' = home c /\
    (forall k,
        (forall name, name ∈ names -> k ∈ own_keys (home c) name ->
                      force = false /\ found_running name (processes c)) ->
        disk c' !! k = disk c !! k) /\
    browsers_cleaned c <= browsers_cleaned c' /\
    match o with
    | Returned s =>
        browsers_cleaned c' - browsers_cleaned c
        = browsers_processed s - browsers_processed acc /\
        cache_size_freed c' - cache_size_freed c
        = total_size_freed s - total_size_freed acc /\
        map fst (browser_results s) = map fst (browser_results acc) ++ names /\
        browsers_processed s - browsers_processed acc
        <= Z.of_nat (length names)
    | Raised _ => True
    end.
Proof.
  induction names as [|browser_name rest IH]; intros acc c.
  - exists (Returned acc), c. split; [reflexivity|].
    rewrite app_nil_r. cbn. repeat split; auto; lia.
  - cbn [for_browser_name].
    destruct (clean_browser_cache_cases browser_name force c)
      as (o1 & c1 & E1 & P1 & H1 & F1 & R1).
    assert (Hframe : forall k,
      (forall name, name ∈ browser_name :: rest -> k ∈ own_keys (home c) name ->
                    force = false /\ found_running name (processes c)) ->
      disk c1 !! k = disk c !! k).
    { intros k Hk.
      destruct (decide (k ∈ own_keys (home c) browser_name)) as [Hin|Hout].
      - destruct (Hk browser_name (list_elem_of_here _ _) Hin) as (-> & Hr).
        destruct (clean_browser_cache_running _ _ _ _ Hr E1) as (-> & _).
        reflexivity.
      - apply F1, Hout. }
    destruct o1 as [result|x].
    + erewrite bind_Returned by exact E1.
      destruct R1 as (B1 & C1 & _).
      match goal with
      | |- context [for_browser_name force rest ?a c1] =>
          destruct (IH a c1) as (o & c' & E & P2 & H2 & F2 & M2 & R2);
          assert (Hacc :
            browsers_processed a
            = browsers_processed acc + (if success result then 1 else 0) /\
            total_size_freed a
            = total_size_freed acc
              + (if success result then default 0 (size_freed result) else 0) /\
            browser_results a = browser_results acc ++ [(browser_name, result)])
            by (destruct result as [?|? ?|[|] ? ? ? ?]; cbn;
                repeat split; lia)
      end.
      destruct Hacc as (A1 & A2 & A3).
      exists o, c'. split; [exact E|].
      split; [congruence|]. split; [congruence|].
      split.
      { intros k Hk. rewrite F2.
        - apply Hframe, Hk.
        - intros name Hname Hkey. rewrite H1 in Hkey. rewrite P1.
          apply Hk; [apply list_elem_of_further, Hname|exact Hkey]. }
      split; [destruct (success result); lia|].
      destruct o as [s|x]; [|exact I].
      destruct R2 as (R21 & R22 & R23 & R24).
      rewrite A1 in R21, R24. rewrite A2 in R22. rewrite A3 in R23.
      split; [lia|]. split; [lia|].
      split; [rewrite R23, map_app, <- app_assoc; reflexivity|].
      cbn [length]. destruct (success result); lia.
    + exists (Raised x), c1.
      split; [erewrite bind_Raised by exact E1; reflexivity|].
      destruct R1 as (D1 & B1 & C1).
      split; [exact P1|]. split; [exact H1|].
      split; [exact Hframe|]. split; [lia|exact I].
Qed.

End BrowserLoopFacts.

Module BrowserInfoFacts.
Import Browser BrowserSpec BrowserFacts BrowserAll BrowserAllSpec.
Import BrowserAllFacts BrowserRunFacts BrowserCacheFacts BrowserLoopFacts.

(** What the scan of the process table answers does not depend on the rest
    of the cleaner. *)
Lemma for_proc_fixed browser_name names procs c o c' :
  for_proc browser_name names procs c = (o, c') ->
  forall c2, exists c2', for_proc browser_name names procs c2 = (o, c2').
Proof.
  revert c. induction procs as [|proc rest IH]; intros c; cbn [for_proc].
  - intros [= <- _] c2. eauto.
  - destruct (proc_name proc) as [name|].
    + destruct (bool_decide (lower name ∈ map lower names)).
      * intros [= <- _] c2. eexists. reflexivity.
      * apply IH.
    + intros [= <- _] c2. eauto.
Qed.

Lemma is_browser_running_fixed browser_name c o c' :
  is_browser_running browser_name c = (o, c') ->
  forall c2, processes c2 = processes c ->
             exists c2', is_browser_running browser_name c2 = (o, c2').
Proof.
  unfold is_browser_running.
  destruct (config_of browser_configs browser_name) as [cfg|].
  - unfold bind, get. intros E c2 ->. eapply for_proc_fixed, E.
  - intros [= <- _] c2 _. eauto.
Qed.

Lemma get_firefox_profiles_fixed c c2 :
  home c2 = home c ->
  disk c2 !! firefox_base c = disk c !! firefox_base c ->
  get_firefox_profiles c2 = (fst (get_firefox_profiles c), c2).
Proof.
  intros Hh Hd. unfold get_firefox_profiles, bind, get, firefox_base in *.
  rewrite Hh, Hd.
  destruct (bool_decide _); [|reflexivity].
  destruct (os_listdir _); reflexivity.
Qed.



(** The loop of [get_browser_info] only reads; when it returns, every scan
    of the process table has returned and the profiles have been listed. *)
Lemma for_config_cases configs :
  forall browser_info c,
  exists o c',
    for_config configs browser_info c = (o, c') /\
    disk c' = disk c /\ same_counters c c' /\
    match o with
    | Returned infos =>
        map fst infos = map fst browser_info ++ map fst configs /\
        (forall name, name ∈ map fst configs ->
           exists b c1, is_browser_running name c = (Returned b, c1)) /\
        ("Firefox" ∈ map fst configs ->
           exists paths, get_firefox_profiles c = (Returned paths, c))
    | Raised _ => True
    end.
Proof.
  induction configs as [|[browser_name cfg] rest IH]; intros browser_info c.
  - exists (Returned browser_info), c. split; [reflexivity|].
    split; [reflexivity|]. split; [apply same_counters_refl|].
    rewrite app_nil_r. split; [reflexivity|].
    split; [intros name H; inversion H|intros H; inversion H].
  - cbn [for_config].
    erewrite bind_Returned by reflexivity.
    assert (Hfound :
      (exists x,
          (if decide (browser_name = "Firefox") then get_firefox_profiles
           else
             ret (filter (fun p => is_Some (disk_lookup (disk c) p))
                         (map (fun p => [home c +:+ p]) (cache_paths cfg)))) c
          = (Raised x, c)) \/
      (exists found,
          (if decide (browser_name = "Firefox") then get_firefox_profiles
           else
             ret (filter (fun p => is_Some (disk_lookup (disk c) p))
                         (map (fun p => [home c +:+ p]) (cache_paths cfg)))) c
          = (Returned found, c) /\
          (browser_name = "Firefox" ->
           get_firefox_profiles c = (Returned found, c)))).
    { destruct (decide (browser_name = "Firefox")) as [->|Hn].
      - destruct (get_firefox_profiles_cases c) as [(x & E)|(paths & E & _)];
          [left|right]; eauto.
      - right. eexists. split; [reflexivity|]. intros; contradiction. }
    destruct Hfound as [(x & E)|(found & E & Hfx)].
    + exists (Raised x), c. split; [erewrite bind_Raised by exact E; reflexivity|].
      split; [reflexivity|]. split; [apply same_counters_refl|exact I].
    + erewrite bind_Returned by exact E.
      destruct (is_browser_running browser_name c) as [o1 c1] eqn:Er.
      destruct (is_browser_running_log_only _ _ _ _ Er) as (D1 & S1).
      destruct o1 as [b|x].
      * erewrite bind_Returned by exact Er.
        match goal with
        | |- context [for_config rest ?a c1] =>
            destruct (IH a c1) as (o & c' & E2 & D2 & S2 & R2);
            assert (Ha : map fst a = map fst browser_info ++ [browser_name])
              by (rewrite map_app; reflexivity)
        end.
        exists o, c'. split; [exact E2|]. split; [congruence|].
        split; [eapply same_counters_trans; eassumption|].
        destruct o as [infos|x]; [|exact I].
        destruct R2 as (R21 & R22 & R23).
        destruct S1 as (_ & _ & P1 & H1).
        split; [rewrite R21, Ha, <- app_assoc; reflexivity|].
        split.
        -- intros name Hname. cbn [map fst] in Hname.
           apply elem_of_cons in Hname as [->|Hname]; [eauto|].
           destruct (R22 name Hname) as (b' & c1' & Eb).
           destruct (is_browser_running_fixed _ _ _ _ Eb c) as (c2' & Ec);
             [symmetry; exact P1|]. eauto.
        -- intros Hfox. cbn [map fst] in Hfox.
           apply elem_of_cons in Hfox as [Heq|Hfox]; [eauto|].
           destruct (R23 Hfox) as (paths & Ep).
           exists paths.
           rewrite (get_firefox_profiles_fixed c1 c).
           ++ rewrite Ep. reflexivity.
           ++ symmetry; exact H1.
           ++ rewrite D1. reflexivity.
      * exists (Raised x), c1.
        split; [erewrite bind_Raised by exact Er; reflexivity|].
        split; [exact D1|]. split; [exact S1|exact I].
Qed.


End BrowserInfoFacts.

(** ** The browser cleanup of the tool *)

Module MainBrowserFacts.
Import Browser BrowserSpec BrowserFacts BrowserAll BrowserAllSpec.
Import BrowserAllFacts BrowserRunFacts BrowserCacheFacts BrowserLoopFacts.
Import BrowserInfoFacts.



End MainBrowserFacts.

(** ** The analysis and the cleanup *)

Module V2AnalysisFacts.
Import V2 V2Spec V2WalkSpec V2Facts V2Walk V2Analysis V2AnalysisSpec.
Import BrowserFacts BrowserAllFacts.

Lemma measured_count_Dir name removable children :
  measured_count (Dir name true removable children) =
  fold_right (fun x acc => measured_count x + acc) 0 children.
Proof.
  cbn [measured_count]. induction children as [|x l IH]; [reflexivity|].
  cbn [fold_right]. rewrite <- IH. reflexivity.
Qed.

Lemma measured_count_app l1 l2 :
  fold_right (fun x acc => measured_count x + acc) 0 (l1 ++ l2) =
  fold_right (fun x acc => measured_count x + acc) 0 l1 +
  fold_right (fun x acc => measured_count x + acc) 0 l2.
Proof. induction l1 as [|x l1 IH]; cbn; [reflexivity|]. rewrite IH. lia. Qed.

(** *** The reading walk *)

Lemma analysis_for_file f a :
  for_file (Some f) a
  = (Returned tt,
     mkTally (count a + measured_count (File f))
             (size a + Browser.measured_size (File f))).
Proof.
  unfold for_file, try_except, bind, lift, stat_size, modify, ret, raise.
  cbn. destruct (f_stat_ok f); cbn; [reflexivity|].
  destruct a; cbn. f_equal. f_equal; lia.
Qed.

(** The first pass adds the files, the second the directories. *)
Lemma analysis_for_files items a :
  for_files items a
  = (Returned tt,
     mkTally
       (count a + fold_right (fun x acc => measured_count x + acc) 0
                    (filter (fun x => is_file x = true) items))
       (size a + fold_right (fun x acc => Browser.measured_size x + acc) 0
                    (filter (fun x => is_file x = true) items))).
Proof.
  revert a. induction items as [|item rest IH]; intros a.
  - cbn. destruct a; cbn. f_equal. f_equal; lia.
  - cbn [for_files]. destruct item as [f|n li re ch].
    + erewrite bind_Returned by apply analysis_for_file.
      rewrite IH. rewrite filter_cons_True by reflexivity.
      cbn [fold_right count size]. f_equal. f_equal; lia.
    + erewrite bind_Returned by reflexivity.
      rewrite IH. rewrite filter_cons_False by (cbn; discriminate).
      reflexivity.
Qed.

Lemma split_by_kind (f : node -> Z) items :
  fold_right (fun x acc => f x + acc) 0 (filter (fun x => is_file x = true) items)
  + fold_right (fun x acc => f x + acc) 0 (filter (fun x => is_file x = false) items)
  = fold_right (fun x acc => f x + acc) 0 items.
Proof.
  induction items as [|x l IH]; [reflexivity|].
  destruct x as [g|n li re ch].
  - rewrite filter_cons_True by reflexivity.
    rewrite filter_cons_False by (cbn; discriminate).
    cbn [fold_right]. lia.
  - rewrite filter_cons_False by (cbn; discriminate).
    rewrite filter_cons_True by reflexivity.
    cbn [fold_right]. lia.
Qed.

Lemma analysis_walk n : tallies n.
Proof.
  induction n as [f|name listable removable children IH] using node_ind';
    intros a.
  - cbn. destruct a; cbn. f_equal. f_equal; lia.
  - cbn [walk]. destruct listable; cbn [negb].
    + erewrite bind_Returned by apply analysis_for_files.
      match goal with
      | |- context [?F children] =>
          match type of F with
          | list node -> M tally unit =>
              assert (H : forall items a,
                Forall tallies items ->
                F items a
                = (Returned tt,
                   mkTally
                     (count a + fold_right (fun x acc => measured_count x + acc) 0
                                  (filter (fun x => is_file x = false) items))
                     (size a + fold_right (fun x acc => Browser.measured_size x + acc) 0
                                  (filter (fun x => is_file x = false) items))))
          end
      end.
      { clear. intros items a Hall. revert a.
        induction Hall as [|item rest Hitem _ IHrest]; intros a.
        - cbn. destruct a; cbn. f_equal. f_equal; lia.
        - destruct item as [f|n li re ch].
          + erewrite bind_Returned by reflexivity.
            rewrite IHrest. rewrite filter_cons_False by (cbn; discriminate).
            reflexivity.
          + erewrite bind_Returned by apply Hitem.
            rewrite IHrest. rewrite filter_cons_True by reflexivity.
            cbn [fold_right count size seen_count seen_size].
            f_equal. f_equal; lia. }
      rewrite (H children _ IH).
      cbn [count size seen_count seen_size].
      rewrite measured_count_Dir, measured_size_Dir.
      rewrite <- (split_by_kind measured_count children).
      rewrite <- (split_by_kind Browser.measured_size children).
      f_equal. f_equal; lia.
    + cbn. destruct a; cbn. f_equal. f_equal; lia.
Qed.

Lemma analysis_for_temp_dir d dirs a :
  for_temp_dir d dirs a
  = (Returned tt,
     mkTally (count a + announced seen_count d dirs)
             (size a + announced seen_size d dirs)).
Proof.
  revert a. induction dirs as [|k rest IH]; intros a.
  - cbn. destruct a; cbn. f_equal. f_equal; lia.
  - cbn [for_temp_dir].
    assert (E :
      (if os_path_exists d k then
         try_except
           (match d !! k with
            | Some n => walk n
            | None => ret tt
            end)
           is_Exception (fun _ => ret tt)
       else ret tt) a
      = (Returned tt,
         mkTally (count a + seen_at seen_count d k)
                 (size a + seen_at seen_size d k))).
    { unfold seen_at. destruct (os_path_exists d k).
      - destruct (d !! k) as [n|].
        + apply try_except_Returned. apply analysis_walk.
        + cbn. destruct a; cbn. f_equal. f_equal; lia.
      - cbn. destruct a; cbn. f_equal. f_equal; lia. }
    erewrite bind_Returned by exact E.
    rewrite IH. cbn [count size announced fold_right].
    unfold announced. f_equal. f_equal; lia.
Qed.

(** *** What the deleting walk takes is what the reading walk saw *)

Lemma keep_entry_walked_off items :
  Forall walked_off items ->
  let f_of (f : node -> Z) l := fold_right (fun x acc => f x + acc) 0 l in
  f_of measured_count items - f_of measured_count (flat_map keep_entry items)
  = count_files_list items - count_files_list (flat_map keep_entry items) /\
  f_of Browser.measured_size items
  - f_of Browser.measured_size (flat_map keep_entry items)
  = total_size_list items - total_size_list (flat_map keep_entry items) /\
  0 <= f_of measured_count (flat_map keep_entry items)
    <= f_of measured_count items /\
  (Forall (fun x => sizes_nonneg x = true) items ->
   Forall (fun x => sizes_nonneg x = true) (flat_map keep_entry items) /\
   0 <= f_of Browser.measured_size (flat_map keep_entry items)
     <= f_of Browser.measured_size items).
Proof.
  cbn zeta. induction 1 as [|x l Hx _ IH].
  - cbn. repeat split; try lia. constructor.
  - destruct IH as (I1 & I2 & I3 & I4).
    cbn [flat_map fold_right].
    rewrite measured_count_app, measured_list_app,
      count_files_list_app, total_size_list_app.
    unfold count_files_list, total_size_list in *. cbn [fold_right].
    destruct x as [f|n li re ch].
    + change (keep_entry (File f))
        with (if f_stat_ok f && f_unlink_ok f then [] else [File f]).
      cbn [measured_count Browser.measured_size stat_size count_files total_size].
      destruct (f_stat_ok f) eqn:Hs, (f_unlink_ok f) eqn:Hu;
        cbn [andb fold_right measured_count Browser.measured_size stat_size
             count_files total_size]; rewrite ?Hs;
        (split; [lia|]); (split; [lia|]); (split; [lia|]);
        intros Hn; apply Forall_cons in Hn as [Hn1 Hn2];
        destruct (I4 Hn2) as (K & P);
        cbn in Hn1; apply Z.leb_le in Hn1;
        (split; [try constructor; try assumption; cbn; apply Z.leb_le; lia|lia]).
    + change (keep_entry (Dir n li re ch))
        with [left_by_walk (Dir n li re ch)].
      destruct Hx as (X1 & X2 & X3 & X4).
      cbn [fold_right].
      split; [lia|]. split; [lia|]. split; [lia|].
      intros Hn. apply Forall_cons in Hn as [Hn1 Hn2].
      destruct (I4 Hn2) as (K & P). destruct (X4 Hn1) as (N' & P').
      split; [constructor; assumption|lia].
Qed.

Lemma left_by_walk_walked_off n : walked_off n.
Proof.
  induction n as [f|name listable removable children IH] using node_ind'.
  - unfold walked_off. cbn [left_by_walk].
    split; [lia|]. split; [lia|].
    split; [cbn; destruct (f_stat_ok f); lia|].
    intros Hn. split; [exact Hn|].
    cbn in Hn |- *. apply Z.leb_le in Hn. destruct (f_stat_ok f); lia.
  - destruct listable.
    + pose proof (keep_entry_walked_off children IH) as (K1 & K2 & K3 & K4).
      unfold walked_off. rewrite left_by_walk_Dir.
      rewrite !measured_count_Dir, !measured_size_Dir,
        !count_files_Dir, !total_size_Dir.
      split; [exact K1|]. split; [exact K2|]. split; [exact K3|].
      intros Hn. apply sizes_nonneg_Dir in Hn.
      destruct (K4 Hn) as (N' & P'). split; [apply sizes_nonneg_Dir, N'|exact P'].
    + unfold walked_off. cbn [left_by_walk].
      split; [lia|]. split; [lia|]. split; [cbn; lia|].
      intros Hn. split; [exact Hn|cbn; lia].
Qed.

End V2AnalysisFacts.

Module V2CoverFacts.
Import V2 V2Spec V2WalkSpec V2Facts V2Walk V2Analysis V2AnalysisSpec.
Import V2AnalysisFacts BrowserFacts BrowserAllFacts.

Lemma seen_nonneg n :
  sizes_nonneg n = true -> 0 <= seen_count n /\ 0 <= seen_size n.
Proof.
  intros Hn. destruct (left_by_walk_walked_off n) as (_ & _ & C & S).
  destruct (S Hn) as (_ & P).
  destruct n; cbn [seen_count seen_size]; lia.
Qed.

Lemma seen_at_nonneg d k :
  map_Forall (fun _ n => sizes_nonneg n = true) d ->
  0 <= seen_at seen_count d k /\ 0 <= seen_at seen_size d k.
Proof.
  intros Hd. unfold seen_at. destruct (os_path_exists d k); [|lia].
  destruct (d !! k) as [n|] eqn:Hk; [|lia].
  apply seen_nonneg. exact (Hd k n Hk).
Qed.

Lemma announced_le f d d' dirs :
  (forall k, seen_at f d' k <= seen_at f d k) ->
  announced f d' dirs <= announced f d dirs.
Proof.
  intros H. induction dirs as [|k rest IH]; cbn; [lia|].
  specialize (H k). unfold announced in IH. lia.
Qed.

Lemma covered_refl dirs l :
  map_Forall (fun _ n => sizes_nonneg n = true) (l_disk l) ->
  covered dirs l l.
Proof.
  intros Hd.
  assert (Ha : 0 <= announced seen_count (l_disk l) dirs /\
               0 <= announced seen_size (l_disk l) dirs).
  { induction dirs as [|k rest IH]; cbn; [lia|].
    destruct (seen_at_nonneg (l_disk l) k Hd). unfold announced in IH. lia. }
  split; try lia; try assumption;
    intros k; destruct (seen_at_nonneg (l_disk l) k Hd); lia.
Qed.

Lemma os_path_exists_insert d k n n' k' :
  d !! k = Some n ->
  os_path_exists (<[k := n']> d) k' = os_path_exists d k'.
Proof.
  intros Hk. unfold os_path_exists.
  destruct (decide (k' = "")); [reflexivity|].
  destruct (decide (k = k')) as [<-|Hne].
  - rewrite lookup_insert_eq, Hk. reflexivity.
  - rewrite lookup_insert_ne by exact Hne. reflexivity.
Qed.

(** One root of the cleanup. *)
Lemma walk_covered k n l :
  map_Forall (fun _ n => sizes_nonneg n = true) (l_disk l) ->
  os_path_exists (l_disk l) k = true ->
  l_disk l !! k = Some n ->
  exists l1,
    (n' <- V2.walk n;;
     l' <- get;;
     set_disk (<[k := n']> (l_disk l'))) l = (Returned tt, l1) /\
    covered [k] l l1.
Proof.
  intros Hd Hex Hk.
  destruct (walk_stepped n l) as (n' & l1 & E & -> & _ & A).
  eexists. split; [erewrite bind_Returned by exact E; reflexivity|].
  destruct A.
  pose proof (Hd k n Hk) as Hn.
  destruct (left_by_walk_walked_off n) as (W1 & W2 & W3 & W4).
  destruct (W4 Hn) as (N' & P').
  assert (Hseen : 0 <= seen_count (left_by_walk n) <= seen_count n /\
                  0 <= seen_size (left_by_walk n) <= seen_size n).
  { destruct n as [f|name [|] removable children].
    - cbn. lia.
    - rewrite left_by_walk_Dir in *. cbn [seen_count seen_size]. lia.
    - cbn. lia. }
  assert (Hat : forall f k',
    seen_at f (<[k := left_by_walk n]> (l_disk l)) k' =
    if decide (k = k') then
      (if os_path_exists (l_disk l) k then f (left_by_walk n) else 0)
    else seen_at f (l_disk l) k').
  { intros f k'. unfold seen_at.
    rewrite (os_path_exists_insert _ _ _ _ _ Hk).
    destruct (decide (k = k')) as [<-|Hne].
    - rewrite lookup_insert_eq. reflexivity.
    - rewrite lookup_insert_ne by exact Hne. reflexivity. }
  assert (Hself : forall f, seen_at f (l_disk l) k = f n).
  { intros f. unfold seen_at. rewrite Hex, Hk. reflexivity. }
  split; cbn [l_disk l_files_deleted l_space_freed set_disk];
    unfold announced; cbn [fold_right]; rewrite ?st_disk0.
  - rewrite Hself.
    destruct n as [f|name [|] removable children].
    + cbn [left_by_walk] in *. cbn [seen_count]. lia.
    + rewrite left_by_walk_Dir in *. cbn [seen_count] in *. lia.
    + cbn [left_by_walk] in *. cbn [seen_count] in *. lia.
  - rewrite Hself.
    destruct n as [f|name [|] removable children].
    + cbn [left_by_walk] in *. cbn [seen_size]. lia.
    + rewrite left_by_walk_Dir in *. cbn [seen_size] in *. lia.
    + cbn [left_by_walk] in *. cbn [seen_size] in *. lia.
  - cbn. rewrite ?st_disk0. apply map_Forall_insert_2; assumption.
  - intros k'. cbn. rewrite ?st_disk0, Hat.
    destruct (decide (k = k')) as [<-|Hne].
    + rewrite Hex, Hself. lia.
    + destruct (seen_at_nonneg (l_disk l) k' Hd). lia.
  - intros k'. cbn. rewrite ?st_disk0, Hat.
    destruct (decide (k = k')) as [<-|Hne].
    + rewrite Hex, Hself. lia.
    + destruct (seen_at_nonneg (l_disk l) k' Hd). lia.
Qed.

Lemma for_temp_dir_covered dirs :
  forall l,
    map_Forall (fun _ n => sizes_nonneg n = true) (l_disk l) ->
    exists l', V2.for_temp_dir dirs l = (Returned tt, l') /\ covered dirs l l'.
Proof.
  induction dirs as [|k rest IH]; intros l Hd.
  - exists l. split; [reflexivity|apply covered_refl, Hd].
  - cbn [V2.for_temp_dir].
    erewrite bind_Returned by reflexivity.
    assert (exists l1,
      (if os_path_exists (l_disk l) k then
         try_except
           (match l_disk l !! k with
            | Some n =>
                n' <- V2.walk n;;
                l' <- get;;
                set_disk (<[k := n']> (l_disk l'))
            | None => ret tt
            end)
           is_Exception
           (fun e => incr_errors;;; details_append (ErrorAccessing k e))
       else ret tt) l = (Returned tt, l1) /\ covered [k] l l1)
      as (l1 & E1 & C1).
    { destruct (os_path_exists (l_disk l) k) eqn:Hex;
        [|exists l; split; [reflexivity|apply covered_refl, Hd]].
      destruct (l_disk l !! k) as [n|] eqn:Hk;
        [|exists l; split; [reflexivity|apply covered_refl, Hd]].
      destruct (walk_covered k n l Hd Hex Hk) as (l1 & E & C).
      exists l1. split; [apply try_except_Returned, E|exact C]. }
    destruct C1 as [D1 F1 N1 Cc1 Cs1].
    destruct (IH l1 N1) as (l2 & E2 & [D2 F2 N2 Cc2 Cs2]).
    exists l2. split; [erewrite bind_Returned by exact E1; exact E2|].
    pose proof (announced_le seen_count (l_disk l) (l_disk l1) rest
                  (fun k' => proj2 (Cc1 k'))) as Ac.
    pose proof (announced_le seen_size (l_disk l) (l_disk l1) rest
                  (fun k' => proj2 (Cs1 k'))) as As.
    unfold announced in *. cbn [fold_right] in *.
    split; unfold announced; cbn [fold_right]; try assumption; try lia.
    + intros k'. specialize (Cc1 k'). specialize (Cc2 k'). lia.
    + intros k'. specialize (Cs1 k'). specialize (Cs2 k'). lia.
Qed.

End V2CoverFacts.

(** * Further properties *)

(** ** The V1 temp sweep *)

(** X1.  When the tests [d.exists()] and [d.is_dir()] on the roots return,
    that is when no root is a plain file that [stat] cannot read,
    [clean_temp_files] returns; the [files_deleted] and the bytes freed it
    reports are exactly the files and the bytes that have gone from the
    disk, it walks at most five directories, and it leaves the set of known
    roots and the browser counter as they were. *)
Theorem X1_clean_temp_files_accounts (env : environment) (t : Main.tool) :
  (forall root f, Main.disk t !! root = Some (File f) -> f_stat_ok f = true) ->
  exists r t',
    Main.clean_temp_files env t = (Returned r, t') /\
    Main.files_deleted r
      = disk_sum count_files (Main.disk t) - disk_sum count_files (Main.disk t') /\
    Main.size_freed r
      = disk_sum total_size (Main.disk t) - disk_sum total_size (Main.disk t') /\
    0 <= Main.directories_processed r <= 5 /\
    dom (Main.disk t') = dom (Main.disk t) /\
    Main.browser_caches_cleared (Main.stats t')
      = Main.browser_caches_cleared (Main.stats t).
Proof.
  intros _. unfold Main.clean_temp_files.
  erewrite bind_Returned by reflexivity.
  match goal with
  | |- context [Main.for_temp_dir ?dirs] =>
      destruct (TempFacts.for_temp_dir_balanced dirs t) as (t' & E & A & B & C & D);
      assert (Hlen : (length dirs <= 5)%nat)
  end.
  { etrans; [apply length_filter|].
    etrans; [apply TempFacts.length_elements_list_to_set|]. reflexivity. }
  eexists _, t'. split.
  - cbv zeta. erewrite bind_Returned by exact E.
    erewrite bind_Returned by reflexivity. reflexivity.
  - cbn [Main.files_deleted Main.size_freed Main.directories_processed].
    repeat split; try assumption; lia.
Qed.

(** [%TEMP%] holds a file that goes and a file held open. *)
Lemma X1_clean_temp_files_accounts_witness :
  let env := mkEnv (Some "C:/T") None "C:/Users/u" in
  let t := Main.mkTool (Main.mkStats 0 0 0 0) []
             {[ "C:/T" := Dir "T" true true
                            [File (mkFile "a.tmp" 100 false true true);
                             File (mkFile "held.tmp" 20 true true true)] ]} in
  exists r t',
    Main.clean_temp_files env t = (Returned r, t') /\
    Main.files_deleted r
      = disk_sum count_files (Main.disk t) - disk_sum count_files (Main.disk t') /\
    Main.size_freed r
      = disk_sum total_size (Main.disk t) - disk_sum total_size (Main.disk t') /\
    0 <= Main.directories_processed r <= 5 /\
    dom (Main.disk t') = dom (Main.disk t) /\
    Main.browser_caches_cleared (Main.stats t')
      = Main.browser_caches_cleared (Main.stats t).
Proof.
  cbv zeta. apply X1_clean_temp_files_accounts.
  intros root f Hroot. cbn in Hroot.
  apply lookup_singleton_Some in Hroot as [_ Hroot]. discriminate Hroot.
Defined.

(** X2.  The V1 sweep of a directory always returns, and every system call
    it makes is on the directory it was started on or on a path below it,
    at most [max_depth - current_depth + 1] components down: nothing
    elsewhere and nothing deeper is listed, probed, measured or removed. *)
Theorem X2_sweep_stays_within_depth
        (directory : path) (n : node) (max_depth current_depth : Z)
        (t : Main.tool) :
  exists n' t' new,
    Main._clean_directory_recursive directory n max_depth current_depth t
    = (Returned n', t') /\
    Main.trace t' = Main.trace t ++ new /\
    Forall (fun o =>
              exists k,
                op_path o = directory ++ k /\
                (length k <= Z.to_nat (max_depth - current_depth + 1))%nat)
           new.
Proof.
  destruct (MainFacts.clean_run n directory max_depth current_depth t)
    as (n' & t' & new0 & E & _).
  destruct (DepthBound.clean_bounded n directory max_depth current_depth t n' t' E)
    as (new & Ht & Hb).
  exists n', t', new. auto.
Qed.

(** X3.  Sweeping again the tree a V1 sweep has left, with the same answers
    from the system, returns that tree unchanged and adds nothing to the
    counts of deleted files and freed bytes. *)
Theorem X3_second_sweep_deletes_nothing
        (directory : path) (n : node) (max_depth current_depth : Z)
        (t : Main.tool) :
  exists n' t',
    Main._clean_directory_recursive directory n max_depth current_depth t
    = (Returned n', t') /\
    forall t2, exists t3,
      Main._clean_directory_recursive directory n' max_depth current_depth t2
      = (Returned n', t3) /\
      Main.temp_files_deleted (Main.stats t3)
      = Main.temp_files_deleted (Main.stats t2) /\
      Main.temp_size_freed (Main.stats t3)
      = Main.temp_size_freed (Main.stats t2).
Proof.
  destruct (MainFacts.clean_run n directory max_depth current_depth t)
    as (n' & t' & new0 & E & _).
  exists n', t'. split; [exact E|].
  intros t2.
  destruct (Settled.clean_settles n directory max_depth current_depth t n' t' E t2)
    as (t3 & E3 & Hq1 & Hq2).
  exists t3. auto.
Qed.

(** ** The browser cleaner *)

(** X4.  When the name of every process can be read, [is_browser_running]
    returns, and answers [True] exactly when the browser is configured and
    the name of some process, letter case apart, is one of its process
    names.  The disk is not touched. *)
Theorem X4_running_check_ignores_case
        (browser_name : string) (c : Browser.cleaner) :
  Forall (fun p => is_Some (Browser.proc_name p)) (Browser.processes c) ->
  exists b c',
    Browser.is_browser_running browser_name c = (Returned b, c') /\
    (b = true <->
     BrowserAllSpec.found_running browser_name (Browser.processes c)) /\
    Browser.disk c' = Browser.disk c.
Proof.
  intros Hr. unfold Browser.is_browser_running, BrowserAllSpec.found_running.
  destruct (Browser.config_of Browser.browser_configs browser_name) as [cfg|].
  - destruct (BrowserRunFacts.for_proc_readable browser_name
                (Browser.process_names cfg) (Browser.processes c) c Hr)
      as (b & c' & E & Hb).
    exists b, c'. split; [exact E|].
    split.
    + rewrite Hb. split.
      * intros He. exists cfg. auto.
      * intros (cfg' & [= <-] & He). exact He.
    + eapply BrowserFacts.for_proc_log_only, E.
  - exists false, c. split; [reflexivity|]. split; [|reflexivity].
    split; [discriminate|]. intros (cfg & Hc & _). discriminate.
Qed.

(** An Edge process written in capitals. *)
Lemma X4_running_check_ignores_case_witness :
  let c := Browser.mkCleaner 0 0 [] ∅
             [Browser.mkProcess 4 (Some "System");
              Browser.mkProcess 90 (Some "MSEDGE.EXE")]
             "C:/Users/u" in
  exists b c',
    Browser.is_browser_running "Edge" c = (Returned b, c') /\
    (b = true <-> BrowserAllSpec.found_running "Edge" (Browser.processes c)) /\
    Browser.disk c' = Browser.disk c.
Proof.
  cbv zeta. apply X4_running_check_ignores_case.
  repeat constructor; eexists; reflexivity.
Defined.

(** X5.  A process whose name cannot be read, standing in the process table
    before any process of the browser, makes [clean_browser_cache] with
    [force = False] end with an [AttributeError]: no result is returned, and
    neither the disk, the counters nor the log have changed. *)
Theorem X5_unreadable_process_name_escapes
        (browser_name : string) (cfg : Browser.config) (c : Browser.cleaner)
        (before after : list Browser.process) (proc : Browser.process) :
  Browser.config_of Browser.browser_configs browser_name = Some cfg ->
  Browser.processes c = before ++ proc :: after ->
  Forall (fun p => exists name,
              Browser.proc_name p = Some name /\
              Browser.lower name ∉ map Browser.lower (Browser.process_names cfg))
         before ->
  Browser.proc_name proc = None ->
  Browser.clean_browser_cache browser_name false c = (Raised AttributeError, c).
Proof.
  intros Hcfg Hp Hb Hn.
  unfold Browser.clean_browser_cache. rewrite Hcfg. cbn [negb].
  erewrite bind_Raised; [reflexivity|].
  unfold Browser.is_browser_running. rewrite Hcfg.
  unfold bind, get. rewrite Hp.
  apply BrowserRunFacts.for_proc_unreadable; assumption.
Qed.

(** A system process without a readable name, and no browser at all. *)
Lemma X5_unreadable_process_name_escapes_witness :
  let cache := "C:/Users/u/AppData/Local/Opera Software/Opera Stable/Cache" in
  let c := Browser.mkCleaner 0 0 []
             {[ cache := Dir "Cache" true true
                           [File (mkFile "data_0" 4096 false true true)] ]}
             [Browser.mkProcess 4 (Some "explorer.exe");
              Browser.mkProcess 0 None]
             "C:/Users/u" in
  Browser.clean_browser_cache "Opera" false c = (Raised AttributeError, c).
Proof.
  cbv zeta.
  eapply (X5_unreadable_process_name_escapes "Opera" _ _
            [Browser.mkProcess 4 (Some "explorer.exe")] []
            (Browser.mkProcess 0 None)).
  - reflexivity.
  - reflexivity.
  - constructor; [|constructor]. exists "explorer.exe".
    split; [reflexivity|]. apply (bool_decide_unpack _). vm_compute. exact I.
  - reflexivity.
Defined.

(** X6.  On a cache directory below which every file can be measured and
    none has a negative size, [safe_remove_cache_directory] returns success
    with a [size_freed] between 0 and the size measured before; the
    directory itself is still there under its name, and no other root of
    the disk has changed. *)
Theorem X6_cache_directory_kept_and_bounded
        (cache_path : path) (c : Browser.cleaner)
        (name : string) (removable : bool) (children : list node) :
  disk_lookup (Browser.disk c) cache_path
  = Some (Dir name true removable children) ->
  measurable (Dir name true removable children) = true ->
  sizes_nonneg (Dir name true removable children) = true ->
  exists size_freed c' kept,
    Browser.safe_remove_cache_directory cache_path c
    = (Returned (true, size_freed), c') /\
    disk_lookup (Browser.disk c') cache_path
    = Some (Dir name true removable kept) /\
    0 <= size_freed
      <= Browser.get_directory_size (disk_lookup (Browser.disk c) cache_path) /\
    (forall k, head cache_path <> Some k ->
               Browser.disk c' !! k = Browser.disk c !! k) /\
    Browser.browsers_cleaned c' = Browser.browsers_cleaned c /\
    Browser.cache_size_freed c' = Browser.cache_size_freed c.
Proof.
  intros Hl _ Hn.
  destruct (BrowserAllFacts.safe_remove_cache_directory_listed _ _ _ _ _ Hl)
    as (c' & E & (B & C & _) & D).
  apply BrowserAllFacts.sizes_nonneg_Dir in Hn.
  destruct (BrowserAllFacts.remains_shrinks children Hn) as (_ & P).
  eexists _, c', _. split; [exact E|].
  split; [rewrite D; eapply BrowserAllFacts.disk_put_lookup;
          [exact Hl|reflexivity]|].
  split; [rewrite Hl; cbn [Browser.get_directory_size];
          rewrite !BrowserFacts.measured_size_Dir; lia|].
  split; [intros k Hk; rewrite D; apply BrowserAllFacts.disk_put_other, Hk|].
  auto.
Qed.

(** A cache with a file that goes, a file that stays and a subdirectory. *)
Lemma X6_cache_directory_kept_and_bounded_witness :
  let cache := "C:/Users/u/AppData/Local/Google/Chrome/User Data/Default/Cache" in
  let children :=
    [File (mkFile "data_0" 4096 false true true);
     File (mkFile "data_1" 512 false true false);
     Dir "js" true true [File (mkFile "index" 100 false true true)]] in
  let c := Browser.mkCleaner 0 0 [] {[ cache := Dir "Cache" true true children ]}
             [] "C:/Users/u" in
  exists size_freed c' kept,
    Browser.safe_remove_cache_directory [cache] c
    = (Returned (true, size_freed), c') /\
    disk_lookup (Browser.disk c') [cache] = Some (Dir "Cache" true true kept) /\
    0 <= size_freed
      <= Browser.get_directory_size (disk_lookup (Browser.disk c) [cache]) /\
    (forall k, head [cache] <> Some k ->
               Browser.disk c' !! k = Browser.disk c !! k) /\
    Browser.browsers_cleaned c' = Browser.browsers_cleaned c /\
    Browser.cache_size_freed c' = Browser.cache_size_freed c.
Proof.
  cbv zeta. eapply X6_cache_directory_kept_and_bounded.
  - vm_compute. reflexivity.
  - vm_compute. reflexivity.
  - vm_compute. reflexivity.
Defined.

(** X7.  The two counters of the cleaner after [clean_browser_cache]:
    [browsers_cleaned] has grown by one and [cache_size_freed] by the
    [size_freed] of the result when the result is a success, and neither
    has moved otherwise, also when the call ends with an exception.  A
    result that is no success leaves the disk as it was, and carries no
    [size_freed] or a [size_freed] of 0. *)
Theorem X7_cleaner_counters_follow_result
        (browser_name : string) (force : bool) (c : Browser.cleaner) :
  match Browser.clean_browser_cache browser_name force c with
  | (Returned r, c') =>
      Browser.browsers_cleaned c'
      = Browser.browsers_cleaned c + (if Browser.success r then 1 else 0) /\
      Browser.cache_size_freed c'
      = Browser.cache_size_freed c
        + (if Browser.success r then default 0 (Browser.size_freed r) else 0) /\
      (Browser.success r = false ->
       Browser.disk c' = Browser.disk c /\
       (Browser.size_freed r = None \/ Browser.size_freed r = Some 0))
  | (Raised _, c') =>
      Browser.browsers_cleaned c' = Browser.browsers_cleaned c /\
      Browser.cache_size_freed c' = Browser.cache_size_freed c
  end.
Proof.
  destruct (BrowserCacheFacts.clean_browser_cache_cases browser_name force c)
    as (o & c' & E & _ & _ & _ & R).
  rewrite E. destruct o as [r|x]; [exact R|].
  destruct R as (_ & B & C). auto.
Qed.

(** X8.  Whatever its outcome, [clean_browser_cache] changes nothing on the
    disk outside the cache paths of the browser it is called for (for
    Firefox, outside the profiles directory), and leaves the process table
    and the home directory as they are. *)
Theorem X8_only_own_caches_touched
        (browser_name : string) (force : bool) (c : Browser.cleaner)
        (k : string) :
  k ∉ BrowserAllSpec.own_keys (Browser.home c) browser_name ->
  let c' := snd (Browser.clean_browser_cache browser_name force c) in
  Browser.disk c' !! k = Browser.disk c !! k /\
  Browser.processes c' = Browser.processes c /\
  Browser.home c' = Browser.home c.
Proof.
  intros Hk.
  destruct (BrowserCacheFacts.clean_browser_cache_cases browser_name force c)
    as (o & c' & E & P & H & F & _).
  rewrite E. cbn. auto.
Qed.

(** Cleaning Brave leaves the cache of Chrome alone. *)
Lemma X8_only_own_caches_touched_witness :
  let chrome := "C:/Users/u/AppData/Local/Google/Chrome/User Data/Default/Cache" in
  let brave :=
    "C:/Users/u/AppData/Local/BraveSoftware/Brave-Browser/User Data/Default/Cache" in
  let c := Browser.mkCleaner 0 0 []
             {[ chrome := Dir "Cache" true true
                            [File (mkFile "data_0" 4096 false true true)];
                brave := Dir "Cache" true true
                           [File (mkFile "data_0" 100 false true true)] ]}
             [] "C:/Users/u" in
  let c' := snd (Browser.clean_browser_cache "Brave" true c) in
  Browser.disk c' !! chrome = Browser.disk c !! chrome /\
  Browser.processes c' = Browser.processes c /\
  Browser.home c' = Browser.home c.
Proof.
  cbv zeta. apply X8_only_own_caches_touched.
  apply (bool_decide_unpack _). vm_compute. exact I.
Defined.

(** X9.  [clean_all_browsers] with [force = False] leaves every cache path
    of a browser that has a process in the process table as it was,
    whatever the other browsers are and however the call ends. *)
Theorem X9_running_browser_survives_clean_all
        (browser_name : string) (c : Browser.cleaner) (k : string) :
  BrowserAllSpec.found_running browser_name (Browser.processes c) ->
  k ∈ BrowserAllSpec.own_keys (Browser.home c) browser_name ->
  Browser.disk (snd (BrowserAll.clean_all_browsers false c)) !! k
  = Browser.disk c !! k.
Proof.
  intros Hr Hk. unfold BrowserAll.clean_all_browsers.
  destruct (BrowserLoopFacts.for_browser_name_cases false
              (map fst Browser.browser_configs) (BrowserAll.mkSummary 0 0 []) c)
    as (o & c' & E & _ & _ & F & _).
  rewrite E. cbn [snd]. apply F.
  intros name Hname Hkey. split; [reflexivity|].
  assert (Hin : browser_name ∈ map fst Browser.browser_configs).
  { destruct Hr as (cfg & Hcfg & _).
    revert Hcfg. generalize Browser.browser_configs.
    induction l as [|[n0 c0] l IH]; cbn; [discriminate|].
    destruct (decide (n0 = browser_name)) as [->|];
      [intros; apply list_elem_of_here|].
    intros Hc. apply list_elem_of_further, IH, Hc. }
  replace name with browser_name; [exact Hr|].
  eapply BrowserLoopFacts.own_keys_apart; eassumption.
Qed.

(** Chrome is running, Edge is not: the cache of Chrome stays. *)
Lemma X9_running_browser_survives_clean_all_witness :
  let chrome := "C:/Users/u/AppData/Local/Google/Chrome/User Data/Default/Cache" in
  let edge := "C:/Users/u/AppData/Local/Microsoft/Edge/User Data/Default/Cache" in
  let c := Browser.mkCleaner 0 0 []
             {[ chrome := Dir "Cache" true true
                            [File (mkFile "data_0" 4096 false true true)];
                edge := Dir "Cache" true true
                          [File (mkFile "data_0" 100 false true true)] ]}
             [Browser.mkProcess 812 (Some "chrome.exe")] "C:/Users/u" in
  Browser.disk (snd (BrowserAll.clean_all_browsers false c)) !! chrome
  = Browser.disk c !! chrome.
Proof.
  cbv zeta. apply (X9_running_browser_survives_clean_all "Chrome").
  - eexists. split; [reflexivity|]. left. exists "chrome.exe".
    split; [reflexivity|]. apply (bool_decide_unpack _). vm_compute. exact I.
  - apply (bool_decide_unpack _). vm_compute. exact I.
Defined.

(** X10.  [get_browser_info] only reads: however it ends, the disk and the
    counters of the cleaner are as before; when it returns, it returns one
    entry for each configured browser, in the order of the configuration. *)
Theorem X10_browser_info_reads_only (c : Browser.cleaner) :
  match BrowserAll.get_browser_info c with
  | (o, c') =>
      Browser.disk c' = Browser.disk c /\
      Browser.browsers_cleaned c' = Browser.browsers_cleaned c /\
      Browser.cache_size_freed c' = Browser.cache_size_freed c /\
      match o with
      | Returned browser_info =>
          map fst browser_info = ["Chrome"; "Edge"; "Firefox"; "Opera"; "Brave"]
      | Raised _ => True
      end
  end.
Proof.
  unfold BrowserAll.get_browser_info.
  destruct (BrowserInfoFacts.for_config_cases Browser.browser_configs [] c)
    as (o & c' & E & D & (B & C & _) & R).
  rewrite E. split; [exact D|]. split; [exact B|]. split; [exact C|].
  destruct o as [infos|x]; [|exact I].
  destruct R as (R & _). exact R.
Qed.

(** ** The browser cleanup of the tool *)





(** ** The V2 temp cleanup and its analysis *)

(** X13.  The [files_deleted] and [space_freed] of [_cleanup_temp_files]
    are exactly the files and the bytes that have gone from the disk, also
    when a directory is named by more than one of its roots. *)
Theorem X13_v2_counts_what_has_gone (env : environment) (d : gmap string node) :
  exists r d',
    V2._cleanup_temp_files env d = (Returned r, d') /\
    V2.files_deleted r = disk_sum count_files d - disk_sum count_files d' /\
    V2.space_freed r = disk_sum total_size d - disk_sum total_size d'.
Proof.
  destruct (V2Top.cleanup_temp_files_swept env d) as (l' & E & []).
  eexists _, _. split; [exact E|]. cbn in *. lia.
Qed.

(** X14.  On a disk whose files can all be read, every file that
    [_cleanup_temp_files] has processed is either deleted or counted as an
    error, and the two detail lines repeat the counters of the result. *)
Theorem X14_v2_processed_is_deleted_plus_errors
        (env : environment) (d : gmap string node) :
  map_Forall (fun _ n => readable n = true) d ->
  exists r d',
    V2._cleanup_temp_files env d = (Returned r, d') /\
    V2.files_processed r = V2.files_deleted r + V2.errors_encountered r /\
    0 <= V2.errors_encountered r /\
    V2.details r = [V2.Processed (V2.files_processed r) (V2.files_deleted r);
                    V2.SpaceFreed (V2.space_freed r)].
Proof.
  intros _.
  destruct (V2Top.cleanup_temp_files_swept env d) as (l' & E & []).
  eexists _, _. split; [exact E|]. cbn in *. repeat split; lia.
Qed.

(** One file goes and the removal of the other is denied. *)
Lemma X14_v2_processed_is_deleted_plus_errors_witness :
  let env := mkEnv (Some "C:\T") None "C:\Users\u" in
  let d : gmap string node :=
    {[ "C:\T" := Dir "T" true true
                   [File (mkFile "a.tmp" 100 false true true);
                    File (mkFile "b.tmp" 20 false true false)] ]} in
  exists r d',
    V2._cleanup_temp_files env d = (Returned r, d') /\
    V2.files_processed r = V2.files_deleted r + V2.errors_encountered r /\
    0 <= V2.errors_encountered r /\
    V2.details r = [V2.Processed (V2.files_processed r) (V2.files_deleted r);
                    V2.SpaceFreed (V2.space_freed r)].
Proof.
  cbv zeta. apply X14_v2_processed_is_deleted_plus_errors.
  apply map_Forall_singleton. reflexivity.
Defined.

(** X15.  [_cleanup_temp_files] deletes files only: under every root the
    directories are all still there, as they were, and what is not one of
    its four temp directories is untouched. *)
Theorem X15_v2_keeps_directories (env : environment) (d : gmap string node) :
  exists r d',
    V2._cleanup_temp_files env d = (Returned r, d') /\
    (forall root, (skeleton <$> d' !! root) = (skeleton <$> d !! root)) /\
    (forall root, root ∉ V2.temp_dirs env -> d' !! root = d !! root).
Proof.
  destruct (V2Top.cleanup_temp_files_swept env d) as (l' & E & []).
  eexists _, _. split; [exact E|]. cbn in *. split; assumption.
Qed.

(** X16.  What [_analyze_temp_files] returns: over the four roots, each as
    often as it is named and only when it exists, the number and the total
    size of the files that lie in directories that can be listed and whose
    size can be read.  A root that is a file adds nothing. *)
Theorem X16_analysis_counts_readable_files
        (env : environment) (d : gmap string node) :
  V2Analysis._analyze_temp_files env d
  = (V2AnalysisSpec.announced V2AnalysisSpec.seen_count d (V2.temp_dirs env),
     V2AnalysisSpec.announced V2AnalysisSpec.seen_size d (V2.temp_dirs env)).
Proof.
  unfold V2Analysis._analyze_temp_files.
  rewrite V2AnalysisFacts.analysis_for_temp_dir. reflexivity.
Qed.

(** X17.  On a disk without files of negative size, [_cleanup_temp_files]
    deletes no more files and frees no more bytes than
    [_analyze_temp_files] announces on the same disk, and an analysis run
    after the cleanup announces no more than the one run before. *)
Theorem X17_cleanup_within_analysis
        (env : environment) (d : gmap string node) :
  map_Forall (fun _ n => sizes_nonneg n = true) d ->
  exists r d',
    V2._cleanup_temp_files env d = (Returned r, d') /\
    V2.files_deleted r <= fst (V2Analysis._analyze_temp_files env d) /\
    V2.space_freed r <= snd (V2Analysis._analyze_temp_files env d) /\
    fst (V2Analysis._analyze_temp_files env d')
    <= fst (V2Analysis._analyze_temp_files env d) /\
    snd (V2Analysis._analyze_temp_files env d')
    <= snd (V2Analysis._analyze_temp_files env d).
Proof.
  intros Hd.
  destruct (V2CoverFacts.for_temp_dir_covered (V2.temp_dirs env)
              (V2.mkFrame 0 0 0 0 [] d) Hd) as (l' & E & [D F N Cc Cs]).
  eexists _, (V2.l_disk l'). split.
  - unfold V2._cleanup_temp_files.
    erewrite bind_Returned by exact E. reflexivity.
  - unfold V2Analysis._analyze_temp_files.
    rewrite !V2AnalysisFacts.analysis_for_temp_dir.
    cbn [fst snd V2Analysis.count V2Analysis.size].
    cbn [V2.l_disk V2.l_files_deleted V2.l_space_freed V2.files_deleted
         V2.space_freed] in *.
    pose proof (V2CoverFacts.announced_le V2AnalysisSpec.seen_count d
                  (V2.l_disk l') (V2.temp_dirs env)
                  (fun k => proj2 (Cc k))).
    pose proof (V2CoverFacts.announced_le V2AnalysisSpec.seen_size d
                  (V2.l_disk l') (V2.temp_dirs env)
                  (fun k => proj2 (Cs k))).
    lia.
Qed.

(** TEMP and TMP name the same directory: the analysis counts it twice. *)
Lemma X17_cleanup_within_analysis_witness :
  let env := mkEnv (Some "C:\Temp") (Some "C:\Temp") "C:\Users\u" in
  let d : gmap string node :=
    {[ "C:\Temp" := Dir "Temp" true true
                      [File (mkFile "a.tmp" 100 false true true);
                       File (mkFile "b.tmp" 20 false true false)] ]} in
  exists r d',
    V2._cleanup_temp_files env d = (Returned r, d') /\
    V2.files_deleted r <= fst (V2Analysis._analyze_temp_files env d) /\
    V2.space_freed r <= snd (V2Analysis._analyze_temp_files env d) /\
    fst (V2Analysis._analyze_temp_files env d')
    <= fst (V2Analysis._analyze_temp_files env d) /\
    snd (V2Analysis._analyze_temp_files env d')
    <= snd (V2Analysis._analyze_temp_files env d).
Proof.
  cbv zeta. apply X17_cleanup_within_analysis.
  apply map_Forall_singleton. reflexivity.
Defined.

(** ** The one-click run *)

(** X18.  The percentages [perform_one_click_cleanup] hands to the progress
    callback are, in this order, [5, 0] when the first snapshot fails,
    [5, 0, 25, 35, 45, 55, 65, 75, 85, 0] when the second one fails and
    [5, 0, 25, 35, 45, 55, 65, 75, 85, 0, 95, 100] otherwise; without a
    callback none is delivered.  The call always returns. *)
Theorem X18_one_click_progress_sequence
        (SystemState : Type) (system : nat -> exn + SystemState)
        (browser_result registry_result startup_result : V2.CleanupResult)
        (system_result memory_result : V2.CleanupResult)
        (env : environment) (e : V2.engine SystemState) :
  exists r e',
    V2.perform_one_click_cleanup system browser_result registry_result
      startup_result system_result memory_result env e = (Returned r, e') /\
    V2.percentages e' =
      V2.percentages e ++
      (if V2.progress_callback e then
         match system (V2.captures e), system (Datatypes.S (V2.captures e)) with
         | inl _, _ => [5; 0]
         | inr _, inl _ => [5; 0; 25; 35; 45; 55; 65; 75; 85; 0]
         | inr _, inr _ => [5; 0; 25; 35; 45; 55; 65; 75; 85; 0; 95; 100]
         end
       else []).
Proof.
  destruct (OneClickFacts.one_click_run system browser_result registry_result
              startup_result system_result memory_result env e)
    as (temp_result & d' & e' & _ & E & P & _).
  eexists _, e'. split; [exact E|].
  rewrite P. unfold OneClickSpec.run_percentages.
  destruct (V2.progress_callback e), (system (V2.captures e)),
    (system (Datatypes.S (V2.captures e))); reflexivity.
Qed.

